(** * openslots-mvp scraper: rate limiter, robots cache, fetch client and
      deduplicator, embedded from [src/tools/scraper].

    Conventions of the embedding.
    - Python [str] values are ASCII text, held as [string]; [encode()] is then
      the list of character codes.
    - Python [float] values that carry seconds, scores or coordinates are
      exact rationals ([Q]); [max]/[min] keep Python's argument preference.
      Rounding is outside the model; the [OverflowError] of
      [multiplier ** failure_count] (from 1024 failures on) is part of it.
    - Python [int] is [Z].
    - [dict] used only by key is a [gmap]; the provider index, which is
      iterated in insertion order, is an association list.
    - An operation that can raise returns a [result]; where it also mutates
      an object, the object is threaded through explicitly. *)

From Stdlib Require Import ZArith QArith Qminmax Qpower Lia Lqa Bool Ascii String List.
From stdpp Require Import base option gmap strings.
Import ListNotations.

Local Open Scope string_scope.
Local Open Scope Z_scope.

(* ===================================================================== *)
(** ** Python string primitives used by [utils/hash.py]                   *)
(* ===================================================================== *)

Module PyStr.

Definition code (c : ascii) : Z := Z.of_N (N_of_ascii c).

(** [str.isspace] / regex [\s] on ASCII: TAB..CR, FS..US and SPACE. *)
Definition is_space (c : ascii) : bool :=
  let n := code c in
  ((9 <=? n) && (n <=? 13)) || ((28 <=? n) && (n <=? 32)).

Definition is_upper (c : ascii) : bool :=
  let n := code c in (65 <=? n) && (n <=? 90).

Definition is_lower (c : ascii) : bool :=
  let n := code c in (97 <=? n) && (n <=? 122).

Definition is_digit (c : ascii) : bool :=
  let n := code c in (48 <=? n) && (n <=? 57).

(** regex [\w] on ASCII: letters, digits and underscore. *)
Definition is_word (c : ascii) : bool :=
  is_upper c || is_lower c || is_digit c || (code c =? 95).

Definition lower_char (c : ascii) : ascii :=
  if is_upper c then ascii_of_N (N_of_ascii c + 32) else c.

(** [s.lower()] *)
Fixpoint lower (s : string) : string :=
  match s with
  | EmptyString => EmptyString
  | String c r => String (lower_char c) (lower r)
  end.

(** [s.lstrip()] *)
Fixpoint lstrip (s : string) : string :=
  match s with
  | EmptyString => EmptyString
  | String c r => if is_space c then lstrip r else s
  end.

Fixpoint all_space (s : string) : bool :=
  match s with
  | EmptyString => true
  | String c r => is_space c && all_space r
  end.

(** [s.rstrip()] *)
Fixpoint rstrip (s : string) : string :=
  match s with
  | EmptyString => EmptyString
  | String c r => if all_space s then EmptyString else String c (rstrip r)
  end.

(** [s.strip()] *)
Definition strip (s : string) : string := rstrip (lstrip s).

(** [re.sub(r"[^\w\s]", "", s)]: every character that is neither a word
    character nor whitespace is deleted. *)
Fixpoint remove_punct (s : string) : string :=
  match s with
  | EmptyString => EmptyString
  | String c r =>
      if is_word c || is_space c then String c (remove_punct r)
      else remove_punct r
  end.

(** [re.sub(r"\s+", " ", s)]: each maximal run of whitespace becomes one
    space. *)
Fixpoint collapse_ws_from (in_run : bool) (s : string) : string :=
  match s with
  | EmptyString => EmptyString
  | String c r =>
      if is_space c
      then (if in_run then collapse_ws_from true r
            else String " "%char (collapse_ws_from true r))
      else String c (collapse_ws_from false r)
  end.

Definition collapse_ws (s : string) : string := collapse_ws_from false s.

(** [s.startswith(p)], returning the remainder on success. *)
Fixpoint strip_prefix (p s : string) : option string :=
  match p with
  | EmptyString => Some s
  | String a p' =>
      match s with
      | EmptyString => None
      | String b s' => if Ascii.eqb a b then strip_prefix p' s' else None
      end
  end.

Definition starts_word (s : string) : bool :=
  match s with
  | EmptyString => false
  | String c _ => is_word c
  end.

(** [re.sub(r"\bWORD\b", repl, s)] for a literal [WORD] made of word
    characters: one scan from left to right. [prev] tells whether the
    character just before the cursor is a word character; a match needs a
    boundary on both sides. On a match the replacement is emitted and the
    [skip] remaining characters of the matched word are passed over, so
    matching resumes right after the matched text. *)
Fixpoint sub_word_scan (word repl : string) (prev : bool) (skip : nat)
         (s : string) : string :=
  match s with
  | EmptyString => EmptyString
  | String c r =>
      match skip with
      | S k => sub_word_scan word repl true k r
      | O =>
          match (if prev then None else strip_prefix word s) with
          | Some rest =>
              if starts_word rest
              then String c (sub_word_scan word repl (is_word c) 0 r)
              else repl ++ sub_word_scan word repl true
                                         (Nat.pred (String.length word)) r
          | None => String c (sub_word_scan word repl (is_word c) 0 r)
          end
      end
  end.

Definition sub_word (word repl s : string) : string :=
  sub_word_scan word repl false 0 s.

(** [s.encode()] on ASCII text. *)
Fixpoint encode (s : string) : list Z :=
  match s with
  | EmptyString => []
  | String c r => code c :: encode r
  end.

(** [s[:n]] *)
Fixpoint take (n : nat) (s : string) : string :=
  match n, s with
  | S n', String c r => String c (take n' r)
  | _, _ => EmptyString
  end.

(** Every character of [s] satisfies [f]. *)
Fixpoint all_chars (f : ascii -> bool) (s : string) : bool :=
  match s with
  | EmptyString => true
  | String c r => f c && all_chars f r
  end.

Definition not_space (c : ascii) : bool := negb (is_space c).

(** The first [k] characters of [s] (or all of them, if fewer) are not
    whitespace. *)
Fixpoint nospace_prefix (k : nat) (s : string) : bool :=
  match k, s with
  | S k', String c r => not_space c && nospace_prefix k' r
  | _, _ => true
  end.

(** A character of the ASCII range. *)
Definition is_ascii (c : ascii) : bool := code c <? 128.

(** Every whitespace character of [s] is a plain space, and no two of
    them are adjacent; [after_space] tells whether a space comes just
    before [s]. *)
Fixpoint single_spaces_from (after_space : bool) (s : string) : bool :=
  match s with
  | EmptyString => true
  | String c r =>
      if is_space c
      then Ascii.eqb c " "%char && negb after_space && single_spaces_from true r
      else single_spaces_from false r
  end.

Definition single_spaces (s : string) : bool := single_spaces_from false s.

End PyStr.

(* ===================================================================== *)
(** ** [hashlib.sha256] (FIPS 180-4) on 32-bit words held in [Z]          *)
(* ===================================================================== *)

Module Sha256.

Definition wrap32 (x : Z) : Z := x mod 2 ^ 32.
Definition add32 (x y : Z) : Z := wrap32 (x + y).
Definition rotr (n x : Z) : Z :=
  Z.lor (Z.shiftr x n) (wrap32 (Z.shiftl x (32 - n))).
Definition not32 (x : Z) : Z := Z.lxor x (2 ^ 32 - 1).

Definition Ch (x y z : Z) : Z := Z.lxor (Z.land x y) (Z.land (not32 x) z).
Definition Maj (x y z : Z) : Z :=
  Z.lxor (Z.lxor (Z.land x y) (Z.land x z)) (Z.land y z).
Definition Sigma0 (x : Z) : Z := Z.lxor (Z.lxor (rotr 2 x) (rotr 13 x)) (rotr 22 x).
Definition Sigma1 (x : Z) : Z := Z.lxor (Z.lxor (rotr 6 x) (rotr 11 x)) (rotr 25 x).
Definition sigma0 (x : Z) : Z := Z.lxor (Z.lxor (rotr 7 x) (rotr 18 x)) (Z.shiftr x 3).
Definition sigma1 (x : Z) : Z := Z.lxor (Z.lxor (rotr 17 x) (rotr 19 x)) (Z.shiftr x 10).

Definition K : list Z :=
  [1116352408; 1899447441; 3049323471; 3921009573; 961987163; 1508970993;
   2453635748; 2870763221; 3624381080; 310598401; 607225278; 1426881987;
   1925078388; 2162078206; 2614888103; 3248222580; 3835390401; 4022224774;
   264347078; 604807628; 770255983; 1249150122; 1555081692; 1996064986;
   2554220882; 2821834349; 2952996808; 3210313671; 3336571891; 3584528711;
   113926993; 338241895; 666307205; 773529912; 1294757372; 1396182291;
   1695183700; 1986661051; 2177026350; 2456956037; 2730485921; 2820302411;
   3259730800; 3345764771; 3516065817; 3600352804; 4094571909; 275423344;
   430227734; 506948616; 659060556; 883997877; 958139571; 1322822218;
   1537002063; 1747873779; 1955562222; 2024104815; 2227730452; 2361852424;
   2428436474; 2756734187; 3204031479; 3329325298].

Definition H0 : list Z :=
  [1779033703; 3144134277; 1013904242; 2773480762;
   1359893119; 2600822924; 528734635; 1541459225].

(** Message padding: 0x80, zeros up to 56 mod 64, 64-bit big-endian bit
    length. *)
Fixpoint be_bytes (n : nat) (x : Z) : list Z :=
  match n with
  | O => []
  | S n' => (Z.shiftr x (8 * Z.of_nat n')) mod 256 :: be_bytes n' x
  end.

Definition pad (msg : list Z) : list Z :=
  let len := Z.of_nat (List.length msg) in
  let zeros := Z.to_nat ((55 - len) mod 64) in
  msg ++ [128] ++ List.repeat 0 zeros ++ be_bytes 8 (8 * len).

Fixpoint words_of (fuel : nat) (bs : list Z) : list Z :=
  match fuel, bs with
  | S fuel', a :: b :: c :: d :: r =>
      (((a * 256 + b) * 256 + c) * 256 + d) :: words_of fuel' r
  | _, _ => []
  end.

Fixpoint chunks16 (fuel : nat) (ws : list Z) : list (list Z) :=
  match fuel with
  | O => []
  | S fuel' =>
      match ws with
      | [] => []
      | _ => List.firstn 16 ws :: chunks16 fuel' (List.skipn 16 ws)
      end
  end.

(** The 64-entry message schedule, built front to back. *)
Fixpoint schedule (n : nat) (w : list Z) : list Z :=
  match n with
  | O => w
  | S n' =>
      let t := List.length w in
      let g i := List.nth (t - i) w 0 in
      schedule n'
        (w ++ [add32 (add32 (sigma1 (g 2%nat)) (g 7%nat))
                     (add32 (sigma0 (g 15%nat)) (g 16%nat))])
  end.

Record regs := Regs { ra : Z; rb : Z; rc : Z; rd : Z;
                      re : Z; rf : Z; rg : Z; rh : Z }.

Definition round (r : regs) (kw : Z * Z) : regs :=
  let t1 := add32 (add32 (add32 (rh r) (Sigma1 (re r)))
                         (add32 (Ch (re r) (rf r) (rg r)) (fst kw))) (snd kw) in
  let t2 := add32 (Sigma0 (ra r)) (Maj (ra r) (rb r) (rc r)) in
  Regs (add32 t1 t2) (ra r) (rb r) (rc r) (add32 (rd r) t1) (re r) (rf r) (rg r).

Definition regs_of (h : list Z) : regs :=
  let g i := List.nth i h 0 in
  Regs (g 0%nat) (g 1%nat) (g 2%nat) (g 3%nat)
       (g 4%nat) (g 5%nat) (g 6%nat) (g 7%nat).

Definition compress (h : list Z) (block : list Z) : list Z :=
  let w := schedule 48 block in
  let r0 := regs_of h in
  let r := List.fold_left round (List.combine K w) r0 in
  [add32 (ra r0) (ra r); add32 (rb r0) (rb r); add32 (rc r0) (rc r);
   add32 (rd r0) (rd r); add32 (re r0) (re r); add32 (rf r0) (rf r);
   add32 (rg r0) (rg r); add32 (rh r0) (rh r)].

Definition digest_words (msg : list Z) : list Z :=
  let bs := pad msg in
  let ws := words_of (List.length bs) bs in
  List.fold_left compress (chunks16 (List.length ws) ws) H0.

Definition hex_digit (n : Z) : ascii :=
  if n <? 10 then ascii_of_N (Z.to_N (48 + n))
  else ascii_of_N (Z.to_N (87 + n)).

Fixpoint hex_of (n : nat) (x : Z) : string :=
  match n with
  | O => EmptyString
  | S n' => String (hex_digit ((Z.shiftr x (4 * Z.of_nat n')) mod 16)) (hex_of n' x)
  end.

(** [hashlib.sha256(msg).hexdigest()] *)
Definition hexdigest (msg : list Z) : string :=
  List.fold_right (fun w acc => hex_of 8 w ++ acc) EmptyString (digest_words msg).

End Sha256.

(* ===================================================================== *)
(** ** Exceptions and results                                             *)
(* ===================================================================== *)

Inductive exn : Type :=
| KeyError (key : string)
| TypeError
| ZeroDivisionError
| OverflowError
| RuntimeError
| RateLimitExceeded
| HttpError.

Inductive result (A : Type) : Type :=
| Ok (a : A)
| Raise (e : exn).
Arguments Ok {A} a.
Arguments Raise {A} e.

Definition is_ok {A} (r : result A) : bool :=
  match r with Ok _ => true | Raise _ => false end.

(** Python truthiness, [x or y], and the built-in [max]/[min] of two
    arguments (the first argument is kept on ties). *)
Class Truthy (A : Type) := truthy : A -> bool.

#[global] Instance truthy_string : Truthy string :=
  fun s => match s with EmptyString => false | String _ _ => true end.
#[global] Instance truthy_Z : Truthy Z := fun z => negb (z =? 0).
#[global] Instance truthy_Q : Truthy Q := fun q => negb (Qeq_bool q 0).
#[global] Instance truthy_list {A} : Truthy (list A) :=
  fun l => match l with [] => false | _ :: _ => true end.
#[global] Instance truthy_option {A} `{Truthy A} : Truthy (option A) :=
  fun o => match o with Some a => truthy a | None => false end.

Definition py_or {A} `{Truthy A} (a b : A) : A := if truthy a then a else b.

Definition Qltb (a b : Q) : bool := negb (Qle_bool b a).
Definition py_max (a b : Q) : Q := if Qltb a b then b else a.
Definition py_min (a b : Q) : Q := if Qltb b a then b else a.

(* ===================================================================== *)
(** ** [utils/hash.py]                                                    *)
(* ===================================================================== *)

Module Hash.
Import PyStr.

(** The [replacements] table of [normalize_address], in dict order. *)
Definition replacements : list (string * string) :=
  [("street", "st"); ("avenue", "ave"); ("boulevard", "blvd");
   ("drive", "dr"); ("road", "rd"); ("lane", "ln"); ("court", "ct");
   ("place", "pl"); ("suite", "ste"); ("apartment", "apt");
   ("north", "n"); ("south", "s"); ("east", "e"); ("west", "w")].

Definition normalize_address (address : string) : string :=
  let normalized := strip (lower address) in
  let normalized :=
    List.fold_left (fun acc pr => sub_word (fst pr) (snd pr) acc)
                   replacements normalized in
  collapse_ws normalized.

Definition normalized_name (name : string) : string :=
  strip (remove_punct (lower name)).

Definition normalized_city (city : string) : string := strip (lower city).

Definition key_string (name address city : string) : string :=
  normalized_name name ++ "|" ++ normalize_address address ++ "|"
    ++ normalized_city city.

Definition generate_provider_key (name address city : string) : string :=
  take 16 (Sha256.hexdigest (encode (key_string name address city))).

(** [content_hash]: the first 16 characters of the hex digest. *)
Definition content_hash (content : string) : string :=
  take 16 (Sha256.hexdigest (encode content)).

(** [re.sub(r"[^\d+]", "", phone)]: only digits and plus signs stay. *)
Definition is_phone_char (c : ascii) : bool :=
  is_digit c || Ascii.eqb c "+"%char.

Fixpoint keep_phone_chars (s : string) : string :=
  match s with
  | EmptyString => EmptyString
  | String c r =>
      if is_phone_char c then String c (keep_phone_chars r)
      else keep_phone_chars r
  end.

Definition starts_with_char (a : ascii) (s : string) : bool :=
  match s with
  | EmptyString => false
  | String c _ => Ascii.eqb c a
  end.

Definition normalize_phone (phone : string) : string :=
  let digits := keep_phone_chars phone in
  if starts_with_char "+"%char digits then digits
  else if Nat.eqb (String.length digits) 10 then "+1" ++ digits
  else if Nat.eqb (String.length digits) 11 && starts_with_char "1"%char digits
       then "+" ++ digits
  else digits.

(** A lowercase hexadecimal digit. *)
Definition is_hex (c : ascii) : bool :=
  is_digit c || ((97 <=? code c) && (code c <=? 102)).

(** A table entry is a non-empty word of word characters with a
    non-empty replacement free of whitespace. *)
Definition entry_ok (pr : string * string) : bool :=
  match fst pr, snd pr with
  | String _ _, String _ _ =>
      all_chars is_word (fst pr) && all_chars not_space (snd pr)
  | _, _ => false
  end.

End Hash.

(* ===================================================================== *)
(** ** [schemas]: the record types used by the normalizers                *)
(* ===================================================================== *)

Module Schemas.

(** Modelled from the spec: the [schemas] module is not part of the
    sources at hand. [SourceType] is the source-kind enum (map API,
    website, directory, search); its [.value] strings are the keys of the
    priority table in [ProviderNormalizer.merge]. *)
Inductive SourceType : Type := GOOGLE_MAPS | WEBSITE | DIRECTORY | SEARCH.

Definition SourceType_value (t : SourceType) : string :=
  match t with
  | GOOGLE_MAPS => "GOOGLE_MAPS"
  | WEBSITE => "WEBSITE"
  | DIRECTORY => "DIRECTORY"
  | SEARCH => "SEARCH"
  end.

(** Modelled from the spec: a ProvenanceEntry (source kind, source URL,
    fetch timestamp, content hash), built in the tests as
    [ScrapedSource(type=, url=, fetched_at=, raw_data_hash=)]. *)
Record ScrapedSource : Type := {
  src_type : SourceType;
  src_url : string;
  src_fetched_at : Z;
  src_raw_data_hash : string
}.

(** Modelled from the spec: a ServiceOffering, built in the tests as
    [ScrapedService(category=, name=, description=, base_price_cents=,
    duration_min=, add_ons=)]. *)
Record ScrapedService : Type := {
  svc_category : string;
  svc_name : string;
  svc_description : option string;
  svc_base_price_cents : option Z;
  svc_duration_min : option Z;
  svc_add_ons : list string
}.

(** Modelled from the spec: a CandidateRecord, with the fields that
    [ProviderNormalizer.merge] passes to the constructor. *)
Record ScrapedProvider : Type := {
  name : string;
  address : string;
  city : string;
  state : string;
  zip_code : string;
  country : string;
  legal_name : option string;
  website_url : option string;
  latitude : option Q;
  longitude : option Q;
  phone : option string;
  email : option string;
  booking_url : option string;
  services : list ScrapedService;
  opening_hours : option (list (string * string));
  google_rating : option Q;
  google_review_count : option Z;
  social_links : option (list (string * string));
  sources : list ScrapedSource;
  confidence : Q
}.

(** Dataclass equality [==], field by field. *)
Definition opt_eqb {A} (eqb : A -> A -> bool) (x y : option A) : bool :=
  match x, y with
  | Some a, Some b => eqb a b
  | None, None => true
  | _, _ => false
  end.

Fixpoint list_eqb {A} (eqb : A -> A -> bool) (x y : list A) : bool :=
  match x, y with
  | [], [] => true
  | a :: x', b :: y' => eqb a b && list_eqb eqb x' y'
  | _, _ => false
  end.

Definition pair_eqb (x y : string * string) : bool :=
  String.eqb (fst x) (fst y) && String.eqb (snd x) (snd y).

Definition SourceType_eqb (x y : SourceType) : bool :=
  String.eqb (SourceType_value x) (SourceType_value y).

Definition source_eqb (x y : ScrapedSource) : bool :=
  SourceType_eqb (src_type x) (src_type y)
  && String.eqb (src_url x) (src_url y)
  && (src_fetched_at x =? src_fetched_at y)
  && String.eqb (src_raw_data_hash x) (src_raw_data_hash y).

Definition service_eqb (x y : ScrapedService) : bool :=
  String.eqb (svc_category x) (svc_category y)
  && String.eqb (svc_name x) (svc_name y)
  && opt_eqb String.eqb (svc_description x) (svc_description y)
  && opt_eqb Z.eqb (svc_base_price_cents x) (svc_base_price_cents y)
  && opt_eqb Z.eqb (svc_duration_min x) (svc_duration_min y)
  && list_eqb String.eqb (svc_add_ons x) (svc_add_ons y).

Definition provider_eqb (x y : ScrapedProvider) : bool :=
  String.eqb (name x) (name y)
  && String.eqb (address x) (address y)
  && String.eqb (city x) (city y)
  && String.eqb (state x) (state y)
  && String.eqb (zip_code x) (zip_code y)
  && String.eqb (country x) (country y)
  && opt_eqb String.eqb (legal_name x) (legal_name y)
  && opt_eqb String.eqb (website_url x) (website_url y)
  && opt_eqb Qeq_bool (latitude x) (latitude y)
  && opt_eqb Qeq_bool (longitude x) (longitude y)
  && opt_eqb String.eqb (phone x) (phone y)
  && opt_eqb String.eqb (email x) (email y)
  && opt_eqb String.eqb (booking_url x) (booking_url y)
  && list_eqb service_eqb (services x) (services y)
  && opt_eqb (list_eqb pair_eqb) (opening_hours x) (opening_hours y)
  && opt_eqb Qeq_bool (google_rating x) (google_rating y)
  && opt_eqb Z.eqb (google_review_count x) (google_review_count y)
  && opt_eqb (list_eqb pair_eqb) (social_links x) (social_links y)
  && list_eqb source_eqb (sources x) (sources y)
  && Qeq_bool (confidence x) (confidence y).

End Schemas.

(* ===================================================================== *)
(** ** [normalizers/provider.py]: [ProviderNormalizer.merge]              *)
(* ===================================================================== *)

Module Provider.
Import Schemas.

(** The [key=] function of the two [max] calls:
    [{"GOOGLE_MAPS": 3, "WEBSITE": 2, "DIRECTORY": 1, "SEARCH": 0}.get(t, 0)]. *)
Definition priority_of_value (t : string) : Z :=
  if String.eqb t "GOOGLE_MAPS" then 3
  else if String.eqb t "WEBSITE" then 2
  else if String.eqb t "DIRECTORY" then 1
  else if String.eqb t "SEARCH" then 0
  else 0.

(** What [max(...)] hands back: an element of the iterable, i.e. a
    [.value] string, or the integer [default=0] when it is empty. *)
Inductive pyval : Type :=
| VInt (z : Z)
| VStr (s : string).

(** [max(iterable, key=f)] over a non-empty iterable: the first element
    whose key is maximal. *)
Fixpoint max_by_key (best : string) (rest : list string) : string :=
  match rest with
  | [] => best
  | x :: rest' =>
      if priority_of_value best <? priority_of_value x
      then max_by_key x rest'
      else max_by_key best rest'
  end.

Definition max_source_value (srcs : list ScrapedSource) : pyval :=
  match List.map (fun s => SourceType_value (src_type s)) srcs with
  | [] => VInt 0
  | v :: vs => VStr (max_by_key v vs)
  end.

(** Python [a > b]: integers by value, strings by code point order, and a
    [TypeError] for a string against an integer. *)
Definition py_gt (a b : pyval) : result bool :=
  match a, b with
  | VInt x, VInt y => Ok (y <? x)
  | VStr x, VStr y => Ok (String.ltb y x)
  | _, _ => Raise TypeError
  end.

Definition merge_fields (base secondary : ScrapedProvider) : ScrapedProvider :=
  {| name := py_or (name base) (name secondary);
     address := py_or (address base) (address secondary);
     city := py_or (city base) (city secondary);
     state := py_or (state base) (state secondary);
     zip_code := py_or (zip_code base) (zip_code secondary);
     country := py_or (country base) (country secondary);
     legal_name := py_or (legal_name base) (legal_name secondary);
     website_url := py_or (website_url base) (website_url secondary);
     latitude := py_or (latitude base) (latitude secondary);
     longitude := py_or (longitude base) (longitude secondary);
     phone := py_or (phone base) (phone secondary);
     email := py_or (email base) (email secondary);
     booking_url := py_or (booking_url base) (booking_url secondary);
     services := py_or (services base) (services secondary);
     opening_hours := py_or (opening_hours base) (opening_hours secondary);
     google_rating := py_or (google_rating base) (google_rating secondary);
     google_review_count :=
       py_or (google_review_count base) (google_review_count secondary);
     social_links := py_or (social_links base) (social_links secondary);
     sources := (sources base ++ sources secondary)%list;
     confidence := py_max (confidence base) (confidence secondary) |}.

Definition merge (existing new : ScrapedProvider) : result ScrapedProvider :=
  let existing_priority := max_source_value (sources existing) in
  let new_priority := max_source_value (sources new) in
  match py_gt new_priority existing_priority with
  | Raise e => Raise e
  | Ok true => Ok (merge_fields new existing)
  | Ok false => Ok (merge_fields existing new)
  end.

(** Which of the merged fields are non-empty, in constructor order. *)
Definition nonempty_fields (p : ScrapedProvider) : list bool :=
  [truthy (name p); truthy (address p); truthy (city p); truthy (state p);
   truthy (zip_code p); truthy (country p); truthy (legal_name p);
   truthy (website_url p); truthy (latitude p); truthy (longitude p);
   truthy (phone p); truthy (email p); truthy (booking_url p);
   truthy (services p); truthy (opening_hours p); truthy (google_rating p);
   truthy (google_review_count p); truthy (social_links p)].

(** Pointwise [or] of two flag lists. *)
Fixpoint flags_or (a b : list bool) : list bool :=
  match a, b with
  | x :: a', y :: b' => (x || y) :: flags_or a' b'
  | _, _ => []
  end.

End Provider.

(* ===================================================================== *)
(** ** [normalizers/dedup.py]: [Deduplicator]                             *)
(* ===================================================================== *)

Module Dedup.
Import Schemas.

(** A Python [dict] with string keys, in insertion order. *)
Section OrderedDict.
Context {V : Type}.

Fixpoint dict_get (k : string) (d : list (string * V)) : option V :=
  match d with
  | [] => None
  | (k', v) :: d' => if String.eqb k k' then Some v else dict_get k d'
  end.

Definition dict_mem (k : string) (d : list (string * V)) : bool :=
  match dict_get k d with Some _ => true | None => false end.

(** [d[k] = v]: an existing key keeps its position, a new key goes to
    the end. *)
Fixpoint dict_set (k : string) (v : V) (d : list (string * V))
  : list (string * V) :=
  match d with
  | [] => [(k, v)]
  | (k', v') :: d' =>
      if String.eqb k k' then (k', v) :: d'
      else (k', v') :: dict_set k v d'
  end.
End OrderedDict.

Record DuplicateMatch : Type := {
  provider : ScrapedProvider;
  similarity_score : Q;
  match_reasons : list string
}.

Record Deduplicator : Type := {
  _index : list (string * ScrapedProvider);
  _phone_index : gmap string string;
  _url_index : gmap string string
}.

(** [Deduplicator()] *)
Definition init : Deduplicator :=
  {| _index := []; _phone_index := ∅; _url_index := ∅ |}.

Definition provider_key (p : ScrapedProvider) : string :=
  Hash.generate_provider_key (name p) (address p) (city p).

(** [field and field in index], giving the indexed key on a hit. *)
Definition index_hit (field : option string) (ix : gmap string string)
  : option string :=
  match field with
  | Some v => if truthy v then ix !! v else None
  | None => None
  end.

(** The three lines shared by every duplicate branch of [add]:
    [existing = self._index[k]; merged = merge(existing, provider);
     self._index[k] = merged; return False, merged]. *)
Definition merge_at (d : Deduplicator) (k : string) (p : ScrapedProvider)
  : result (bool * ScrapedProvider) * Deduplicator :=
  match dict_get k (_index d) with
  | None => (Raise (KeyError k), d)
  | Some existing =>
      match Provider.merge existing p with
      | Raise e => (Raise e, d)
      | Ok merged =>
          (Ok (false, merged),
           {| _index := dict_set k merged (_index d);
              _phone_index := _phone_index d;
              _url_index := _url_index d |})
      end
  end.

Definition register_field (field : option string) (key : string)
           (ix : gmap string string) : gmap string string :=
  match field with
  | Some v => if truthy v then <[v := key]> ix else ix
  | None => ix
  end.

Definition add (d : Deduplicator) (p : ScrapedProvider)
  : result (bool * ScrapedProvider) * Deduplicator :=
  let key := provider_key p in
  if dict_mem key (_index d) then merge_at d key p
  else
    match index_hit (phone p) (_phone_index d) with
    | Some existing_key => merge_at d existing_key p
    | None =>
        match index_hit (website_url p) (_url_index d) with
        | Some existing_key => merge_at d existing_key p
        | None =>
            (Ok (true, p),
             {| _index := dict_set key p (_index d);
                _phone_index := register_field (phone p) key (_phone_index d);
                _url_index :=
                  register_field (website_url p) key (_url_index d) |})
        end
    end.

(** [str.split()]: the maximal runs of non-whitespace characters. *)
Fixpoint split_ws_from (cur : string) (s : string) : list string :=
  match s with
  | EmptyString => match cur with EmptyString => [] | _ => [cur] end
  | String c r =>
      if PyStr.is_space c
      then match cur with
           | EmptyString => split_ws_from EmptyString r
           | _ => cur :: split_ws_from EmptyString r
           end
      else split_ws_from (cur ++ String c EmptyString) r
  end.

Definition split_ws (s : string) : list string := split_ws_from EmptyString s.

Definition mem_str (x : string) (l : list string) : bool :=
  List.existsb (String.eqb x) l.

(** [set(l)], as a duplicate-free list. *)
Fixpoint to_set (l : list string) : list string :=
  match l with
  | [] => []
  | x :: l' => if mem_str x l' then to_set l' else x :: to_set l'
  end.

Definition _name_similarity (name1 name2 : string) : Q :=
  let n1 := to_set (split_ws (PyStr.lower name1)) in
  let n2 := to_set (split_ws (PyStr.lower name2)) in
  match n1, n2 with
  | [], _ | _, [] => 0%Q
  | _, _ =>
      let intersection := List.filter (fun x => mem_str x n2) n1 in
      let union := (n1 ++ List.filter (fun x => negb (mem_str x n1)) n2)%list in
      Qmake (Z.of_nat (List.length intersection))
            (Pos.of_nat (List.length union))
  end.

Definition already_listed (p : ScrapedProvider) (matches : list DuplicateMatch)
  : bool :=
  List.existsb (fun m => provider_eqb (provider m) p) matches.

(** The fuzzy pass: [for existing_key, existing in self._index.items()]. *)
Fixpoint fuzzy_pass (p : ScrapedProvider) (items : list (string * ScrapedProvider))
         (matches : list DuplicateMatch) : list DuplicateMatch :=
  match items with
  | [] => matches
  | (_, existing) :: items' =>
      let matches' :=
        if String.eqb (PyStr.lower (city existing)) (PyStr.lower (city p)) then
          let name_similarity := _name_similarity (name p) (name existing) in
          if Qltb (8 # 10) name_similarity then
            if negb (already_listed existing matches) then
              (matches ++ [{| provider := existing;
                              similarity_score := name_similarity;
                              match_reasons := ["fuzzy_name"] |}])%list
            else matches
          else matches
        else matches in
      fuzzy_pass p items' matches'
  end.

(** [sorted(matches, key=score, reverse=True)]: stable, descending. *)
Fixpoint insert_desc (m : DuplicateMatch) (l : list DuplicateMatch)
  : list DuplicateMatch :=
  match l with
  | [] => [m]
  | y :: l' =>
      if Qltb (similarity_score m) (similarity_score y)
      then y :: insert_desc m l'
      else m :: l
  end.

Definition sorted_desc (l : list DuplicateMatch) : list DuplicateMatch :=
  List.fold_right insert_desc [] l.

Definition find_duplicates (d : Deduplicator) (p : ScrapedProvider)
  : result (list DuplicateMatch) * Deduplicator :=
  let key := provider_key p in
  match dict_get key (_index d) with
  | Some e =>
      (Ok [{| provider := e; similarity_score := 1;
              match_reasons := ["exact_key"] |}], d)
  | None =>
      (* phone match *)
      let after_phone : result (list DuplicateMatch) :=
        match index_hit (phone p) (_phone_index d) with
        | Some existing_key =>
            match dict_get existing_key (_index d) with
            | Some e => Ok [{| provider := e; similarity_score := 9 # 10;
                               match_reasons := ["phone"] |}]
            | None => Raise (KeyError existing_key)
            end
        | None => Ok []
        end in
      match after_phone with
      | Raise e => (Raise e, d)
      | Ok matches =>
          (* URL match *)
          let after_url : result (list DuplicateMatch) :=
            match index_hit (website_url p) (_url_index d) with
            | Some existing_key =>
                match dict_get existing_key (_index d) with
                | Some e =>
                    if negb (already_listed e matches)
                    then Ok (matches ++
                               [{| provider := e; similarity_score := 85 # 100;
                                   match_reasons := ["website"] |}])%list
                    else Ok matches
                | None => Raise (KeyError existing_key)
                end
            | None => Ok matches
            end in
          match after_url with
          | Raise e => (Raise e, d)
          | Ok matches => (Ok (sorted_desc (fuzzy_pass p (_index d) matches)), d)
          end
      end
  end.

(** [get_all], [count], [clear] *)
Definition get_all (d : Deduplicator) : list ScrapedProvider :=
  List.map snd (_index d).

Definition count (d : Deduplicator) : Z := Z.of_nat (List.length (_index d)).

Definition clear (d : Deduplicator) : Deduplicator :=
  {| _index := []; _phone_index := ∅; _url_index := ∅ |}.

(** Every value of the phone and URL indexes is a key of the main
    index. *)
Definition index_consistent (d : Deduplicator) : Prop :=
  (forall ph k, _phone_index d !! ph = Some k -> dict_mem k (_index d) = true)
  /\ (forall u k, _url_index d !! u = Some k -> dict_mem k (_index d) = true).

(** Feeding a list of records through [add], stopping at the first
    exception. *)
Fixpoint add_all (d : Deduplicator) (ps : list ScrapedProvider)
  : result (list (bool * ScrapedProvider)) * Deduplicator :=
  match ps with
  | [] => (Ok [], d)
  | p :: ps' =>
      match add d p with
      | (Raise e, d') => (Raise e, d')
      | (Ok r, d') =>
          match add_all d' ps' with
          | (Raise e, d'') => (Raise e, d'')
          | (Ok rs, d'') => (Ok (r :: rs), d'')
          end
      end
  end.

(** The bare constructor call of the tests:
    [ScrapedProvider(name=, address=, city=, state=, zip_code=)] with the
    dataclass defaults ([country="US"], [confidence=1.0]). *)
Definition mk_provider (n a c st z : string) (ph : option string)
  : ScrapedProvider :=
  {| name := n; address := a; city := c; state := st; zip_code := z;
     country := "US"; legal_name := None; website_url := None;
     latitude := None; longitude := None; phone := ph; email := None;
     booking_url := None; services := []; opening_hours := None;
     google_rating := None; google_review_count := None;
     social_links := None; sources := []; confidence := 1 |}.

(** Which key [add] works on: the record's own key when it is indexed,
    else the phone hit, else the URL hit. *)
Definition duplicate_key (d : Deduplicator) (p : ScrapedProvider)
  : option string :=
  if dict_mem (provider_key p) (_index d) then Some (provider_key p)
  else match index_hit (phone p) (_phone_index d) with
       | Some k => Some k
       | None => index_hit (website_url p) (_url_index d)
       end.

(** The two records of [test_add_duplicate_by_phone]. *)
Definition phone_first : ScrapedProvider :=
  mk_provider "Test Spa" "123 Main St" "Miami" "FL" "33101"
              (Some "+13051234567").
Definition phone_second : ScrapedProvider :=
  mk_provider "Test Spa (New Name)" "456 Other St" "Miami" "FL" "33102"
              (Some "+13051234567").

(** The token set [_name_similarity] builds for a name. *)
Definition tokens (name : string) : list string :=
  to_set (split_ws (PyStr.lower name)).

(** How many of the results of a run of [add] calls were new records. *)
Definition count_new (rs : list (bool * ScrapedProvider)) : Z :=
  Z.of_nat (List.length (List.filter fst rs)).

(** The match [find_duplicates] reports on an exact key hit. *)
Definition exact_match (e : ScrapedProvider) : DuplicateMatch :=
  {| provider := e; similarity_score := 1; match_reasons := ["exact_key"] |}.

(** Scores never increase along the list. *)
Fixpoint descending (l : list DuplicateMatch) : Prop :=
  match l with
  | [] => True
  | a :: r =>
      List.Forall (fun b => (similarity_score b <= similarity_score a)%Q) r
      /\ descending r
  end.

(** No record of the list compares equal ([==]) to a later one. *)
Fixpoint listed_once (l : list DuplicateMatch) : Prop :=
  match l with
  | [] => True
  | a :: r =>
      List.Forall (fun b => provider_eqb (provider a) (provider b) = false) r
      /\ listed_once r
  end.

(** Every match carries a stored record and a score above 0.8 and at
    most 1, and no record is listed twice. *)
Definition sound_matches_of (d : Deduplicator) (ms : list DuplicateMatch) : Prop :=
  (forall m, In m ms ->
             In (provider m) (get_all d)
             /\ (8 # 10 < similarity_score m)%Q
             /\ (similarity_score m <= 1)%Q)
  /\ listed_once ms.

(** A record as it leaves a source: one provenance entry of the given
    kind. *)
Definition with_source (p : ScrapedProvider) (t : SourceType) (u : string)
  : ScrapedProvider :=
  {| name := name p; address := address p; city := city p; state := state p;
     zip_code := zip_code p; country := country p;
     legal_name := legal_name p; website_url := website_url p;
     latitude := latitude p; longitude := longitude p; phone := phone p;
     email := email p; booking_url := booking_url p; services := services p;
     opening_hours := opening_hours p; google_rating := google_rating p;
     google_review_count := google_review_count p;
     social_links := social_links p;
     sources := [{| src_type := t; src_url := u; src_fetched_at := 0;
                    src_raw_data_hash := "abc123" |}];
     confidence := confidence p |}.

(** One business seen on its website and then on the map API. *)
Definition website_sighting : ScrapedProvider :=
  with_source (mk_provider "Website Name" "123 Main St" "Miami" "FL" "33101" None)
              WEBSITE "https://example.com".
Definition maps_sighting : ScrapedProvider :=
  with_source (mk_provider "Maps Name" "123 Main St" "Miami" "FL" "33101"
                           (Some "+13051234567"))
              GOOGLE_MAPS "https://maps.example.com/place/1".

(** Two records that differ by one extra space inside the name. *)
Definition single_spaced : ScrapedProvider :=
  mk_provider "Test Spa" "123 Main St" "Miami" "FL" "33101" None.
Definition double_spaced : ScrapedProvider :=
  mk_provider "Test  Spa" "123 Main St" "Miami" "FL" "33101" None.

(** Scenario A: three sightings fed through [add] in order. *)
Definition scenario_A : list ScrapedProvider :=
  [mk_provider "Test Spa" "123 Main St" "Miami" "FL" "33101" None;
   mk_provider "TEST SPA" "123 MAIN ST" "MIAMI" "FL" "33101"
               (Some "+13051234567");
   mk_provider "Test Spa Wellness" "456 Other St" "Miami" "FL" "33101"
               (Some "+13051234567")].

End Dedup.

(* ===================================================================== *)
(** ** [config/rate_limits.py]: [RateLimiter]                             *)
(* ===================================================================== *)

Module RateLimits.

Record RateLimitConfig : Type := {
  requests_per_minute : Z;
  daily_limit : option Z;
  delay_between_requests : Q
}.

Definition website_config : RateLimitConfig :=
  {| requests_per_minute := 10; daily_limit := None;
     delay_between_requests := 2 |}.

Definition RATE_LIMITS : list (string * RateLimitConfig) :=
  [("google_places",
    {| requests_per_minute := 50; daily_limit := Some 5000;
       delay_between_requests := 12 # 10 |});
   ("website", website_config);
   ("directory",
    {| requests_per_minute := 20; daily_limit := None;
       delay_between_requests := 1 |})].

(** [RATE_LIMITS.get(source_type, RATE_LIMITS["website"])] *)
Definition rate_limits_get (source_type : string) : RateLimitConfig :=
  match Dedup.dict_get source_type RATE_LIMITS with
  | Some c => c
  | None => website_config
  end.

(** [BACKOFF_CONFIG] *)
Definition initial_delay : Q := 1.
Definition max_delay : Q := 60.
Definition multiplier : Q := 2.

Record RateLimiter : Type := {
  _last_request : gmap string Q;
  _request_counts : gmap string Z;
  _daily_counts : gmap string Z;
  _failure_counts : gmap string Z
}.

(** [RateLimiter()] *)
Definition init : RateLimiter :=
  {| _last_request := ∅; _request_counts := ∅;
     _daily_counts := ∅; _failure_counts := ∅ |}.

(** Reading [d[k]] on a [defaultdict]: a missing key is first inserted
    with the default. *)
Definition dd_read {V} (dflt : V) (m : gmap string V) (k : string)
  : V * gmap string V :=
  match m !! k with
  | Some v => (v, m)
  | None => (dflt, <[k := dflt]> m)
  end.

(** What one call of [acquire] did: how it ended, the [asyncio.sleep]
    calls it made, and the limiter afterwards. *)
Record acquired : Type := {
  outcome : result unit;
  slept : list Q;
  limiter : RateLimiter
}.

(** [multiplier ** failure_count] is computed when [failure_count > 0];
    [2.0 ** n] leaves the float range, and raises [OverflowError], from
    [n = 1024] on. *)
Definition backoff_overflows (failure_count : Z) : bool :=
  (0 <? failure_count) && (1024 <=? failure_count).

(** [min(initial_delay * multiplier ** failure_count, max_delay)], where
    the power does not overflow. *)
Definition backoff_delay (failure_count : Z) : Q :=
  py_min (initial_delay * multiplier ^ failure_count)%Q max_delay.

(** The interval computed between "Calculate required delay" and
    "Wait if needed". *)
Definition min_interval_of (config : RateLimitConfig) (failure_count : Z) : Q :=
  let min_interval := (60 / inject_Z (requests_per_minute config))%Q in
  let min_interval :=
    if 0 <? failure_count
    then py_max min_interval (backoff_delay failure_count)
    else min_interval in
  py_max min_interval (delay_between_requests config).

(** The body of [acquire] once [config] is looked up. [now] and [after]
    are the two readings of [time.time()], before and after the sleep. *)
(** [config.daily_limit and self._daily_counts[source_type] >=
    config.daily_limit]: the count is read only when a limit is set. The
    result is the test and the counter table after the read. *)
Definition daily_check (config : RateLimitConfig) (st : RateLimiter)
           (source_type : string) : bool * gmap string Z :=
  match daily_limit config with
  | Some lim =>
      if truthy lim
      then let r := dd_read 0 (_daily_counts st) source_type in
           (lim <=? fst r, snd r)
      else (false, _daily_counts st)
  | None => (false, _daily_counts st)
  end.

Definition acquire_with (config : RateLimitConfig) (st : RateLimiter)
           (source_type domain : string) (now after : Q) : acquired :=
  (* Check daily limit *)
  let check := daily_check config st source_type in
  let daily := snd check in
  if fst check then
    {| outcome := Raise RateLimitExceeded; slept := [];
       limiter := {| _last_request := _last_request st;
                     _request_counts := _request_counts st;
                     _daily_counts := daily;
                     _failure_counts := _failure_counts st |} |}
  else
    (* Calculate required delay *)
    let last := dd_read 0%Q (_last_request st) domain in
    if requests_per_minute config =? 0 then
      {| outcome := Raise ZeroDivisionError; slept := [];
         limiter := {| _last_request := snd last;
                       _request_counts := _request_counts st;
                       _daily_counts := daily;
                       _failure_counts := _failure_counts st |} |}
    else
      (* Add backoff for failures *)
      let failures := dd_read 0 (_failure_counts st) domain in
      if backoff_overflows (fst failures) then
        {| outcome := Raise OverflowError; slept := [];
           limiter := {| _last_request := snd last;
                         _request_counts := _request_counts st;
                         _daily_counts := daily;
                         _failure_counts := snd failures |} |}
      else
        let min_interval := min_interval_of config (fst failures) in
        (* Wait if needed *)
        let elapsed := (now - fst last)%Q in
        let sleeps :=
          if Qltb elapsed min_interval then [(min_interval - elapsed)%Q] else [] in
        (* Update tracking *)
        let requests := dd_read 0 (_request_counts st) domain in
        let today := dd_read 0 daily source_type in
        {| outcome := Ok tt; slept := sleeps;
           limiter :=
             {| _last_request := <[domain := after]> (snd last);
                _request_counts := <[domain := fst requests + 1]> (snd requests);
                _daily_counts := <[source_type := fst today + 1]> (snd today);
                _failure_counts := snd failures |} |}.

Definition acquire (st : RateLimiter) (source_type domain : string)
           (now after : Q) : acquired :=
  acquire_with (rate_limits_get source_type) st source_type domain now after.

Definition record_success (st : RateLimiter) (domain : string) : RateLimiter :=
  {| _last_request := _last_request st;
     _request_counts := _request_counts st;
     _daily_counts := _daily_counts st;
     _failure_counts := <[domain := 0]> (_failure_counts st) |}.

Definition record_failure (st : RateLimiter) (domain : string) : RateLimiter :=
  let failures := dd_read 0 (_failure_counts st) domain in
  {| _last_request := _last_request st;
     _request_counts := _request_counts st;
     _daily_counts := _daily_counts st;
     _failure_counts := <[domain := fst failures + 1]> (snd failures) |}.

Definition reset_daily_counts (st : RateLimiter) : RateLimiter :=
  {| _last_request := _last_request st;
     _request_counts := _request_counts st;
     _daily_counts := ∅;
     _failure_counts := _failure_counts st |}.

(** Reading helpers for statements: the value a [defaultdict] holds. *)
Definition daily_count (st : RateLimiter) (source_type : string) : Z :=
  default 0 (_daily_counts st !! source_type).
Definition request_count (st : RateLimiter) (domain : string) : Z :=
  default 0 (_request_counts st !! domain).
Definition failure_count (st : RateLimiter) (domain : string) : Z :=
  default 0 (_failure_counts st !! domain).
Definition last_request (st : RateLimiter) (domain : string) : Q :=
  default 0%Q (_last_request st !! domain).

(** Total time slept by a call. *)
Definition total_slept (a : acquired) : Q :=
  List.fold_right Qplus 0%Q (slept a).

(** The limiter with [failure_counts[domain]] set to [n]. *)
Definition with_failures (st : RateLimiter) (domain : string) (n : Z)
  : RateLimiter :=
  {| _last_request := _last_request st;
     _request_counts := _request_counts st;
     _daily_counts := _daily_counts st;
     _failure_counts := <[domain := n]> (_failure_counts st) |}.

(** The limiter with [daily_counts[source_type]] set to [n]. *)
Definition with_daily_count (st : RateLimiter) (source_type : string) (n : Z)
  : RateLimiter :=
  {| _last_request := _last_request st;
     _request_counts := _request_counts st;
     _daily_counts := <[source_type := n]> (_daily_counts st);
     _failure_counts := _failure_counts st |}.

(** A run of [acquire] calls for one source kind and domain, each with
    its two clock readings: the outcomes in order, and the limiter left
    behind. *)
Fixpoint acquire_run (st : RateLimiter) (source_type domain : string)
         (times : list (Q * Q)) : list (result unit) * RateLimiter :=
  match times with
  | [] => ([], st)
  | (now, after) :: rest =>
      let a := acquire st source_type domain now after in
      let r := acquire_run (limiter a) source_type domain rest in
      (outcome a :: fst r, snd r)
  end.

(** [n] failures in a row on one domain. *)
Fixpoint fail_times (n : nat) (st : RateLimiter) (domain : string) : RateLimiter :=
  match n with
  | O => st
  | S n' => record_failure (fail_times n' st domain) domain
  end.

(** Whether the daily-limit test of [acquire] fires. *)
Definition quota_exceeded (config : RateLimitConfig) (st : RateLimiter)
           (source_type : string) : bool :=
  match daily_limit config with
  | Some lim => truthy lim && (lim <=? daily_count st source_type)
  | None => false
  end.

(** The interval as the specification words it:
    [backoff(n) = min(maxDelay, initialDelay * multiplier^n)] for [n > 0],
    else [0], and
    [minInterval = max(60/requestsPerMinute, configuredDelay, backoff(n))]. *)
Definition spec_backoff (n : Z) : Q :=
  if 0 <? n then Qmin max_delay (initial_delay * multiplier ^ n)%Q else 0%Q.

Definition spec_min_interval (config : RateLimitConfig) (n : Z) : Q :=
  Qmax (Qmax (60 / inject_Z (requests_per_minute config))%Q
             (delay_between_requests config))
       (spec_backoff n).

(** A configuration with 60 requests per minute and the dataclass
    defaults for the other fields (scenario B). *)
Definition sixty_per_minute : RateLimitConfig :=
  {| requests_per_minute := 60; daily_limit := None;
     delay_between_requests := 1 |}.

End RateLimits.

(** [urllib.parse.urlparse]: only the two components the scraper reads. *)
Class UrlParse : Type := {
  urlparse_scheme : string -> string;
  urlparse_netloc : string -> string
}.

(** A [urlparse] for absolute URLs of the shape [scheme://host/path], to
    run the clients on concrete URLs. *)
Fixpoint before_scheme_sep (s : string) : string :=
  match s with
  | EmptyString => EmptyString
  | String c r =>
      match PyStr.strip_prefix "://" s with
      | Some _ => EmptyString
      | None => String c (before_scheme_sep r)
      end
  end.

Fixpoint after_scheme_sep (s : string) : string :=
  match s with
  | EmptyString => EmptyString
  | String c r =>
      match PyStr.strip_prefix "://" s with
      | Some rest => rest
      | None => after_scheme_sep r
      end
  end.

Fixpoint until_path (s : string) : string :=
  match s with
  | EmptyString => EmptyString
  | String c r =>
      if Ascii.eqb c "/"%char || Ascii.eqb c "?"%char || Ascii.eqb c "#"%char
      then EmptyString
      else String c (until_path r)
  end.

Definition plain_urlparse : UrlParse :=
  {| urlparse_scheme := before_scheme_sep;
     urlparse_netloc := fun s => until_path (after_scheme_sep s) |}.

(* ===================================================================== *)
(** ** [utils/http.py]: [HttpClient]                                      *)
(* ===================================================================== *)

Module Http.
Import RateLimits.

Record HttpResponse : Type := {
  url : string;
  status : Z;
  content : string;
  content_type : string;
  headers : list (string * string);
  elapsed_ms : Q
}.

(** [HttpResponse.ok] *)
Definition ok (r : HttpResponse) : bool :=
  (200 <=? status r) && (status r <? 300).

(** What one [session.get] plus [resp.text()] does: a response with any
    status, or one of the two exceptions [get] catches. [took] is the
    time it needed. *)
Inductive net_outcome : Type :=
| NetResponse (resp_url : string) (resp_status : Z) (text : string)
              (resp_headers : list (string * string)) (took : Q)
| NetTimeout (took : Q)
| NetClientError (took : Q).

Inductive event : Type :=
| EvAcquire (source_type domain : string)
| EvSleep (seconds : Q)
| EvRequest (target : string)
| EvRecordSuccess (domain : string)
| EvRecordFailure (domain : string).

(** The world around a client: its rate limiter, the clock read by
    [time.time()], and the log of what happened, oldest first. *)
Record World : Type := {
  rate_limiter : RateLimiter;
  clock : Q;
  trace : list event
}.

Record HttpClient : Type := {
  timeout : Z;
  max_retries : Z;
  session_open : bool
}.

(** [settings.http_timeout], [settings.http_max_retries] *)
Definition http_timeout : Z := 30.
Definition http_max_retries : Z := 3.

(** [HttpClient(timeout=, max_retries=)] followed by [__aenter__]. *)
Definition HttpClient_init (timeout_arg max_retries_arg : option Z) : HttpClient :=
  {| timeout := default http_timeout (py_or timeout_arg (Some http_timeout));
     max_retries :=
       default http_max_retries (py_or max_retries_arg (Some http_max_retries));
     session_open := true |}.

Definition log (w : World) (e : list event) : World :=
  {| rate_limiter := rate_limiter w; clock := clock w;
     trace := (trace w ++ e)%list |}.

(** [await asyncio.sleep(s)]: the clock moves on by [s]. *)
Definition sleep (w : World) (s : Q) : World :=
  {| rate_limiter := rate_limiter w; clock := (clock w + s)%Q;
     trace := (trace w ++ [EvSleep s])%list |}.

(** [await self.rate_limiter.acquire(source_type, domain)] *)
Definition do_acquire (w : World) (source_type domain : string)
  : result unit * World :=
  let now := clock w in
  let waited := total_slept (acquire (rate_limiter w) source_type domain now now) in
  let a := acquire (rate_limiter w) source_type domain now (now + waited)%Q in
  (outcome a,
   {| rate_limiter := limiter a; clock := (now + waited)%Q;
      trace := (trace w ++ EvAcquire source_type domain
                        :: List.map EvSleep (slept a))%list |}).

Definition do_record (w : World) (success : bool) (domain : string) : World :=
  {| rate_limiter := if success then record_success (rate_limiter w) domain
                     else record_failure (rate_limiter w) domain;
     clock := clock w;
     trace := (trace w ++ [if success then EvRecordSuccess domain
                           else EvRecordFailure domain])%list |}.

Definition advance (w : World) (took : Q) (target : string) : World :=
  {| rate_limiter := rate_limiter w; clock := (clock w + took)%Q;
     trace := (trace w ++ [EvRequest target])%list |}.

(** [resp.headers.get("Content-Type", "")] *)
Definition header_get (k : string) (h : list (string * string)) : string :=
  default EmptyString (Dedup.dict_get k h).

(** The [for attempt in range(self.max_retries)] loop; [remaining] counts
    the iterations left, [net] says what the network does at each
    attempt. *)
Fixpoint attempts (c : HttpClient) (net : Z -> net_outcome)
         (target source_type domain : string)
         (remaining : nat) (attempt : Z) (w : World)
  : result HttpResponse * World :=
  match remaining with
  | O => (Raise HttpError, w)
  | S remaining' =>
      match do_acquire w source_type domain with
      | (Raise e, w1) => (Raise e, w1)
      | (Ok _, w1) =>
          let start := clock w1 in
          match net attempt with
          | NetResponse resp_url resp_status text resp_headers took =>
              let w2 := advance w1 took target in
              let response :=
                {| url := resp_url; status := resp_status; content := text;
                   content_type := header_get "Content-Type" resp_headers;
                   headers := resp_headers;
                   elapsed_ms := ((clock w2 - start) * 1000)%Q |} in
              (Ok response, do_record w2 (ok response) domain)
          | NetTimeout took | NetClientError took =>
              let w2 := do_record (advance w1 took target) false domain in
              let w3 := if attempt <? max_retries c - 1
                        then sleep w2 (2 ^ attempt)%Q else w2 in
              attempts c net target source_type domain remaining' (attempt + 1) w3
          end
      end
  end.

Definition get {U : UrlParse} (c : HttpClient) (net : Z -> net_outcome)
           (target source_type : string) (w : World)
  : result HttpResponse * World :=
  if negb (session_open c) then (Raise RuntimeError, w)
  else
    let domain := urlparse_netloc target in
    attempts c net target source_type domain (Z.to_nat (max_retries c)) 0 w.

(** Counting in a trace. *)
Definition is_request (e : event) : bool :=
  match e with EvRequest _ => true | _ => false end.
Definition is_record_failure (e : event) : bool :=
  match e with EvRecordFailure _ => true | _ => false end.
Definition is_record_success (e : event) : bool :=
  match e with EvRecordSuccess _ => true | _ => false end.
Definition count_events (f : event -> bool) (w : World) : nat :=
  List.length (List.filter f (trace w)).

Definition fresh_world : World :=
  {| rate_limiter := RateLimits.init; clock := 0; trace := [] |}.

(** The two exceptions [get] catches and retries. *)
Definition is_exception (o : net_outcome) : bool :=
  match o with
  | NetResponse _ _ _ _ _ => false
  | NetTimeout _ | NetClientError _ => true
  end.

(** A server that answers every request with the same status. *)
Definition always_status (target : string) (code : Z) : Z -> net_outcome :=
  fun _ => NetResponse target code EmptyString [] 0.

(** A server that never answers in time. *)
Definition always_timeout : Z -> net_outcome := fun _ => NetTimeout 30.

(** [json.loads], used as given: the value a text denotes, if it is
    valid JSON. *)
Class JsonParser (A : Type) : Type := { json_loads : string -> option A }.

(** How [get_json] ends: with the parsed value, with an exception of
    [get] or its own [HttpError], or with the decoding error of
    [json.loads]. *)
Inductive json_outcome (A : Type) : Type :=
| JsonValue (v : A)
| JsonRaise (e : exn)
| JsonDecodeError.
Arguments JsonValue {A} v.
Arguments JsonRaise {A} e.
Arguments JsonDecodeError {A}.

Definition get_json {U : UrlParse} {A : Type} {J : JsonParser A}
           (c : HttpClient) (net : Z -> net_outcome)
           (target source_type : string) (w : World)
  : json_outcome A * World :=
  match get c net target source_type w with
  | (Raise e, w') => (JsonRaise e, w')
  | (Ok response, w') =>
      if negb (ok response) then (JsonRaise HttpError, w')
      else match json_loads (content response) with
           | Some v => (JsonValue v, w')
           | None => (JsonDecodeError, w')
           end
  end.

(** The day's quota of the source kind still allows [n] requests (always
    so for a kind without daily limit). *)
Definition quota_left (w : World) (source_type : string) (n : nat) : Prop :=
  match daily_limit (rate_limits_get source_type) with
  | Some lim => daily_count (rate_limiter w) source_type + Z.of_nat n <= lim
  | None => True
  end.

(** A counter that does not look at acquire and sleep events. *)
Definition ignores_waiting (f : event -> bool) : Prop :=
  (forall s d, f (EvAcquire s d) = false) /\ (forall q, f (EvSleep q) = false).

(** [json.loads] on the two boolean literals, to run [get_json] on
    concrete inputs. *)
Definition boolean_json : JsonParser bool :=
  {| json_loads := fun t =>
       if String.eqb t "true" then Some true
       else if String.eqb t "false" then Some false
       else None |}.

End Http.

(* ===================================================================== *)
(** ** [utils/robots.py]: [RobotsChecker]                                 *)
(* ===================================================================== *)

(** [urllib.robotparser.RobotFileParser] and [float()], used as given:
    whether a parsed rule set lets an agent fetch a URL, and the number a
    string denotes, if any. *)
Class RobotParser : Type := {
  rules_can_fetch : list string -> string -> string -> bool;
  parse_float : string -> option Q
}.

Module Robots.

(** The two states a [RobotFileParser] is left in by this module: fed
    with the lines of a robots.txt, or with [allow_all = True]. *)
Inductive parser_state : Type :=
| Parsed (lines : list string)
| AllowAll.

Record RobotsCacheEntry : Type := {
  parser : parser_state;
  fetched_at : Z;
  crawl_delay : option Q
}.

(** A cached file: its text and its modification time. *)
Record disk_file : Type := {
  file_text : string;
  st_mtime : Z
}.

(** The checker together with the cache directory it writes to. Times
    are in microseconds. *)
Record RobotsChecker : Type := {
  respect_robots_txt : bool;
  user_agent : string;
  cache_ttl : Z;
  _cache : gmap string RobotsCacheEntry;
  _cache_dir : gmap string disk_file
}.

Definition hour : Z := 3600 * 1000000.

(** [RobotsChecker(cache_ttl_hours)] over an existing cache directory. *)
Definition init (respect : bool) (agent : string) (cache_ttl_hours : Z)
           (dir : gmap string disk_file) : RobotsChecker :=
  {| respect_robots_txt := respect; user_agent := agent;
     cache_ttl := cache_ttl_hours * hour; _cache := ∅; _cache_dir := dir |}.

(** What the network answers to [GET robots_url]. *)
Inductive robots_response : Type :=
| Status200 (text : string)
| StatusOther (code : Z)
| FetchFailed.

(** The clock readings of one [_get_entry] call, in program order: the
    memory check, the disk check, the file write, and the creation of
    the entry after a fetch. *)
Record readings : Type := {
  at_memory_check : Z;
  at_disk_check : Z;
  at_file_write : Z;
  at_fetched : Z
}.

Definition _get_robots_url {U : UrlParse} (target : string) : string :=
  urlparse_scheme target ++ "://" ++ urlparse_netloc target ++ "/robots.txt".

Definition _get_domain {U : UrlParse} (target : string) : string :=
  urlparse_netloc target.

(** [s.replace(a, b)] for single characters. *)
Fixpoint replace_char (a b : ascii) (s : string) : string :=
  match s with
  | EmptyString => EmptyString
  | String c r =>
      String (if Ascii.eqb c a then b else c) (replace_char a b r)
  end.

Definition _get_cache_path (domain : string) : string :=
  replace_char "/"%char "_"%char (replace_char ":"%char "_"%char domain)
    ++ ".txt".

(** [str.splitlines()] on ASCII text. *)
Definition is_line_break (c : ascii) : bool :=
  let n := PyStr.code c in
  ((10 <=? n) && (n <=? 13)) || ((28 <=? n) && (n <=? 30)).

Fixpoint splitlines_from (cur : string) (s : string) : list string :=
  match s with
  | EmptyString => match cur with EmptyString => [] | _ => [cur] end
  | String c r =>
      if is_line_break c then
        match r with
        | String c2 r2 =>
            if Ascii.eqb c "013"%char && Ascii.eqb c2 "010"%char
            then cur :: splitlines_from EmptyString r2
            else cur :: splitlines_from EmptyString r
        | EmptyString => [cur]
        end
      else splitlines_from (cur ++ String c EmptyString) r
  end.

Definition splitlines (s : string) : list string := splitlines_from EmptyString s.

(** [line.split(":", 1)[1]] for a line known to contain a colon. *)
Fixpoint after_colon (s : string) : string :=
  match s with
  | EmptyString => EmptyString
  | String c r => if Ascii.eqb c ":"%char then r else after_colon r
  end.

(** The "Extract crawl delay" loop: the last line that parses wins. *)
Definition extract_crawl_delay {R : RobotParser} (lines : list string) : option Q :=
  List.fold_left
    (fun acc line =>
       match PyStr.strip_prefix "crawl-delay:" (PyStr.lower line) with
       | Some _ =>
           match parse_float (PyStr.strip (after_colon line)) with
           | Some q => Some q
           | None => acc
           end
       | None => acc
       end)
    lines None.

Definition _load_from_disk {R : RobotParser} (c : RobotsChecker) (domain : string)
           (now : Z) : option RobotsCacheEntry :=
  match _cache_dir c !! _get_cache_path domain with
  | None => None
  | Some f =>
      if cache_ttl c <? now - st_mtime f then None
      else
        let lines := splitlines (file_text f) in
        Some {| parser := Parsed lines; fetched_at := st_mtime f;
                crawl_delay := extract_crawl_delay lines |}
  end.

Definition with_cache (c : RobotsChecker) (m : gmap string RobotsCacheEntry)
  : RobotsChecker :=
  {| respect_robots_txt := respect_robots_txt c; user_agent := user_agent c;
     cache_ttl := cache_ttl c; _cache := m; _cache_dir := _cache_dir c |}.

Definition _save_to_disk (c : RobotsChecker) (domain text : string) (now : Z)
  : RobotsChecker :=
  {| respect_robots_txt := respect_robots_txt c; user_agent := user_agent c;
     cache_ttl := cache_ttl c; _cache := _cache c;
     _cache_dir := <[_get_cache_path domain :=
                       {| file_text := text; st_mtime := now |}]> (_cache_dir c) |}.

Definition allow_all_entry (now : Z) : RobotsCacheEntry :=
  {| parser := AllowAll; fetched_at := now; crawl_delay := None |}.

Definition _fetch_robots {U : UrlParse} {R : RobotParser} (c : RobotsChecker)
           (target : string) (net : robots_response) (t : readings)
  : option RobotsCacheEntry * RobotsChecker :=
  let domain := _get_domain target in
  match net with
  | Status200 text =>
      let c' := _save_to_disk c domain text (at_file_write t) in
      let lines := splitlines text in
      (Some {| parser := Parsed lines; fetched_at := at_fetched t;
               crawl_delay := extract_crawl_delay lines |}, c')
  | StatusOther _ => (Some (allow_all_entry (at_fetched t)), c)
  | FetchFailed => (Some (allow_all_entry (at_fetched t)), c)
  end.

(** One call of [_get_entry]: the entry, the checker afterwards, and the
    robots.txt URLs fetched from the network during the call. *)
Definition _get_entry {U : UrlParse} {R : RobotParser} (c : RobotsChecker)
           (target : string) (net : robots_response) (t : readings)
  : RobotsCacheEntry * RobotsChecker * list string :=
  let domain := _get_domain target in
  let memory_hit :=
    match _cache c !! domain with
    | Some entry =>
        if at_memory_check t - fetched_at entry <? cache_ttl c
        then Some entry else None
    | None => None
    end in
  match memory_hit with
  | Some entry => (entry, c, [])
  | None =>
      match _load_from_disk c domain (at_disk_check t) with
      | Some entry => (entry, with_cache c (<[domain := entry]> (_cache c)), [])
      | None =>
          match _fetch_robots c target net t with
          | (Some entry, c') =>
              (entry, with_cache c' (<[domain := entry]> (_cache c')),
               [_get_robots_url target])
          | (None, c') =>
              let entry := allow_all_entry (at_fetched t) in
              (entry, with_cache c' (<[domain := entry]> (_cache c')),
               [_get_robots_url target])
          end
      end
  end.

(** [settings.user_agent.split("/")[0]] *)
Fixpoint before_slash (s : string) : string :=
  match s with
  | EmptyString => EmptyString
  | String c r => if Ascii.eqb c "/"%char then EmptyString
                  else String c (before_slash r)
  end.

(** [entry.parser.can_fetch(agent, url)] *)
Definition parser_can_fetch {R : RobotParser} (p : parser_state)
           (agent target : string) : bool :=
  match p with
  | AllowAll => true
  | Parsed lines => rules_can_fetch lines agent target
  end.

Definition can_fetch {U : UrlParse} {R : RobotParser} (c : RobotsChecker)
           (target : string) (agent_arg : option string)
           (net : robots_response) (t : readings)
  : bool * RobotsChecker * list string :=
  if negb (respect_robots_txt c) then (true, c, [])
  else
    let '(entry, c', fetched) := _get_entry c target net t in
    let agent :=
      match agent_arg with
      | Some a => if truthy a then a else before_slash (user_agent c)
      | None => before_slash (user_agent c)
      end in
    (parser_can_fetch (parser entry) agent target, c', fetched).

Definition get_crawl_delay {U : UrlParse} {R : RobotParser} (c : RobotsChecker)
           (target : string) (net : robots_response) (t : readings)
  : option Q * RobotsChecker * list string :=
  let '(entry, c', fetched) := _get_entry c target net t in
  (crawl_delay entry, c', fetched).


(** The delay one line of robots.txt gives, if it is a crawl-delay line
    whose value parses. *)
Definition delay_of_line {R : RobotParser} (line : string) : option Q :=
  match PyStr.strip_prefix "crawl-delay:" (PyStr.lower line) with
  | Some _ => parse_float (PyStr.strip (after_colon line))
  | None => None
  end.

(** Neither a colon nor a slash. *)
Definition is_path_safe (c : ascii) : bool :=
  negb (Ascii.eqb c ":"%char) && negb (Ascii.eqb c "/"%char).

(** No valid entry for the URL's domain, in memory or on disk, at the
    readings [t]. *)
Definition cache_miss {U : UrlParse} (c : RobotsChecker) (target : string)
           (t : readings) : Prop :=
  (forall e, _cache c !! _get_domain target = Some e ->
             cache_ttl c <= at_memory_check t - fetched_at e)
  /\ (forall f, _cache_dir c !! _get_cache_path (_get_domain target) = Some f ->
                cache_ttl c < at_disk_check t - st_mtime f).

(** A robot parser that lets every agent fetch every URL and reads no
    number, to run the checker on concrete inputs. *)
Definition permissive_parser : RobotParser :=
  {| rules_can_fetch := fun _ _ _ => true; parse_float := fun _ => None |}.

(** The number a string of decimal digits denotes. *)
Fixpoint digits_value (acc : Z) (s : string) : option Z :=
  match s with
  | EmptyString => Some acc
  | String c r =>
      if PyStr.is_digit c then digits_value (10 * acc + (PyStr.code c - 48)) r
      else None
  end.

(** A robot parser that lets every agent fetch every URL and reads
    whole numbers written in digits, to run the crawl-delay loop on
    concrete inputs. *)
Definition whole_number_parser : RobotParser :=
  {| rules_can_fetch := fun _ _ _ => true;
     parse_float := fun s =>
       match s with
       | EmptyString => None
       | _ => match digits_value 0 s with
              | Some n => Some (inject_Z n)
              | None => None
              end
       end |}.

End Robots.


(* ===================================================================== *)
(** * Properties                                                          *)
(* ===================================================================== *)

(** ** SHA-256 test vectors *)

Example sha256_abc :
  Sha256.hexdigest (PyStr.encode "abc")
  = "ba7816bf8f01cfea414140de5dae2223b00361a396177a9cb410ff61f20015ad".
Proof. vm_compute. reflexivity. Qed.

Example sha256_two_blocks :
  Sha256.hexdigest (PyStr.encode
    "aaaaaaaaaaaaaaaaaaaaaaaaaaaaaaaaaaaaaaaaaaaaaaaaaaaaaaaaaaaaaaaaaaaaaa")
  = "6bd5e5034855a11241f0dee8fc72850ffd9955b28347a86428b5fa19119f6ad0".
Proof. vm_compute. reflexivity. Qed.

(** ** The ordered dictionary *)

Section OrderedDictFacts.
Import Dedup.
Context {V : Type}.
Implicit Types (d : list (string * V)) (k : string) (v : V).

Lemma dict_get_set_eq d k v : dict_get k (dict_set k v d) = Some v.
Proof.
  induction d as [|[k' v'] d IH]; simpl.
  - now rewrite String.eqb_refl.
  - destruct (String.eqb k k') eqn:E; simpl; rewrite E; auto.
Qed.

Lemma dict_get_set_ne d k k' v :
  k <> k' -> dict_get k' (dict_set k v d) = dict_get k' d.
Proof.
  intros Hne. induction d as [|[k0 v0] d IH]; simpl.
  - destruct (String.eqb k' k) eqn:E; auto.
    apply String.eqb_eq in E. congruence.
  - destruct (String.eqb k k0) eqn:E; simpl.
    + apply String.eqb_eq in E. subst k0.
      destruct (String.eqb k' k) eqn:E'; auto.
      apply String.eqb_eq in E'. congruence.
    + now rewrite IH.
Qed.

Lemma dict_mem_set d k k' v :
  dict_mem k' d = true -> dict_mem k' (dict_set k v d) = true.
Proof.
  unfold dict_mem. intros H.
  destruct (String.eqb k k') eqn:E.
  - apply String.eqb_eq in E. subst. now rewrite dict_get_set_eq.
  - apply String.eqb_neq in E. now rewrite dict_get_set_ne.
Qed.

Lemma dict_mem_set_eq d k v : dict_mem k (dict_set k v d) = true.
Proof. unfold dict_mem. now rewrite dict_get_set_eq. Qed.

Lemma dict_set_length_present d k v :
  dict_mem k d = true -> List.length (dict_set k v d) = List.length d.
Proof.
  unfold dict_mem. induction d as [|[k' v'] d IH]; simpl; [discriminate|].
  destruct (String.eqb k k'); simpl; auto.
Qed.

Lemma dict_set_length_absent d k v :
  dict_mem k d = false -> List.length (dict_set k v d) = S (List.length d).
Proof.
  unfold dict_mem. induction d as [|[k' v'] d IH]; simpl; [reflexivity|].
  destruct (String.eqb k k'); simpl; [discriminate | auto].
Qed.

Lemma dict_mem_get d k : dict_mem k d = true -> exists v, dict_get k d = Some v.
Proof. unfold dict_mem. destruct (dict_get k d); eauto; discriminate. Qed.

End OrderedDictFacts.

(** ** [ProviderNormalizer.merge] and [Deduplicator.add] *)

Section DedupFacts.
Import Schemas Dedup.

Lemma merge_raises_only_type_error existing new x :
  Provider.merge existing new = Raise x -> x = TypeError.
Proof.
  unfold Provider.merge, Provider.py_gt.
  destruct (Provider.max_source_value (sources new)),
           (Provider.max_source_value (sources existing));
    try congruence;
    match goal with |- context [if ?b then _ else _] => destruct b end;
    congruence.
Qed.

Lemma index_hit_lookup field ix k :
  index_hit field ix = Some k -> exists v, field = Some v /\ ix !! v = Some k.
Proof.
  unfold index_hit. destruct field as [v|]; [|discriminate].
  destruct (truthy v); [eauto | discriminate].
Qed.

(** The duplicate branch either stores the merged record under the key
    it was given, or raises and leaves the deduplicator as it was. *)
Lemma merge_at_cases d k p :
  (exists e m,
      dict_get k (_index d) = Some e /\ Provider.merge e p = Ok m /\
      merge_at d k p =
        (Ok (false, m),
         {| _index := dict_set k m (_index d);
            _phone_index := _phone_index d;
            _url_index := _url_index d |}))
  \/ (exists x, merge_at d k p = (Raise x, d) /\
                (x = TypeError \/ (x = KeyError k /\ dict_mem k (_index d) = false))).
Proof.
  unfold merge_at, dict_mem.
  destruct (dict_get k (_index d)) as [e|] eqn:Hg.
  - destruct (Provider.merge e p) as [m|x] eqn:Hm.
    + left. eauto.
    + right. exists x. split; [reflexivity|].
      left. eapply merge_raises_only_type_error; eauto.
  - right. exists (KeyError k). auto.
Qed.


Lemma add_duplicate d p k :
  duplicate_key d p = Some k -> add d p = merge_at d k p.
Proof.
  unfold duplicate_key, add.
  destruct (dict_mem (provider_key p) (_index d)); [congruence|].
  destruct (index_hit (phone p) (_phone_index d)); [congruence|].
  destruct (index_hit (website_url p) (_url_index d)); congruence.
Qed.

Lemma add_new d p :
  duplicate_key d p = None ->
  dict_mem (provider_key p) (_index d) = false /\
  add d p =
    (Ok (true, p),
     {| _index := dict_set (provider_key p) p (_index d);
        _phone_index :=
          register_field (phone p) (provider_key p) (_phone_index d);
        _url_index :=
          register_field (website_url p) (provider_key p) (_url_index d) |}).
Proof.
  unfold duplicate_key, add.
  destruct (dict_mem (provider_key p) (_index d)); [discriminate|].
  destruct (index_hit (phone p) (_phone_index d)); [discriminate|].
  destruct (index_hit (website_url p) (_url_index d)); [discriminate|].
  auto.
Qed.

Lemma duplicate_key_indexed d p k :
  index_consistent d -> duplicate_key d p = Some k ->
  dict_mem k (_index d) = true.
Proof.
  intros [Hph Hu]. unfold duplicate_key.
  destruct (dict_mem (provider_key p) (_index d)) eqn:Hk.
  - intros [= <-]. exact Hk.
  - destruct (index_hit (phone p) (_phone_index d)) as [k'|] eqn:H1.
    + intros [= <-]. apply index_hit_lookup in H1 as (v & _ & Hv). eauto.
    + intros H2. apply index_hit_lookup in H2 as (v & _ & Hv). eauto.
Qed.

Lemma register_field_lookup field key ix v k :
  register_field field key ix !! v = Some k -> k = key \/ ix !! v = Some k.
Proof.
  unfold register_field. destruct field as [f|]; [|auto].
  destruct (truthy f); [|auto].
  destruct (decide (f = v)) as [->|Hne].
  - rewrite lookup_insert_eq. intros [= <-]. auto.
  - rewrite lookup_insert_ne by assumption. auto.
Qed.

Lemma index_consistent_merged d k m :
  index_consistent d ->
  index_consistent {| _index := dict_set k m (_index d);
                      _phone_index := _phone_index d;
                      _url_index := _url_index d |}.
Proof.
  intros [Hph Hu]. split; simpl; intros v k' Hv;
    apply dict_mem_set; eauto.
Qed.

Lemma index_consistent_new d p key :
  index_consistent d ->
  index_consistent
    {| _index := dict_set key p (_index d);
       _phone_index := register_field (phone p) key (_phone_index d);
       _url_index := register_field (website_url p) key (_url_index d) |}.
Proof.
  intros [Hph Hu]. split; simpl; intros v k' Hv;
    apply register_field_lookup in Hv as [-> | Hv];
    try apply dict_mem_set_eq; apply dict_mem_set; eauto.
Qed.

Lemma add_preserves_consistency d p :
  index_consistent d -> index_consistent (snd (add d p)).
Proof.
  intros Hd. destruct (duplicate_key d p) as [k|] eqn:Hk.
  - rewrite (add_duplicate _ _ _ Hk).
    destruct (merge_at_cases d k p) as [(e & m & _ & _ & ->) | (x & -> & _)];
      simpl; auto using index_consistent_merged.
  - destruct (add_new _ _ Hk) as [_ ->]. simpl.
    now apply index_consistent_new.
Qed.

Lemma add_no_key_error d p k :
  index_consistent d -> fst (add d p) <> Raise (KeyError k).
Proof.
  intros Hd. destruct (duplicate_key d p) as [k'|] eqn:Hk.
  - rewrite (add_duplicate _ _ _ Hk).
    pose proof (duplicate_key_indexed _ _ _ Hd Hk) as Hin.
    destruct (merge_at_cases d k' p)
      as [(e & m & _ & _ & ->) | (x & -> & [-> | [_ Hout]])];
      simpl; congruence.
  - destruct (add_new _ _ Hk) as [_ ->]. simpl. congruence.
Qed.

Lemma find_duplicates_state d p : snd (find_duplicates d p) = d.
Proof.
  unfold find_duplicates.
  destruct (dict_get (provider_key p) (_index d)); [reflexivity|].
  destruct (index_hit (phone p) (_phone_index d)) as [k1|];
    [destruct (dict_get k1 (_index d)); [|reflexivity]|];
    (destruct (index_hit (website_url p) (_url_index d)) as [k2|];
     [destruct (dict_get k2 (_index d)); [|reflexivity]|]);
    try reflexivity;
    match goal with
    | |- context [if ?b then _ else _] => destruct b; reflexivity
    end.
Qed.

Lemma find_duplicates_returns d p :
  index_consistent d -> is_ok (fst (find_duplicates d p)) = true.
Proof.
  intros [Hph Hu]. unfold find_duplicates.
  destruct (dict_get (provider_key p) (_index d)); [reflexivity|].
  destruct (index_hit (phone p) (_phone_index d)) as [k1|] eqn:H1.
  - apply index_hit_lookup in H1 as (v1 & _ & Hv1).
    apply Hph, dict_mem_get in Hv1 as [e1 ->].
    destruct (index_hit (website_url p) (_url_index d)) as [k2|] eqn:H2.
    + apply index_hit_lookup in H2 as (v2 & _ & Hv2).
      apply Hu, dict_mem_get in Hv2 as [e2 ->].
      match goal with
      | |- context [if ?b then _ else _] => destruct b; reflexivity
      end.
    + reflexivity.
  - destruct (index_hit (website_url p) (_url_index d)) as [k2|] eqn:H2.
    + apply index_hit_lookup in H2 as (v2 & _ & Hv2).
      apply Hu, dict_mem_get in Hv2 as [e2 ->]. reflexivity.
    + reflexivity.
Qed.

Lemma index_consistent_init : index_consistent Dedup.init.
Proof. split; simpl; intros v k H; rewrite lookup_empty in H; discriminate. Qed.

End DedupFacts.

Section DedupClaims.
Import Schemas Dedup.


Lemma add_count_duplicate d k p :
  match merge_at d k p with
  | (Ok (is_new, _), d') =>
      is_new = false /\ count d' = count d /\
      forall k', dict_mem k' (_index d) = true -> dict_mem k' (_index d') = true
  | (Raise _, d') => d' = d
  end.
Proof.
  destruct (merge_at_cases d k p) as [(e & m & Hg & _ & ->) | (x & -> & _)];
    [|reflexivity].
  repeat split.
  - unfold count. simpl. rewrite dict_set_length_present; [reflexivity|].
    unfold dict_mem. now rewrite Hg.
  - simpl. intros k'. apply dict_mem_set.
Qed.

(** When every merge [add] could attempt is defined and the indexes are
    consistent, [add] returns. *)
Lemma add_returns d p :
  index_consistent d ->
  (forall k e, dict_get k (_index d) = Some e ->
               is_ok (Provider.merge e p) = true) ->
  is_ok (fst (add d p)) = true.
Proof.
  intros Hd Hm. destruct (duplicate_key d p) as [k|] eqn:Hk.
  - rewrite (add_duplicate _ _ _ Hk).
    pose proof (duplicate_key_indexed _ _ _ Hd Hk) as Hin.
    unfold merge_at. apply dict_mem_get in Hin as [e He]. rewrite He.
    specialize (Hm _ _ He). destruct (Provider.merge e p); [reflexivity|discriminate].
  - destruct (add_new _ _ Hk) as [_ ->]. reflexivity.
Qed.

(** C9. Index consistency: every value of the phone index and of the URL
    index is a key of the main index. From any consistent state, [add]
    leaves a consistent state and never raises a missing-key error (its
    only exception is the [TypeError] of [merge]); [find_duplicates]
    returns its matches, leaves the state as it was, and so keeps it
    consistent; [clear] leaves a consistent state. *)
Theorem C9_index_consistency_preserved (d : Deduplicator) (p : ScrapedProvider) :
  index_consistent d ->
  (index_consistent (snd (add d p))
   /\ forall k, fst (add d p) <> Raise (KeyError k))
  /\ (index_consistent (snd (find_duplicates d p))
      /\ snd (find_duplicates d p) = d
      /\ is_ok (fst (find_duplicates d p)) = true)
  /\ index_consistent (clear d).
Proof.
  intros Hd. split; [split|split; [repeat split|]].
  - now apply add_preserves_consistency.
  - intros k. now apply add_no_key_error.
  - rewrite find_duplicates_state. apply Hd.
  - rewrite find_duplicates_state. apply Hd.
  - apply find_duplicates_state.
  - now apply find_duplicates_returns.
  - apply index_consistent_init.
Qed.

(** C10. [add] returns [is_new = True] exactly when [count()] grew by
    one during the call; on [is_new = False] the count is unchanged and
    every identity key registered before is still registered. A call
    that raises leaves the deduplicator untouched. *)
Theorem C10_is_new_iff_count_grows (d : Deduplicator) (p : ScrapedProvider) :
  match add d p with
  | (Ok (is_new, _), d') =>
      (is_new = true <-> count d' = count d + 1)
      /\ (is_new = false ->
          count d' = count d
          /\ forall k, dict_mem k (_index d) = true ->
                       dict_mem k (_index d') = true)
  | (Raise _, d') => d' = d
  end.
Proof.
  destruct (duplicate_key d p) as [k|] eqn:Hk.
  - rewrite (add_duplicate _ _ _ Hk).
    pose proof (add_count_duplicate d k p) as H.
    destruct (merge_at d k p) as [[[is_new r]|x] d']; [|exact H].
    destruct H as (-> & Hc & Hkeys). split.
    + split; [discriminate | lia].
    + auto.
  - destruct (add_new _ _ Hk) as [Hout ->]. split.
    + split; [intros _|reflexivity]. unfold count. simpl.
      rewrite dict_set_length_absent by exact Hout. lia.
    + discriminate.
Qed.

(** C1 (as the code has it). When the incoming record's identity key is
    not indexed but its phone, or failing that its website URL, hits an
    index entry [k], [add] merges into the record stored under [k],
    stores the merged record under [k] only (the incoming record's own
    identity key is not inserted, so that the count stays the same), and
    returns [(False, merged)]. *)
Theorem C1_secondary_match_merges_in_place
        (d : Deduplicator) (p : ScrapedProvider) (k : string)
        (e m : ScrapedProvider) :
  dict_mem (provider_key p) (_index d) = false ->
  (index_hit (phone p) (_phone_index d) = Some k
   \/ (index_hit (phone p) (_phone_index d) = None
       /\ index_hit (website_url p) (_url_index d) = Some k)) ->
  dict_get k (_index d) = Some e ->
  Provider.merge e p = Ok m ->
  fst (add d p) = Ok (false, m)
  /\ dict_get k (_index (snd (add d p))) = Some m
  /\ dict_mem (provider_key p) (_index (snd (add d p))) = false
  /\ count (snd (add d p)) = count d.
Proof.
  intros Hout Hhit Hg Hm.
  assert (Hk : duplicate_key d p = Some k).
  { unfold duplicate_key. rewrite Hout.
    destruct Hhit as [-> | [-> ->]]; reflexivity. }
  rewrite (add_duplicate _ _ _ Hk). unfold merge_at. rewrite Hg, Hm. simpl.
  assert (Hne : k <> provider_key p).
  { intros ->. unfold dict_mem in Hout. rewrite Hg in Hout. discriminate. }
  repeat split.
  - apply dict_get_set_eq.
  - unfold dict_mem in *. rewrite dict_get_set_ne by exact Hne. exact Hout.
  - unfold count. simpl. rewrite dict_set_length_present; [reflexivity|].
    unfold dict_mem. now rewrite Hg.
Qed.

End DedupClaims.

(** ** Rationals: Python's [max]/[min] against [Qmax]/[Qmin] *)

Section RationalFacts.
Local Open Scope Q_scope.

Lemma Qltb_lt a b : Qltb a b = true <-> a < b.
Proof.
  unfold Qltb. rewrite negb_true_iff. split.
  - intros H. apply Qnot_le_lt. intros Hle.
    apply Qle_bool_iff in Hle. congruence.
  - intros H. destruct (Qle_bool b a) eqn:E; [|reflexivity].
    apply Qle_bool_iff in E. exfalso. eapply Qlt_not_le; eauto.
Qed.

Lemma Qltb_ge a b : Qltb a b = false <-> b <= a.
Proof.
  unfold Qltb. rewrite negb_false_iff. apply Qle_bool_iff.
Qed.

Lemma py_max_spec a b :
  (a < b /\ py_max a b = b) \/ (b <= a /\ py_max a b = a).
Proof.
  unfold py_max. destruct (Qltb a b) eqn:E.
  - left. split; [now apply Qltb_lt | reflexivity].
  - right. split; [now apply Qltb_ge | reflexivity].
Qed.

Lemma py_min_spec a b :
  (b < a /\ py_min a b = b) \/ (a <= b /\ py_min a b = a).
Proof.
  unfold py_min. destruct (Qltb b a) eqn:E.
  - left. split; [now apply Qltb_lt | reflexivity].
  - right. split; [now apply Qltb_ge | reflexivity].
Qed.

Lemma py_max_Qmax a b : py_max a b == Qmax a b.
Proof.
  destruct (py_max_spec a b) as [[H ->] | [H ->]].
  - symmetry. apply Q.max_r. now apply Qlt_le_weak.
  - symmetry. now apply Q.max_l.
Qed.

Lemma py_min_Qmin a b : py_min a b == Qmin a b.
Proof.
  destruct (py_min_spec a b) as [[H ->] | [H ->]].
  - symmetry. apply Q.min_r. now apply Qlt_le_weak.
  - symmetry. now apply Q.min_l.
Qed.

Lemma py_max_le a b a' b' : a <= a' -> b <= b' -> py_max a b <= py_max a' b'.
Proof.
  intros Ha Hb.
  destruct (py_max_spec a b) as [[H ->] | [H ->]],
           (py_max_spec a' b') as [[H' ->] | [H' ->]]; lra.
Qed.

Lemma py_min_le a b a' b' : a <= a' -> b <= b' -> py_min a b <= py_min a' b'.
Proof.
  intros Ha Hb.
  destruct (py_min_spec a b) as [[H ->] | [H ->]],
           (py_min_spec a' b') as [[H' ->] | [H' ->]]; lra.
Qed.

Lemma inject_Z_pos z : (0 < z)%Z -> 0 < inject_Z z.
Proof. intros H. unfold Qlt. simpl. lia. Qed.

Lemma per_minute_pos z : (0 < z)%Z -> 0 < 60 / inject_Z z.
Proof.
  intros H. apply Qlt_shift_div_l; [now apply inject_Z_pos|].
  rewrite Qmult_0_l. reflexivity.
Qed.

End RationalFacts.

(** ** [RateLimiter.acquire] *)

Section RateLimiterFacts.
Import RateLimits.

Lemma dd_read_fst {V} (dflt : V) (m : gmap string V) k :
  fst (dd_read dflt m k) = default dflt (m !! k).
Proof. unfold dd_read. destruct (m !! k); reflexivity. Qed.

Lemma dd_read_snd_default {V} (dflt : V) (m : gmap string V) k k' :
  default dflt (snd (dd_read dflt m k) !! k') = default dflt (m !! k').
Proof.
  unfold dd_read. destruct (m !! k) eqn:E; simpl; [reflexivity|].
  destruct (decide (k = k')) as [<-|Hne].
  - now rewrite lookup_insert_eq, E.
  - now rewrite lookup_insert_ne.
Qed.

Lemma dd_read_snd_present {V} (dflt : V) (m : gmap string V) k :
  is_Some (m !! k) -> snd (dd_read dflt m k) = m.
Proof. intros [v Hv]. unfold dd_read. now rewrite Hv. Qed.

Lemma limiter_eta (st : RateLimiter) :
  {| _last_request := _last_request st;
     _request_counts := _request_counts st;
     _daily_counts := _daily_counts st;
     _failure_counts := _failure_counts st |} = st.
Proof. now destruct st. Qed.

(** The three entries of [RATE_LIMITS], and the fallback. *)
Lemma rate_limits_get_cases source_type :
  rate_limits_get source_type
  = {| requests_per_minute := 50; daily_limit := Some 5000;
       delay_between_requests := 12 # 10 |}
  \/ rate_limits_get source_type = website_config
  \/ rate_limits_get source_type
     = {| requests_per_minute := 20; daily_limit := None;
          delay_between_requests := 1 |}.
Proof.
  unfold rate_limits_get, RATE_LIMITS, Dedup.dict_get.
  destruct (String.eqb source_type "google_places"); [auto|].
  destruct (String.eqb source_type "website"); [auto|].
  destruct (String.eqb source_type "directory"); auto.
Qed.

(** The check, as a boolean on the stored count. *)
Lemma daily_check_fst config st source_type :
  fst (daily_check config st source_type)
  = quota_exceeded config st source_type.
Proof.
  unfold daily_check, quota_exceeded, daily_count.
  destruct (daily_limit config) as [lim|]; [|reflexivity].
  destruct (truthy lim); simpl; [|reflexivity]. now rewrite dd_read_fst.
Qed.

Lemma daily_check_snd config st source_type :
  default 0 (snd (daily_check config st source_type) !! source_type)
  = daily_count st source_type.
Proof.
  unfold daily_check, daily_count.
  destruct (daily_limit config) as [lim|]; [|reflexivity].
  destruct (truthy lim); simpl; [|reflexivity]. apply dd_read_snd_default.
Qed.

Lemma acquire_with_exceeded config st source_type domain now after :
  quota_exceeded config st source_type = true ->
  outcome (acquire_with config st source_type domain now after)
  = Raise RateLimitExceeded
  /\ slept (acquire_with config st source_type domain now after) = [].
Proof.
  intros H. unfold acquire_with. cbv zeta.
  rewrite daily_check_fst, H. split; reflexivity.
Qed.

(** With a positive limit, an exhausted quota means the counter exists,
    so the read does not touch the limiter. *)
Lemma acquire_with_exceeded_state config st source_type domain now after lim :
  daily_limit config = Some lim -> 0 < lim ->
  quota_exceeded config st source_type = true ->
  limiter (acquire_with config st source_type domain now after) = st.
Proof.
  intros Hl Hpos H. unfold acquire_with. cbv zeta.
  rewrite daily_check_fst, H. cbn [limiter].
  unfold quota_exceeded in H. unfold daily_check. rewrite Hl in *.
  apply andb_true_iff in H as [Ht Hc]. rewrite Ht. cbn [snd].
  rewrite dd_read_snd_present; [apply limiter_eta|].
  unfold daily_count in Hc.
  destruct (_daily_counts st !! source_type) as [c|]; [eauto|].
  simpl in Hc. apply Z.leb_le in Hc. lia.
Qed.

Lemma backoff_overflows_below n : n < 1024 -> backoff_overflows n = false.
Proof.
  intros Hn. unfold backoff_overflows. apply andb_false_iff. right.
  now apply Z.leb_gt.
Qed.

Lemma backoff_overflows_from n : 1024 <= n -> backoff_overflows n = true.
Proof.
  intros Hn. unfold backoff_overflows. apply andb_true_iff. split.
  - apply Z.ltb_lt. lia.
  - now apply Z.leb_le.
Qed.

(** How [acquire] ends, by the three tests it makes in order. *)
Lemma acquire_with_outcome config st source_type domain now after :
  outcome (acquire_with config st source_type domain now after)
  = if quota_exceeded config st source_type then Raise RateLimitExceeded
    else if requests_per_minute config =? 0 then Raise ZeroDivisionError
    else if backoff_overflows (failure_count st domain)
         then Raise OverflowError
    else Ok tt.
Proof.
  unfold acquire_with. cbv zeta. rewrite daily_check_fst, dd_read_fst.
  fold (failure_count st domain).
  destruct (quota_exceeded config st source_type); [reflexivity|].
  destruct (requests_per_minute config =? 0); [reflexivity|].
  destruct (backoff_overflows (failure_count st domain)); reflexivity.
Qed.

(** From 1024 recorded failures on, a call that passes the quota test
    ends in the [OverflowError] of the backoff power: nothing is slept
    and nothing is counted. *)
Lemma acquire_with_overflow config st source_type domain now after :
  quota_exceeded config st source_type = false ->
  requests_per_minute config <> 0 ->
  1024 <= failure_count st domain ->
  let a := acquire_with config st source_type domain now after in
  outcome a = Raise OverflowError
  /\ slept a = []
  /\ last_request (limiter a) domain = last_request st domain
  /\ request_count (limiter a) domain = request_count st domain
  /\ daily_count (limiter a) source_type = daily_count st source_type
  /\ failure_count (limiter a) domain = failure_count st domain.
Proof.
  intros Hq Hr Hfc. cbv zeta. unfold acquire_with. cbv zeta.
  rewrite daily_check_fst, Hq.
  apply Z.eqb_neq in Hr. rewrite Hr.
  assert (Hov : backoff_overflows (fst (dd_read 0 (_failure_counts st) domain))
                = true).
  { rewrite dd_read_fst. now apply backoff_overflows_from. }
  rewrite Hov. cbn [outcome slept limiter].
  unfold last_request, request_count, daily_count, failure_count.
  cbn [_last_request _request_counts _daily_counts _failure_counts].
  rewrite !dd_read_snd_default, daily_check_snd. unfold daily_count.
  repeat split; reflexivity.
Qed.

(** What a granted [acquire] does. *)
Lemma acquire_with_granted config st source_type domain now after :
  quota_exceeded config st source_type = false ->
  requests_per_minute config <> 0 ->
  failure_count st domain < 1024 ->
  let a := acquire_with config st source_type domain now after in
  let min_interval := min_interval_of config (failure_count st domain) in
  let elapsed := (now - last_request st domain)%Q in
  outcome a = Ok tt
  /\ slept a = (if Qltb elapsed min_interval
                then [(min_interval - elapsed)%Q] else [])
  /\ _last_request (limiter a) !! domain = Some after
  /\ request_count (limiter a) domain = request_count st domain + 1
  /\ daily_count (limiter a) source_type = daily_count st source_type + 1
  /\ failure_count (limiter a) domain = failure_count st domain.
Proof.
  intros Hq Hr Hfc. cbv zeta. unfold acquire_with. cbv zeta.
  rewrite daily_check_fst, Hq.
  apply Z.eqb_neq in Hr. rewrite Hr.
  assert (Hov : backoff_overflows (fst (dd_read 0 (_failure_counts st) domain))
                = false).
  { rewrite dd_read_fst. now apply backoff_overflows_below. }
  rewrite Hov.
  cbn [outcome slept limiter].
  unfold last_request, request_count, daily_count, failure_count.
  cbn [_last_request _request_counts _daily_counts _failure_counts].
  rewrite !dd_read_fst, !lookup_insert_eq, dd_read_snd_default.
  rewrite daily_check_snd. unfold daily_count.
  repeat split; reflexivity.
Qed.

End RateLimiterFacts.

Section RateLimiterClaims.
Import RateLimits.

Lemma total_slept_cases (a : acquired) (w : Q) :
  (slept a = [w] -> (total_slept a == w)%Q)
  /\ (slept a = [] -> (total_slept a == 0)%Q).
Proof.
  unfold total_slept. split; intros ->; simpl; lra.
Qed.

Lemma backoff_delay_bounds n :
  (backoff_delay n <= max_delay)%Q
  /\ (0 < n -> (2 <= backoff_delay n)%Q).
Proof.
  unfold backoff_delay, max_delay, initial_delay, multiplier.
  destruct (py_min_spec (1 * 2 ^ n) 60) as [[H ->] | [H ->]].
  - split; [lra | intros _; lra].
  - split; [lra|]. intros Hn.
    assert (2 ^ 1 <= 2 ^ n)%Q as Hp
        by (apply Qpower_le_compat_l; [lia | lra]).
    change (2 ^ 1)%Q with 2%Q in Hp. lra.
Qed.

Lemma backoff_delay_monotone n1 n2 :
  0 < n1 -> n1 <= n2 -> (backoff_delay n1 <= backoff_delay n2)%Q.
Proof.
  intros Hpos Hle. unfold backoff_delay, initial_delay, multiplier.
  apply py_min_le; [|lra].
  assert (2 ^ n1 <= 2 ^ n2)%Q
    by (apply Qpower_le_compat_l; [lia | lra]).
  lra.
Qed.

Lemma min_interval_monotone config n1 n2 :
  n1 <= n2 -> (min_interval_of config n1 <= min_interval_of config n2)%Q.
Proof.
  intros Hle. unfold min_interval_of.
  set (base := (60 / inject_Z (requests_per_minute config))%Q).
  apply py_max_le; [|lra].
  destruct (Z.ltb_spec 0 n1), (Z.ltb_spec 0 n2); try lia.
  - apply py_max_le; [lra|]. now apply backoff_delay_monotone.
  - destruct (py_max_spec base (backoff_delay n2)) as [[? ->] | [? ->]]; lra.
  - lra.
Qed.

(** The code's interval is the specification's
    [max(60/rpm, delay, backoff(n))]. *)
Lemma min_interval_refines_spec config n :
  0 < requests_per_minute config ->
  (min_interval_of config n == spec_min_interval config n)%Q.
Proof.
  intros Hr. unfold min_interval_of, spec_min_interval, spec_backoff,
               backoff_delay.
  pose proof (per_minute_pos _ Hr) as Hbase.
  set (base := (60 / inject_Z (requests_per_minute config))%Q) in *.
  set (d := delay_between_requests config).
  set (x := (initial_delay * multiplier ^ n)%Q).
  destruct (0 <? n).
  - destruct (py_min_spec x max_delay) as [[? ->] | [? ->]],
             (Q.min_spec max_delay x) as [[? Hm] | [? Hm]];
      destruct (Q.max_spec base d) as [[? Hbd] | [? Hbd]];
      match goal with
      | |- (py_max (py_max ?a ?b) ?c == Qmax ?u ?v)%Q =>
          destruct (py_max_spec a b) as [[? ->] | [? ->]];
          match goal with
          | |- (py_max ?a' ?c' == _)%Q =>
              destruct (py_max_spec a' c') as [[? ->] | [? ->]]
          end;
          destruct (Q.max_spec u v) as [[? Hu] | [? Hu]]
      end; lra.
  - destruct (Q.max_spec base d) as [[? Hbd] | [? Hbd]];
      destruct (py_max_spec base d) as [[? ->] | [? ->]];
      match goal with
      | |- (_ == Qmax ?u ?v)%Q =>
          destruct (Q.max_spec u v) as [[? Hu] | [? Hu]]
      end; lra.
Qed.

Lemma table_interval_capped source_type n :
  (min_interval_of (rate_limits_get source_type) n <= max_delay)%Q
  /\ requests_per_minute (rate_limits_get source_type) <> 0.
Proof.
  pose proof (proj1 (backoff_delay_bounds n)) as Hb.
  unfold min_interval_of, max_delay in *.
  destruct (rate_limits_get_cases source_type) as [-> | [-> | ->]];
    (split; [|simpl; lia]); simpl requests_per_minute;
    simpl delay_between_requests;
    match goal with
    | |- (py_max ?m ?d <= _)%Q =>
        assert (m <= 60)%Q;
        [ destruct (0 <? n);
          [ match goal with
            | |- (py_max ?a ?b <= _)%Q =>
                destruct (py_max_spec a b) as [[? ->] | [? ->]]
            end; [lra | unfold Qle; simpl; lia]
          | unfold Qle; simpl; lia ]
        | destruct (py_max_spec m d) as [[? ->] | [? ->]];
          [unfold Qle; simpl; lia | lra] ]
    end.
Qed.

Lemma record_failure_reads st domain :
  failure_count (record_failure st domain) domain = failure_count st domain + 1
  /\ last_request (record_failure st domain) domain = last_request st domain.
Proof.
  unfold record_failure, failure_count, last_request. simpl.
  now rewrite lookup_insert_eq, dd_read_fst.
Qed.

Lemma slept_granted config st source_type domain now after :
  quota_exceeded config st source_type = false ->
  requests_per_minute config <> 0 ->
  failure_count st domain < 1024 ->
  let mi := min_interval_of config (failure_count st domain) in
  let elapsed := (now - last_request st domain)%Q in
  ((elapsed < mi)%Q /\
   (total_slept (acquire_with config st source_type domain now after)
    == mi - elapsed)%Q)
  \/ ((mi <= elapsed)%Q /\
      (total_slept (acquire_with config st source_type domain now after)
       == 0)%Q).
Proof.
  intros Hq Hr Hfc. cbv zeta.
  destruct (acquire_with_granted config st source_type domain now after
              Hq Hr Hfc) as (_ & Hs & _).
  destruct (Qltb _ _) eqn:E in Hs.
  - left. split; [now apply Qltb_lt|].
    now apply (proj1 (total_slept_cases _ _)).
  - right. split; [now apply Qltb_ge|].
    now apply (proj2 (total_slept_cases _ 0%Q)).
Qed.

(** C5. [acquire] raises the quota error exactly when the source kind has
    a daily limit and the day's count has reached it; nothing has been
    slept at that point, and the limiter is left as it was. *)
Theorem C5_quota_checked_before_waiting
        (st : RateLimiter) (source_type domain : string) (now after : Q) :
  let a := acquire st source_type domain now after in
  (outcome a = Raise RateLimitExceeded <->
   exists lim, daily_limit (rate_limits_get source_type) = Some lim
               /\ lim <= daily_count st source_type)
  /\ (outcome a = Raise RateLimitExceeded -> slept a = [] /\ limiter a = st).
Proof.
  cbv zeta. unfold acquire.
  destruct (quota_exceeded (rate_limits_get source_type) st source_type) eqn:Hq.
  - destruct (acquire_with_exceeded _ _ _ domain now after Hq) as [Ho Hs].
    assert (Hlim : daily_limit (rate_limits_get source_type) = Some 5000
                   /\ 5000 <= daily_count st source_type).
    { unfold quota_exceeded in Hq.
      destruct (rate_limits_get_cases source_type) as [E | [E | E]];
        rewrite E in *; simpl in *; try discriminate.
      split; [reflexivity | now apply Z.leb_le]. }
    destruct Hlim as [Hl Hc]. repeat split; auto.
    + intros _. eauto.
    + eapply acquire_with_exceeded_state; eauto. lia.
  - pose proof (acquire_with_outcome (rate_limits_get source_type) st
                  source_type domain now after) as Ho.
    rewrite Hq in Ho.
    assert (Hne : outcome (acquire_with (rate_limits_get source_type) st
                             source_type domain now after)
                  <> Raise RateLimitExceeded).
    { rewrite Ho. destruct (_ =? 0); [discriminate|].
      destruct (backoff_overflows _); discriminate. }
    split; [split|]; [intros H; contradiction | | intros H; contradiction].
    intros (lim & Hl & Hc). unfold quota_exceeded in Hq. rewrite Hl in Hq.
    destruct (rate_limits_get_cases source_type) as [E | [E | E]];
      rewrite E in *; simpl in *; try discriminate.
    injection Hl as <-. apply andb_false_iff in Hq as [Hq | Hq];
      [discriminate | apply Z.leb_gt in Hq; lia].
Qed.

(** C6. When the quota is not exhausted and the domain has fewer than
    1024 recorded failures, [acquire] sleeps
    [max(0, minInterval - (now - lastRequest[domain]))] with
    [minInterval = max(60/requestsPerMinute, configuredDelay, backoff(n))],
    then stamps [lastRequest[domain]] and increments
    [requestCount[domain]] and [dailyCount[sourceKind]]; an [acquire]
    issued right after one [record_failure] on the same domain sleeps at
    least 2 seconds. From 1024 recorded failures on, the power
    [multiplier ** failure_count] overflows before [min] caps it:
    [acquire] raises [OverflowError], sleeps nothing and updates no
    counter. *)
Theorem C6_interval_sleep_and_bookkeeping
        (config : RateLimitConfig) (st : RateLimiter)
        (source_type domain : string) (now after : Q) :
  0 < requests_per_minute config ->
  quota_exceeded config st source_type = false ->
  let a := acquire_with config st source_type domain now after in
  let min_interval := spec_min_interval config (failure_count st domain) in
  (failure_count st domain < 1024 ->
   (outcome a = Ok tt
    /\ (total_slept a
        == Qmax 0 (min_interval - (now - last_request st domain)))%Q
    /\ last_request (limiter a) domain = after
    /\ request_count (limiter a) domain = request_count st domain + 1
    /\ daily_count (limiter a) source_type = daily_count st source_type + 1)
   /\ (forall after2 : Q,
          0 <= failure_count st domain ->
          let st2 := record_failure (limiter a) domain in
          let a2 := acquire_with config st2 source_type domain after after2 in
          outcome a2 = Ok tt -> (2 <= total_slept a2)%Q))
  /\ (1024 <= failure_count st domain ->
      outcome a = Raise OverflowError
      /\ slept a = []
      /\ last_request (limiter a) domain = last_request st domain
      /\ request_count (limiter a) domain = request_count st domain
      /\ daily_count (limiter a) source_type = daily_count st source_type).
Proof.
  intros Hr Hq. cbv zeta.
  assert (Hr0 : requests_per_minute config <> 0) by lia.
  split.
  2:{ intros Hover.
      destruct (acquire_with_overflow config st source_type domain now after
                  Hq Hr0 Hover) as (H1 & H2 & H3 & H4 & H5 & _).
      auto. }
  intros Hbound.
  destruct (acquire_with_granted config st source_type domain now after
              Hq Hr0 Hbound) as (Ho & _ & Hl & Hrc & Hdc & Hfc).
  split.
  - repeat split; auto.
    + pose proof (min_interval_refines_spec config
                    (failure_count st domain) Hr) as Hmi.
      destruct (slept_granted config st source_type domain now after
                  Hq Hr0 Hbound) as [[Hlt ->] | [Hge ->]];
        match goal with
        | |- (_ == Qmax ?u ?v)%Q =>
            destruct (Q.max_spec u v) as [[? Hu] | [? Hu]]
        end; lra.
    + unfold last_request. now rewrite Hl.
  - intros after2 Hf.
    set (st2 := record_failure _ domain).
    intros Ho2.
    assert (Hq2 : quota_exceeded config st2 source_type = false).
    { destruct (quota_exceeded config st2 source_type) eqn:E; [|reflexivity].
      destruct (acquire_with_exceeded config st2 source_type domain
                                      after after2 E) as [Hx _].
      congruence. }
    destruct (record_failure_reads
                (limiter (acquire_with config st source_type domain now after))
                domain) as [Hf2 Hl2].
    fold st2 in Hf2, Hl2.
    assert (Hbound2 : failure_count st2 domain < 1024).
    { pose proof (acquire_with_outcome config st2 source_type domain
                    after after2) as Hout.
      rewrite Hq2, Ho2 in Hout.
      destruct (requests_per_minute config =? 0); [discriminate|].
      destruct (backoff_overflows (failure_count st2 domain)) eqn:E;
        [discriminate|].
      unfold backoff_overflows in E. apply andb_false_iff in E as [E | E].
      - apply Z.ltb_ge in E. lia.
      - now apply Z.leb_gt in E. }
    assert (Hlast : last_request st2 domain = after).
    { rewrite Hl2. unfold last_request. now rewrite Hl. }
    assert (Hmi : (2 <= min_interval_of config (failure_count st2 domain))%Q).
    { rewrite Hf2, Hfc. unfold min_interval_of.
      destruct (Z.ltb_spec 0 (failure_count st domain + 1)); [|lia].
      pose proof (proj2 (backoff_delay_bounds (failure_count st domain + 1)))
        as Hb. specialize (Hb ltac:(lia)).
      set (base := (60 / inject_Z (requests_per_minute config))%Q).
      set (b := backoff_delay (failure_count st domain + 1)) in *.
      destruct (py_max_spec base b) as [[? ->] | [? ->]];
        match goal with
        | |- context [py_max ?u ?v] =>
            destruct (py_max_spec u v) as [[? ->] | [? ->]]
        end; lra. }
    destruct (slept_granted config st2 source_type domain after after2
                Hq2 Hr0 Hbound2) as [[Hlt ->] | [Hge _]];
      rewrite Hlast in *; lra.
Qed.

(** C7 (as the code has it). For a fixed source kind and domain, with
    everything else in the limiter held fixed and failure counts below
    1024, the time [acquire] sleeps does not decrease when
    [failureCount[domain]] grows; it is at most [max_delay] when the
    clock reading is not earlier than the domain's last request. *)
Theorem C7_wait_monotone_and_capped
        (st : RateLimiter) (source_type domain : string) (now after : Q)
        (n1 n2 : Z) :
  n1 <= n2 ->
  n2 < 1024 ->
  let a1 := acquire (with_failures st domain n1) source_type domain now after in
  let a2 := acquire (with_failures st domain n2) source_type domain now after in
  outcome a1 = outcome a2
  /\ (total_slept a1 <= total_slept a2)%Q
  /\ ((last_request st domain <= now)%Q -> (total_slept a2 <= max_delay)%Q).
Proof.
  intros Hle Hbound. cbv zeta. unfold acquire.
  set (config := rate_limits_get source_type).
  assert (Hsame : forall n,
             quota_exceeded config (with_failures st domain n) source_type
             = quota_exceeded config st source_type) by reflexivity.
  assert (Hf : forall n, failure_count (with_failures st domain n) domain = n).
  { intros n. unfold failure_count, with_failures. simpl.
    now rewrite lookup_insert_eq. }
  assert (Hl : forall n, last_request (with_failures st domain n) domain
                         = last_request st domain) by reflexivity.
  destruct (quota_exceeded config st source_type) eqn:Hq.
  - destruct (acquire_with_exceeded config (with_failures st domain n1)
                source_type domain now after) as [-> H1];
      [now rewrite Hsame|].
    destruct (acquire_with_exceeded config (with_failures st domain n2)
                source_type domain now after) as [-> H2];
      [now rewrite Hsame|].
    rewrite (proj2 (total_slept_cases _ 0%Q) H1),
            (proj2 (total_slept_cases _ 0%Q) H2).
    unfold max_delay. repeat split; lra.
  - destruct (table_interval_capped source_type n2) as [Hcap Hr].
    fold config in Hcap, Hr.
    pose proof (min_interval_monotone config n1 n2 Hle) as Hmono.
    assert (Hq1 : quota_exceeded config (with_failures st domain n1) source_type
                  = false) by now rewrite Hsame.
    assert (Hq2 : quota_exceeded config (with_failures st domain n2) source_type
                  = false) by now rewrite Hsame.
    assert (Hb1 : failure_count (with_failures st domain n1) domain < 1024)
      by (rewrite Hf; lia).
    assert (Hb2 : failure_count (with_failures st domain n2) domain < 1024)
      by (rewrite Hf; lia).
    destruct (acquire_with_granted config (with_failures st domain n1)
                source_type domain now after Hq1 Hr Hb1) as (-> & _).
    destruct (acquire_with_granted config (with_failures st domain n2)
                source_type domain now after Hq2 Hr Hb2) as (-> & _).
    pose proof (slept_granted config (with_failures st domain n1)
                  source_type domain now after Hq1 Hr Hb1) as S1.
    pose proof (slept_granted config (with_failures st domain n2)
                  source_type domain now after Hq2 Hr Hb2) as S2.
    cbv zeta in S1, S2.
    rewrite (Hf n1), (Hl n1) in S1. rewrite (Hf n2), (Hl n2) in S2.
    unfold max_delay in *.
    destruct S1 as [[? ->] | [? ->]];
      destruct S2 as [[? ->] | [? ->]];
      (split; [reflexivity | split; [lra | intros Hclock; lra]]).
Qed.

End RateLimiterClaims.

(** ** [HttpClient.get] *)

Section HttpFacts.
Import RateLimits Http.

Lemma count_events_app f w e c r :
  count_events f {| rate_limiter := r; clock := c; trace := (trace w ++ e)%list |}
  = (count_events f w + List.length (List.filter f e))%nat.
Proof.
  unfold count_events. simpl. now rewrite List.filter_app, List.length_app.
Qed.

Lemma filter_sleeps f l :
  ignores_waiting f -> List.filter f (List.map EvSleep l) = [].
Proof.
  intros [_ Hs]. induction l as [|q l IH]; simpl; [reflexivity|].
  now rewrite Hs.
Qed.

Lemma do_acquire_granted w source_type domain n :
  quota_left w source_type (S n) ->
  failure_count (rate_limiter w) domain < 1024 ->
  fst (do_acquire w source_type domain) = Ok tt
  /\ quota_left (snd (do_acquire w source_type domain)) source_type n
  /\ failure_count (rate_limiter (snd (do_acquire w source_type domain))) domain
     = failure_count (rate_limiter w) domain.
Proof.
  intros Hq Hfc. unfold do_acquire. cbn [fst snd]. unfold acquire.
  destruct (table_interval_capped source_type 0) as [_ Hr].
  assert (Hok : quota_exceeded (rate_limits_get source_type) (rate_limiter w)
                               source_type = false).
  { unfold quota_exceeded. unfold quota_left in Hq.
    destruct (daily_limit (rate_limits_get source_type)) as [lim|];
      [|reflexivity].
    apply andb_false_iff. right. apply Z.leb_gt. lia. }
  split; [|split].
  - now apply acquire_with_granted.
  - unfold quota_left in *. cbn [rate_limiter].
    destruct (daily_limit (rate_limits_get source_type)) as [lim|]; [|exact I].
    match goal with
    | |- daily_count (limiter (acquire_with ?cfg ?st ?s ?d ?t1 ?t2)) _ + _ <= _ =>
        destruct (acquire_with_granted cfg st s d t1 t2 Hok Hr Hfc)
          as (_ & _ & _ & _ & Hd & _)
    end.
    rewrite Hd. lia.
  - cbn [rate_limiter].
    match goal with
    | |- failure_count (limiter (acquire_with ?cfg ?st ?s ?d ?t1 ?t2)) _ = _ =>
        destruct (acquire_with_granted cfg st s d t1 t2 Hok Hr Hfc)
          as (_ & _ & _ & _ & _ & Hf)
    end.
    exact Hf.
Qed.

Lemma do_acquire_count f w source_type domain :
  ignores_waiting f ->
  count_events f (snd (do_acquire w source_type domain)) = count_events f w.
Proof.
  intros Hf. unfold do_acquire. cbn [snd]. rewrite count_events_app.
  simpl. rewrite (proj1 Hf), filter_sleeps by exact Hf. simpl. lia.
Qed.

Lemma sleep_count f w s :
  ignores_waiting f -> count_events f (sleep w s) = count_events f w.
Proof.
  intros Hf. unfold sleep. rewrite count_events_app. simpl.
  rewrite (proj2 Hf). simpl. lia.
Qed.

Lemma advance_count f w took target :
  count_events f (advance w took target)
  = (count_events f w + (if f (EvRequest target) then 1 else 0))%nat.
Proof.
  unfold advance. rewrite count_events_app. simpl.
  destruct (f (EvRequest target)); reflexivity.
Qed.

Lemma do_record_count f w success domain :
  count_events f (do_record w success domain)
  = (count_events f w
     + (if f (if success then EvRecordSuccess domain else EvRecordFailure domain)
        then 1 else 0))%nat.
Proof.
  unfold do_record. rewrite count_events_app. simpl.
  destruct (f _); reflexivity.
Qed.

Lemma ignores_waiting_request : ignores_waiting is_request.
Proof. split; reflexivity. Qed.
Lemma ignores_waiting_failure : ignores_waiting is_record_failure.
Proof. split; reflexivity. Qed.
Lemma ignores_waiting_success : ignores_waiting is_record_success.
Proof. split; reflexivity. Qed.

(** One failing iteration of the loop: one request, one [record_failure],
    then the rest of the loop. *)
Lemma attempts_step_exception c net target source_type domain remaining attempt w :
  quota_left w source_type (S remaining) ->
  failure_count (rate_limiter w) domain < 1024 ->
  is_exception (net attempt) = true ->
  exists w',
    attempts c net target source_type domain (S remaining) attempt w
    = attempts c net target source_type domain remaining (attempt + 1) w'
    /\ quota_left w' source_type remaining
    /\ count_events is_request w' = S (count_events is_request w)
    /\ count_events is_record_failure w' = S (count_events is_record_failure w)
    /\ count_events is_record_success w' = count_events is_record_success w
    /\ failure_count (rate_limiter w') domain
       = failure_count (rate_limiter w) domain + 1.
Proof.
  intros Hl Hfc Hx. cbn [attempts].
  destruct (do_acquire_granted w source_type domain remaining Hl Hfc)
    as (Hok & Hq & Hf).
  pose proof (fun f => do_acquire_count f w source_type domain) as Hc.
  destruct (do_acquire w source_type domain) as [o w1]. simpl in Hok. subst o.
  cbn [snd] in Hc, Hq, Hf.
  destruct (net attempt) as [? ? ? ? ?|took|took]; [discriminate| |];
    eexists; (split; [reflexivity|]);
    (split;
     [ destruct (attempt <? max_retries c - 1); exact Hq
     | destruct (attempt <? max_retries c - 1);
       rewrite ?sleep_count
         by auto using ignores_waiting_request, ignores_waiting_failure,
                       ignores_waiting_success;
       rewrite !do_record_count, !advance_count, !Hc
         by auto using ignores_waiting_request, ignores_waiting_failure,
                       ignores_waiting_success;
       (split; [simpl; lia | split; [simpl; lia | split; [simpl; lia|]]]);
       cbn [sleep do_record advance rate_limiter];
       destruct (record_failure_reads (rate_limiter w1) domain) as [-> _];
       now rewrite Hf ]).
Qed.

(** An iteration that gets a response returns it, whatever its status. *)
Lemma attempts_step_response c net target source_type domain remaining attempt w
      u s t h d :
  quota_left w source_type (S remaining) ->
  failure_count (rate_limiter w) domain < 1024 ->
  net attempt = NetResponse u s t h d ->
  let r := attempts c net target source_type domain (S remaining) attempt w in
  let good := (200 <=? s) && (s <? 300) in
  exists resp,
    fst r = Ok resp /\ status resp = s /\ content resp = t /\ ok resp = good
    /\ count_events is_request (snd r) = S (count_events is_request w)
    /\ count_events is_record_failure (snd r)
       = (count_events is_record_failure w + (if good then 0 else 1))%nat
    /\ count_events is_record_success (snd r)
       = (count_events is_record_success w + (if good then 1 else 0))%nat
    /\ failure_count (rate_limiter (snd r)) domain
       = if good then 0 else failure_count (rate_limiter w) domain + 1.
Proof.
  intros Hl Hfc Hn. cbv zeta. cbn [attempts].
  destruct (do_acquire_granted w source_type domain remaining Hl Hfc)
    as (Hok & _ & Hf).
  pose proof (fun f => do_acquire_count f w source_type domain) as Hc.
  destruct (do_acquire w source_type domain) as [o w1]. simpl in Hok. subst o.
  cbn [snd] in Hc, Hf. rewrite Hn. cbn [fst snd].
  eexists. split; [reflexivity|]. cbn [status content]. unfold ok at 1.
  cbn [status].
  split; [reflexivity|]. split; [reflexivity|]. split; [reflexivity|].
  split; [|split; [|split]].
  - rewrite do_record_count, advance_count, Hc
      by apply ignores_waiting_request.
    unfold ok; cbn [status]. destruct ((200 <=? s) && (s <? 300)); simpl; lia.
  - rewrite do_record_count, advance_count, Hc
      by apply ignores_waiting_failure.
    unfold ok; cbn [status]. destruct ((200 <=? s) && (s <? 300)); simpl; lia.
  - rewrite do_record_count, advance_count, Hc
      by apply ignores_waiting_success.
    unfold ok; cbn [status]. destruct ((200 <=? s) && (s <? 300)); simpl; lia.
  - unfold ok. cbn [status do_record advance rate_limiter].
    destruct ((200 <=? s) && (s <? 300)).
    + unfold record_success, failure_count. cbn [_failure_counts].
      now rewrite lookup_insert_eq.
    + destruct (record_failure_reads (rate_limiter w1) domain) as [-> _].
      now rewrite Hf.
Qed.

(** Every iteration raises: the loop runs out and [HttpError] is raised. *)
Lemma attempts_all_exceptions c net target source_type domain remaining :
  forall attempt w,
    quota_left w source_type remaining ->
    (remaining = 0%nat
     \/ failure_count (rate_limiter w) domain + Z.of_nat remaining <= 1024) ->
    (forall i, attempt <= i < attempt + Z.of_nat remaining ->
               is_exception (net i) = true) ->
    let r := attempts c net target source_type domain remaining attempt w in
    fst r = Raise HttpError
    /\ count_events is_request (snd r)
       = (count_events is_request w + remaining)%nat
    /\ count_events is_record_failure (snd r)
       = (count_events is_record_failure w + remaining)%nat
    /\ count_events is_record_success (snd r)
       = count_events is_record_success w
    /\ failure_count (rate_limiter (snd r)) domain
       = failure_count (rate_limiter w) domain + Z.of_nat remaining.
Proof.
  induction remaining as [|n IH]; intros attempt w Hl Hb Hall.
  - simpl. repeat split; lia.
  - destruct (attempts_step_exception c net target source_type domain n
                attempt w Hl) as (w' & -> & Hl' & Hq & Hf & Hs & Hfc).
    { lia. }
    { apply Hall. lia. }
    destruct (IH (attempt + 1) w' Hl') as (Hr & Hq' & Hf' & Hs' & Hfc').
    { right. lia. }
    { intros i Hi. apply Hall. lia. }
    cbv zeta. rewrite Hr, Hq', Hf', Hs', Hfc', Hq, Hf, Hs, Hfc.
    repeat split; lia.
Qed.

(** [k] raising iterations, then a response. *)
Lemma attempts_response_after c net target source_type domain u s t h d :
  forall (k remaining : nat) attempt w,
    (k < remaining)%nat ->
    quota_left w source_type remaining ->
    failure_count (rate_limiter w) domain + Z.of_nat k < 1024 ->
    (forall i, attempt <= i < attempt + Z.of_nat k ->
               is_exception (net i) = true) ->
    net (attempt + Z.of_nat k) = NetResponse u s t h d ->
    let r := attempts c net target source_type domain remaining attempt w in
    let good := (200 <=? s) && (s <? 300) in
    exists resp,
      fst r = Ok resp /\ status resp = s /\ content resp = t /\ ok resp = good
      /\ count_events is_request (snd r)
         = (count_events is_request w + k + 1)%nat
      /\ count_events is_record_failure (snd r)
         = (count_events is_record_failure w + k + (if good then 0 else 1))%nat
      /\ count_events is_record_success (snd r)
         = (count_events is_record_success w + (if good then 1 else 0))%nat
      /\ failure_count (rate_limiter (snd r)) domain
         = if good then 0
           else failure_count (rate_limiter w) domain + Z.of_nat k + 1.
Proof.
  induction k as [|k IH]; intros remaining attempt w Hk Hl Hb Hall Hn.
  - destruct remaining as [|n]; [lia|].
    rewrite Z.add_0_r in Hn.
    destruct (attempts_step_response c net target source_type domain n
                attempt w u s t h d Hl)
      as (resp & H1 & H2 & H3 & H4 & H5 & H6 & H7 & H8); [lia | exact Hn |].
    exists resp. cbv zeta. rewrite H8.
    repeat split; auto; try lia.
    destruct ((200 <=? s) && (s <? 300)); lia.
  - destruct remaining as [|n]; [lia|].
    destruct (attempts_step_exception c net target source_type domain n
                attempt w Hl) as (w' & -> & Hl' & Hq & Hf & Hs & Hfc).
    { lia. }
    { apply Hall. lia. }
    destruct (IH n (attempt + 1) w')
      as (resp & H1 & H2 & H3 & H4 & H5 & H6 & H7 & H8).
    { lia. }
    { exact Hl'. }
    { lia. }
    { intros i Hi. apply Hall. lia. }
    { rewrite <- Hn. f_equal. lia. }
    exists resp. cbv zeta. rewrite H5, H6, H7, H8, Hq, Hf, Hs, Hfc.
    repeat split; auto; try lia.
    destruct ((200 <=? s) && (s <? 300)); lia.
Qed.

(** C3 (as the code has it). In every attempt a 2xx response is a success:
    [record_success] is called and the response returned. A response with
    any other status is a failure ([record_failure] is called once) but is
    not retried: it is returned to the caller at once. Only a timeout or a
    client error is retried, [record_failure] being called at every such
    attempt, the last one included; when all [max_retries] attempts end
    that way, [get] raises [HttpError] after exactly [max_retries]
    requests and [max_retries] calls of [record_failure]. The day's quota
    is assumed to cover the attempts, and the domain's failure count to
    stay within 1024 during the call, so that [acquire] does not raise. *)
Theorem C3_only_exceptions_are_retried
        {U : UrlParse} (c : HttpClient) (net : Z -> net_outcome)
        (target source_type : string) (w : World) :
  session_open c = true ->
  quota_left w source_type (Z.to_nat (max_retries c)) ->
  failure_count (rate_limiter w) (urlparse_netloc target) + max_retries c
  <= 1024 ->
  let r := get c net target source_type w in
  (forall (k : nat) u s t h d,
      Z.of_nat k < max_retries c ->
      (forall i, 0 <= i < Z.of_nat k -> is_exception (net i) = true) ->
      net (Z.of_nat k) = NetResponse u s t h d ->
      let good := (200 <=? s) && (s <? 300) in
      exists resp,
        fst r = Ok resp /\ status resp = s /\ ok resp = good
        /\ count_events is_request (snd r)
           = (count_events is_request w + k + 1)%nat
        /\ count_events is_record_failure (snd r)
           = (count_events is_record_failure w + k
              + (if good then 0 else 1))%nat
        /\ count_events is_record_success (snd r)
           = (count_events is_record_success w + (if good then 1 else 0))%nat)
  /\ ((forall i, 0 <= i < max_retries c -> is_exception (net i) = true) ->
      fst r = Raise HttpError
      /\ count_events is_request (snd r)
         = (count_events is_request w + Z.to_nat (max_retries c))%nat
      /\ count_events is_record_failure (snd r)
         = (count_events is_record_failure w + Z.to_nat (max_retries c))%nat
      /\ count_events is_record_success (snd r)
         = count_events is_record_success w).
Proof.
  intros Hs Hl Hb. cbv zeta. unfold get. rewrite Hs. cbn [negb]. split.
  - intros k u s t h d Hk Hall Hn.
    destruct (attempts_response_after c net target source_type
                (urlparse_netloc target) u s t h d k
                (Z.to_nat (max_retries c)) 0 w)
      as (resp & H1 & H2 & _ & H4 & H5 & H6 & H7 & _); auto.
    + lia.
    + lia.
    + exists resp. auto 10.
  - intros Hall.
    destruct (attempts_all_exceptions c net target source_type
                (urlparse_netloc target) (Z.to_nat (max_retries c)) 0 w Hl)
      as (H1 & H2 & H3 & H4 & _).
    + destruct (Z.to_nat (max_retries c)) eqn:E; [now left | right; lia].
    + intros i Hi. apply Hall. lia.
    + auto.
Qed.

End HttpFacts.

(** ** [RobotsChecker] *)

Section RobotsFacts.
Import Robots.
Context {U : UrlParse} {R : RobotParser}.




End RobotsFacts.

(** ** Strings: trimming, punctuation and whitespace runs *)

Section StringFacts.
Import PyStr.

Lemma word_not_space c : is_word c = true -> is_space c = false.
Proof.
  destruct c as [[] [] [] [] [] [] [] []]; vm_compute; congruence.
Qed.

Lemma all_space_lstrip s : all_space s = true -> lstrip s = EmptyString.
Proof.
  induction s as [|c r IH]; simpl; [reflexivity|].
  intros Hs. apply andb_true_iff in Hs as [Hc Hr]. rewrite Hc. auto.
Qed.

Lemma all_space_rstrip s : all_space s = true -> rstrip s = EmptyString.
Proof.
  destruct s as [|c r]; [reflexivity|]. intros Hs.
  change (rstrip (String c r))
    with (if all_space (String c r) then EmptyString else String c (rstrip r)).
  now rewrite Hs.
Qed.

Lemma rstrip_cons c r :
  rstrip (String c r)
  = if all_space (String c r) then EmptyString else String c (rstrip r).
Proof. reflexivity. Qed.

Lemma lstrip_rstrip s : lstrip (rstrip s) = rstrip (lstrip s).
Proof.
  induction s as [|c r IH]; [reflexivity|].
  rewrite rstrip_cons.
  destruct (is_space c) eqn:Hc.
  - simpl lstrip at 2. rewrite Hc.
    destruct (all_space (String c r)) eqn:Ha.
    + simpl in Ha. rewrite Hc in Ha. simpl in Ha.
      now rewrite (all_space_lstrip _ Ha).
    + simpl. now rewrite Hc.
  - assert (Ha : all_space (String c r) = false) by (simpl; now rewrite Hc).
    rewrite Ha. simpl. rewrite Hc. rewrite rstrip_cons, Ha. reflexivity.
Qed.

Lemma remove_punct_all_space s :
  all_space s = true -> remove_punct s = s.
Proof.
  induction s as [|c r IH]; simpl; [reflexivity|].
  intros Hs. apply andb_true_iff in Hs as [Hc Hr].
  rewrite Hc, orb_true_r. now rewrite IH.
Qed.

Lemma all_space_remove_punct_cons c r :
  all_space (remove_punct (String c r))
  = if is_word c then false else all_space (remove_punct r).
Proof.
  simpl. destruct (is_word c) eqn:Hw; simpl.
  - now rewrite (word_not_space _ Hw).
  - destruct (is_space c) eqn:Hs; simpl; rewrite ?Hs; reflexivity.
Qed.

Lemma all_space_remove_punct_rstrip s :
  all_space (remove_punct (rstrip s)) = all_space (remove_punct s).
Proof.
  induction s as [|c r IH]; [reflexivity|].
  rewrite rstrip_cons. destruct (all_space (String c r)) eqn:Ha.
  - rewrite (remove_punct_all_space _ Ha), Ha. reflexivity.
  - rewrite !all_space_remove_punct_cons, IH. reflexivity.
Qed.

Lemma lstrip_remove_punct s :
  lstrip (remove_punct (lstrip s)) = lstrip (remove_punct s).
Proof.
  induction s as [|c r IH]; [reflexivity|].
  change (lstrip (String c r))
    with (if is_space c then lstrip r else String c r).
  destruct (is_space c) eqn:Hc; [|reflexivity].
  rewrite IH. simpl. rewrite Hc, orb_true_r. simpl. now rewrite Hc.
Qed.

Lemma rstrip_remove_punct s :
  rstrip (remove_punct (rstrip s)) = rstrip (remove_punct s).
Proof.
  induction s as [|c r IH]; [reflexivity|].
  rewrite rstrip_cons. destruct (all_space (String c r)) eqn:Ha.
  - rewrite (remove_punct_all_space _ Ha), (all_space_rstrip _ Ha).
    reflexivity.
  - simpl remove_punct. destruct (is_word c || is_space c) eqn:Hk.
    + rewrite !rstrip_cons.
      change (all_space (String c ?x)) with (is_space c && all_space x).
      now rewrite all_space_remove_punct_rstrip, IH.
    + exact IH.
Qed.

(** Trimming before or after the punctuation is removed makes no
    difference once the result is trimmed. *)
Lemma strip_remove_punct s :
  strip (remove_punct (strip s)) = strip (remove_punct s).
Proof.
  unfold strip.
  rewrite <- (lstrip_rstrip s), lstrip_remove_punct.
  rewrite <- !lstrip_rstrip, rstrip_remove_punct. reflexivity.
Qed.

Lemma collapse_cons_not_space b c r :
  is_space c = false ->
  collapse_ws_from b (String c r) = String c (collapse_ws_from false r).
Proof. intros Hc. simpl. now rewrite Hc. Qed.

Lemma not_space_neq_space a c :
  not_space a = true -> is_space c = true -> Ascii.eqb a c = false.
Proof.
  unfold not_space. intros Ha Hc. destruct (Ascii.eqb a c) eqn:E; [|reflexivity].
  apply Ascii.eqb_eq in E. subst. rewrite Hc in Ha. discriminate.
Qed.

(** Looking for a whitespace-free prefix before or after the runs are
    collapsed comes to the same. *)
Lemma strip_prefix_collapse w s :
  all_chars not_space w = true ->
  strip_prefix w (collapse_ws_from false s)
  = option_map (collapse_ws_from false) (strip_prefix w s).
Proof.
  revert s. induction w as [|a w IH]; intros s Hw; [reflexivity|].
  simpl in Hw. apply andb_true_iff in Hw as [Ha Hw].
  destruct s as [|c r]; [reflexivity|].
  destruct (is_space c) eqn:Hc.
  - simpl. rewrite Hc. simpl.
    rewrite (not_space_neq_space a " "%char Ha eq_refl).
    now rewrite (not_space_neq_space a c Ha Hc).
  - rewrite collapse_cons_not_space by exact Hc. simpl.
    destruct (Ascii.eqb a c); [now apply IH | reflexivity].
Qed.

Lemma starts_word_collapse s :
  starts_word (collapse_ws_from false s) = starts_word s.
Proof.
  destruct s as [|c r]; [reflexivity|]. simpl.
  destruct (is_space c) eqn:Hc; simpl; [|reflexivity].
  destruct (is_word c) eqn:Hw; [|reflexivity].
  apply word_not_space in Hw. congruence.
Qed.

Lemma collapse_app_not_space r x :
  all_chars not_space r = true ->
  collapse_ws_from false (r ++ x) = r ++ collapse_ws_from false x.
Proof.
  induction r as [|a r IH]; intros Hr; [reflexivity|].
  simpl in Hr. apply andb_true_iff in Hr as [Ha Hr].
  unfold not_space in Ha. apply negb_true_iff in Ha.
  simpl. rewrite Ha. now rewrite IH.
Qed.

Lemma collapse_app_replacement b a r x :
  all_chars not_space (String a r) = true ->
  collapse_ws_from b (String a r ++ x) = String a r ++ collapse_ws_from false x.
Proof.
  intros Hr. simpl in Hr. apply andb_true_iff in Hr as [Ha Hr].
  unfold not_space in Ha. apply negb_true_iff in Ha.
  simpl. rewrite Ha. now rewrite collapse_app_not_space.
Qed.

Lemma all_word_not_space w :
  all_chars is_word w = true -> all_chars not_space w = true.
Proof.
  induction w as [|a w IH]; simpl; [reflexivity|].
  intros H. apply andb_true_iff in H as [Ha Hw].
  rewrite IH by exact Hw. unfold not_space at 1.
  now rewrite (word_not_space _ Ha).
Qed.

Lemma strip_prefix_nospace w s rest :
  all_chars not_space w = true -> strip_prefix w s = Some rest ->
  nospace_prefix (String.length w) s = true.
Proof.
  revert s. induction w as [|a w IH]; intros s Hw Hp; [reflexivity|].
  simpl in Hw. apply andb_true_iff in Hw as [Ha Hw].
  destruct s as [|c r]; [discriminate|]. simpl in Hp.
  destruct (Ascii.eqb a c) eqn:E; [|discriminate].
  apply Ascii.eqb_eq in E. subst c. simpl. rewrite Ha. simpl. eauto.
Qed.

(** A word-bounded replacement commutes with collapsing whitespace runs.
    [b] is the state of the collapsing scan, [prev] and [skip] the state
    of the replacing scan. *)
Lemma sub_word_scan_collapse a w r0 r1 :
  all_chars is_word (String a w) = true ->
  all_chars not_space (String r0 r1) = true ->
  forall s b prev skip,
    (b = true -> prev = false /\ skip = 0%nat) ->
    nospace_prefix skip s = true ->
    collapse_ws_from b (sub_word_scan (String a w) (String r0 r1) prev skip s)
    = sub_word_scan (String a w) (String r0 r1) prev skip (collapse_ws_from b s).
Proof.
  intros Hword Hrepl.
  pose proof (all_word_not_space _ Hword) as Hwns.
  assert (Ha : is_word a = true)
    by (simpl in Hword; now apply andb_true_iff in Hword as [? _]).
  assert (Hmiss : forall c x, is_space c = true ->
                              strip_prefix (String a w) (String c x) = None).
  { intros c x Hc. simpl.
    rewrite (not_space_neq_space a c); [reflexivity| |exact Hc].
    unfold not_space. now rewrite (word_not_space _ Ha). }
  assert (Hsp : forall c, is_space c = true -> is_word c = false).
  { intros c Hc. destruct (is_word c) eqn:E; [|reflexivity].
    apply word_not_space in E. congruence. }
  induction s as [|c r IH]; intros b prev skip Hinv Hskip; [reflexivity|].
  destruct skip as [|k].
  - (* not inside a matched word *)
    destruct (is_space c) eqn:Hc.
    + (* a whitespace character: no match can start here *)
      assert (Hscan : forall p x,
                 sub_word_scan (String a w) (String r0 r1) p 0 (String c x)
                 = String c (sub_word_scan (String a w) (String r0 r1) false 0 x)).
      { intros p x. cbn [sub_word_scan]. rewrite (Hmiss c x Hc), (Hsp c Hc).
        now destruct p. }
      rewrite Hscan. simpl collapse_ws_from. rewrite Hc.
      destruct b.
      * destruct (Hinv eq_refl) as [-> _]. apply IH; auto.
      * cbn [sub_word_scan]. rewrite (Hmiss " "%char _ eq_refl).
        replace (if prev then None else None) with (@None string)
          by now destruct prev.
        change (is_word " "%char) with false. f_equal. apply IH; auto.
    + (* a visible character *)
      rewrite (collapse_cons_not_space b c r Hc).
      cbn [sub_word_scan].
      assert (Hpre : (if prev then None
                      else strip_prefix (String a w)
                             (String c (collapse_ws_from false r)))
                     = option_map (collapse_ws_from false)
                         (if prev then None
                          else strip_prefix (String a w) (String c r))).
      { destruct prev; [reflexivity|].
        rewrite <- (collapse_cons_not_space false c r Hc).
        now apply strip_prefix_collapse. }
      rewrite Hpre.
      destruct (if prev then None else strip_prefix (String a w) (String c r))
        as [rest|] eqn:Hm; cbn [option_map].
      * rewrite starts_word_collapse.
        destruct (starts_word rest).
        -- rewrite (collapse_cons_not_space b _ _ Hc). f_equal.
           apply IH; [discriminate | reflexivity].
        -- rewrite collapse_app_replacement by exact Hrepl. f_equal.
           apply IH; [discriminate|].
           destruct prev; [discriminate|].
           simpl in Hm. destruct (Ascii.eqb a c); [|discriminate].
           cbn [String.length Nat.pred].
           eapply strip_prefix_nospace; eauto.
           simpl in Hwns. now apply andb_true_iff in Hwns as [_ ?].
      * rewrite (collapse_cons_not_space b _ _ Hc). f_equal.
        apply IH; [discriminate | reflexivity].
  - (* inside a matched word: the character is passed over *)
    simpl in Hskip. apply andb_true_iff in Hskip as [Hc Hskip].
    unfold not_space in Hc. apply negb_true_iff in Hc.
    rewrite (collapse_cons_not_space b c r Hc). cbn [sub_word_scan].
    destruct b; [destruct (Hinv eq_refl) as [_ Hk]; discriminate|].
    apply IH; [discriminate | exact Hskip].
Qed.

Lemma sub_word_collapse pr s :
  Hash.entry_ok pr = true ->
  collapse_ws (sub_word (fst pr) (snd pr) s)
  = sub_word (fst pr) (snd pr) (collapse_ws s).
Proof.
  unfold Hash.entry_ok, collapse_ws, sub_word.
  destruct (fst pr) as [|a w]; [discriminate|].
  destruct (snd pr) as [|r0 r1]; [discriminate|].
  intros H. apply andb_true_iff in H as [Hw Hr].
  apply sub_word_scan_collapse; auto; discriminate.
Qed.

Lemma replacements_collapse (table : list (string * string)) s :
  List.forallb Hash.entry_ok table = true ->
  collapse_ws (List.fold_left (fun acc pr => sub_word (fst pr) (snd pr) acc)
                              table s)
  = List.fold_left (fun acc pr => sub_word (fst pr) (snd pr) acc)
                   table (collapse_ws s).
Proof.
  revert s. induction table as [|pr table IH]; intros s Hok; [reflexivity|].
  simpl in Hok. apply andb_true_iff in Hok as [Hpr Hok].
  simpl. rewrite IH by exact Hok. now rewrite sub_word_collapse.
Qed.

End StringFacts.

(** ** [generate_provider_key] *)

Section KeyFacts.
Import PyStr Hash Schemas Dedup.

Lemma string_length_app (s1 s2 : string) :
  String.length (s1 ++ s2) = (String.length s1 + String.length s2)%nat.
Proof. induction s1 as [|c s1 IH]; simpl; [reflexivity | now rewrite IH]. Qed.

Lemma hex_of_length n x : String.length (Sha256.hex_of n x) = n.
Proof. induction n as [|n IH]; simpl; [reflexivity | now rewrite IH]. Qed.

Lemma compress_length h block : List.length (Sha256.compress h block) = 8%nat.
Proof. reflexivity. Qed.

Lemma digest_words_length msg : List.length (Sha256.digest_words msg) = 8%nat.
Proof.
  unfold Sha256.digest_words.
  generalize (Sha256.chunks16
                (List.length (Sha256.words_of (List.length (Sha256.pad msg))
                                              (Sha256.pad msg)))
                (Sha256.words_of (List.length (Sha256.pad msg)) (Sha256.pad msg))).
  intros blocks.
  assert (Hgen : forall h, List.length h = 8%nat ->
                           List.length (List.fold_left Sha256.compress blocks h)
                           = 8%nat).
  { induction blocks as [|b blocks IH]; intros h Hh; simpl; [exact Hh|].
    apply IH, compress_length. }
  apply Hgen. reflexivity.
Qed.

Lemma hexdigest_length msg : String.length (Sha256.hexdigest msg) = 64%nat.
Proof.
  unfold Sha256.hexdigest. pose proof (digest_words_length msg) as Hl.
  assert (Hgen : forall ws,
             String.length
               (List.fold_right (fun w acc => Sha256.hex_of 8 w ++ acc)
                                EmptyString ws)
             = (8 * List.length ws)%nat).
  { induction ws as [|w ws IH]; [reflexivity|].
    cbn [List.fold_right List.length].
    rewrite string_length_app, hex_of_length, IH. lia. }
  rewrite Hgen, Hl. reflexivity.
Qed.

Lemma take_length n s :
  (n <= String.length s)%nat -> String.length (take n s) = n.
Proof.
  revert s. induction n as [|n IH]; intros s Hn; [reflexivity|].
  destruct s as [|c r]; simpl in *; [lia|]. rewrite IH; [reflexivity | lia].
Qed.

(** The digest is always 16 characters long. *)
Lemma generate_provider_key_length n a c :
  String.length (generate_provider_key n a c) = 16%nat.
Proof.
  unfold generate_provider_key. apply take_length.
  rewrite hexdigest_length. lia.
Qed.

Lemma normalized_name_trimmed n :
  normalized_name n = strip (remove_punct (strip (lower n))).
Proof. unfold normalized_name. now rewrite strip_remove_punct. Qed.

Lemma normalize_address_collapsed a :
  normalize_address a
  = List.fold_left (fun acc pr => sub_word (fst pr) (snd pr) acc)
                   replacements (collapse_ws (strip (lower a))).
Proof. unfold normalize_address. now apply replacements_collapse. Qed.

Lemma merge_defined e n :
  (sources e = [] <-> sources n = []) ->
  exists m, Provider.merge e n = Ok m.
Proof.
  intros [H1 H2]. unfold Provider.merge, Provider.max_source_value.
  destruct (sources e) as [|se le], (sources n) as [|sn ln]; simpl.
  - eauto.
  - specialize (H1 eq_refl). discriminate.
  - specialize (H2 eq_refl). discriminate.
  - destruct (String.ltb _ _); eauto.
Qed.

Lemma index_hit_empty field : index_hit field ∅ = None.
Proof.
  unfold index_hit. destruct field as [v|]; [|reflexivity].
  destruct (truthy v); [apply lookup_empty | reflexivity].
Qed.

Lemma add_to_fresh p :
  add Dedup.init p
  = (Ok (true, p),
     {| _index := [(provider_key p, p)];
        _phone_index := register_field (phone p) (provider_key p) ∅;
        _url_index := register_field (website_url p) (provider_key p) ∅ |}).
Proof.
  unfold add. simpl. now rewrite !index_hit_empty.
Qed.

Lemma add_known_key d p e :
  dict_get (provider_key p) (_index d) = Some e ->
  add d p = merge_at d (provider_key p) p.
Proof.
  intros He. unfold add, dict_mem. now rewrite He.
Qed.

(** C4 (as the code has it). For two records whose names and cities are
    equal after lowercasing and trimming leading and trailing whitespace,
    and whose addresses are equal after lowercasing, trimming and
    collapsing every run of whitespace, [generate_provider_key] gives the
    same 16-character key. Once the first record is stored under that
    key, [add] on the second takes the exact-key branch: it never returns
    [is_new = True], it returns [is_new = False] with the merge of the two
    whenever [merge] is defined (both provenance lists empty or both
    non-empty), and otherwise raises the [TypeError] of [merge]. *)
Theorem C4_key_ignores_case_and_outer_spacing (p1 p2 : ScrapedProvider) :
  strip (lower (name p1)) = strip (lower (name p2)) ->
  collapse_ws (strip (lower (address p1)))
  = collapse_ws (strip (lower (address p2))) ->
  strip (lower (city p1)) = strip (lower (city p2)) ->
  provider_key p1 = provider_key p2
  /\ String.length (provider_key p1) = 16%nat
  /\ fst (add Dedup.init p1) = Ok (true, p1)
  /\ match fst (add (snd (add Dedup.init p1)) p2) with
     | Ok (is_new, m) => is_new = false /\ Provider.merge p1 p2 = Ok m
     | Raise e => e = TypeError /\ Provider.merge p1 p2 = Raise TypeError
     end
  /\ ((sources p1 = [] <-> sources p2 = []) ->
      exists m, fst (add (snd (add Dedup.init p1)) p2) = Ok (false, m))
  /\ (forall d is_new m,
         dict_mem (provider_key p1) (_index d) = true ->
         fst (add d p2) = Ok (is_new, m) -> is_new = false).
Proof.
  intros Hn Ha Hc.
  assert (Hkey : provider_key p1 = provider_key p2).
  { unfold provider_key, generate_provider_key, key_string, normalized_city.
    now rewrite !normalized_name_trimmed, !normalize_address_collapsed,
                Hn, Ha, Hc. }
  assert (Hsecond : add (snd (add Dedup.init p1)) p2
                    = merge_at (snd (add Dedup.init p1)) (provider_key p2) p2).
  { apply add_known_key with (e := p1). rewrite add_to_fresh. simpl.
    now rewrite Hkey, String.eqb_refl. }
  assert (Hget : dict_get (provider_key p2)
                          (_index (snd (add Dedup.init p1))) = Some p1).
  { rewrite add_to_fresh. simpl. now rewrite Hkey, String.eqb_refl. }
  split; [exact Hkey|]. split; [apply generate_provider_key_length|].
  split; [now rewrite add_to_fresh|]. split; [|split].
  - rewrite Hsecond. unfold merge_at. rewrite Hget.
    destruct (Provider.merge p1 p2) as [m|x] eqn:Hm; simpl; [auto|].
    split; [|f_equal]; eapply merge_raises_only_type_error; eauto.
  - intros Hs. destruct (merge_defined p1 p2 Hs) as [m Hm].
    exists m. rewrite Hsecond. unfold merge_at. now rewrite Hget, Hm.
  - intros d is_new m Hin Hadd. rewrite Hkey in Hin.
    apply dict_mem_get in Hin as [e He].
    rewrite (add_known_key d p2 e He) in Hadd.
    pose proof (add_count_duplicate d (provider_key p2) p2) as Hd.
    destruct (merge_at d (provider_key p2) p2) as [[[b r]|x] d'];
      simpl in Hadd; [|discriminate].
    injection Hadd as -> ->. tauto.
Qed.

(** C2 (the code at a failing input). [merge] ranks the two records by
    the value string that [max] returns, not by its priority: a map-API
    sighting (priority 3) merged into a website sighting (priority 2)
    does not become the base, because "GOOGLE_MAPS" sorts before
    "WEBSITE"; the website's name is kept. *)
Theorem C2_merge_ranks_by_value_string :
  Provider.priority_of_value (SourceType_value GOOGLE_MAPS)
  > Provider.priority_of_value (SourceType_value WEBSITE)
  /\ Provider.max_source_value (sources maps_sighting) = Provider.VStr "GOOGLE_MAPS"
  /\ Provider.max_source_value (sources website_sighting) = Provider.VStr "WEBSITE"
  /\ Provider.merge website_sighting maps_sighting
     = Ok (Provider.merge_fields website_sighting maps_sighting)
  /\ name (Provider.merge_fields website_sighting maps_sighting) = "Website Name"
  /\ name maps_sighting = "Maps Name".
Proof. vm_compute. repeat split; reflexivity. Qed.

End KeyFacts.

(** ** Worked instances *)

Section Instances.
Import Schemas Dedup RateLimits Http Robots.

(** The two records of [test_add_duplicate_by_phone]: the second one's
    identity key is not indexed and its phone hits the first record; it
    is merged into the first record, and its own identity key is still
    not a key of the main index afterwards, which holds one key only. *)
Lemma C1_phone_match_adds_no_alias_key :
  let d1 := snd (add Dedup.init phone_first) in
  let r := add d1 phone_second in
  dict_mem (provider_key phone_second) (_index d1) = false
  /\ index_hit (phone phone_second) (_phone_index d1)
     = Some (provider_key phone_first)
  /\ fst r = Ok (false, Provider.merge_fields phone_first phone_second)
  /\ dict_get (provider_key phone_second) (_index (snd r)) = None
  /\ List.map fst (_index (snd r)) = [provider_key phone_first]
  /\ provider_key phone_second <> provider_key phone_first.
Proof. vm_compute. repeat split; congruence. Qed.

(** Scenario A through [add]: record 2 merges by key and brings the
    phone, but a merge does not write the phone index, so record 3, which
    shares only the phone, is stored as a new record. *)
Example scenario_A_through_add :
  option_map (List.map fst)
             (match fst (add_all Dedup.init scenario_A) with
              | Ok l => Some l
              | Raise _ => None
              end)
  = Some [true; false; true].
Proof. vm_compute. reflexivity. Qed.

Lemma C1_phone_match_instance :
  fst (add (snd (add Dedup.init phone_first)) phone_second)
  = Ok (false, Provider.merge_fields phone_first phone_second)
  /\ dict_mem (provider_key phone_second)
              (_index (snd (add (snd (add Dedup.init phone_first)) phone_second)))
     = false
  /\ count (snd (add (snd (add Dedup.init phone_first)) phone_second)) = 1.
Proof.
  destruct (C1_secondary_match_merges_in_place
              (snd (add Dedup.init phone_first)) phone_second
              (provider_key phone_first) phone_first
              (Provider.merge_fields phone_first phone_second))
    as (H1 & _ & H3 & H4).
  - vm_compute. reflexivity.
  - left. vm_compute. reflexivity.
  - vm_compute. reflexivity.
  - vm_compute. reflexivity.
  - split; [exact H1 | split; [exact H3 | rewrite H4; vm_compute; reflexivity]].
Defined.

(** A server that always answers 500, with [max_retries = 3]: the response
    is returned after one request and one [record_failure]. *)
Lemma C3_status_500_is_returned_at_once :
  let r := get (U := plain_urlparse) (HttpClient_init None (Some 3))
               (always_status "https://x.com/a" 500)
               "https://x.com/a" "website" fresh_world in
  (exists resp, fst r = Ok resp /\ status resp = 500)
  /\ fst r <> Raise HttpError
  /\ count_events is_request (snd r) = 1%nat
  /\ count_events is_record_failure (snd r) = 1%nat.
Proof.
  vm_compute. split; [eexists; split; reflexivity|].
  split; [congruence | split; reflexivity].
Qed.

Lemma C3_three_timeouts_instance :
  let r := get (U := plain_urlparse) (HttpClient_init None (Some 3))
               always_timeout "https://x.com/a" "website" fresh_world in
  fst r = Raise HttpError
  /\ count_events is_request (snd r) = 3%nat
  /\ count_events is_record_failure (snd r) = 3%nat.
Proof.
  assert (Hb : failure_count (rate_limiter fresh_world)
                 (urlparse_netloc (UrlParse := plain_urlparse) "https://x.com/a")
               + max_retries (HttpClient_init None (Some 3)) <= 1024)
    by (vm_compute; discriminate).
  destruct (proj2 (C3_only_exceptions_are_retried
                     (U := plain_urlparse) (HttpClient_init None (Some 3))
                     always_timeout "https://x.com/a" "website" fresh_world
                     eq_refl I Hb))
    as (H1 & H2 & H3 & _).
  - intros i _. reflexivity.
  - split; [exact H1 | split; [exact H2 | exact H3]].
Defined.

(** One extra space inside the name: a different key, and a second
    canonical record. *)
Lemma C4_inner_space_changes_the_key :
  PyStr.collapse_ws (name double_spaced) = name single_spaced
  /\ address double_spaced = address single_spaced
  /\ city double_spaced = city single_spaced
  /\ provider_key single_spaced <> provider_key double_spaced
  /\ fst (add (snd (add Dedup.init single_spaced)) double_spaced)
     = Ok (true, double_spaced).
Proof. vm_compute. repeat split; congruence. Qed.

Lemma C4_case_and_outer_space_instance :
  provider_key (mk_provider "Test Spa" "123 Main St" "Miami" "FL" "33101" None)
  = provider_key (mk_provider "  TEST SPA " " 123   MAIN ST" "MIAMI " "FL"
                              "33101" None)
  /\ String.length
       (provider_key (mk_provider "Test Spa" "123 Main St" "Miami" "FL"
                                  "33101" None)) = 16%nat.
Proof.
  destruct (C4_key_ignores_case_and_outer_spacing
              (mk_provider "Test Spa" "123 Main St" "Miami" "FL" "33101" None)
              (mk_provider "  TEST SPA " " 123   MAIN ST" "MIAMI " "FL"
                           "33101" None))
    as (H1 & H2 & _).
  - vm_compute. reflexivity.
  - vm_compute. reflexivity.
  - vm_compute. reflexivity.
  - split; [exact H1 | exact H2].
Defined.

(** Scenario B: 60 requests per minute, one [acquire], one
    [record_failure], and an [acquire] at once, which sleeps at least 2
    seconds. And a domain after 1024 calls of [record_failure]: the next
    [acquire] raises [OverflowError] and counts nothing. *)
Lemma C6_scenario_B_and_overflow_instance :
  (2 <= total_slept
          (acquire_with sixty_per_minute
             (record_failure
                (limiter (acquire_with sixty_per_minute RateLimits.init
                                       "website" "x.com" 100 101))
                "x.com")
             "website" "x.com" 101 103))%Q
  /\ (let st := fail_times 1024 RateLimits.init "x.com" in
      let a := acquire st "website" "x.com" 100 100 in
      failure_count st "x.com" = 1024
      /\ outcome a = Raise OverflowError
      /\ slept a = []
      /\ request_count (limiter a) "x.com" = request_count st "x.com"
      /\ daily_count (limiter a) "website" = daily_count st "website").
Proof.
  split.
  - apply (proj1 (C6_interval_sleep_and_bookkeeping
                    sixty_per_minute RateLimits.init "website" "x.com" 100 101
                    ltac:(vm_compute; reflexivity) eq_refl)).
    + vm_compute. reflexivity.
    + vm_compute. congruence.
    + vm_compute. reflexivity.
  - cbv zeta.
    assert (Hn : failure_count (fail_times 1024 RateLimits.init "x.com") "x.com"
                 = 1024) by (vm_compute; reflexivity).
    destruct (proj2 (C6_interval_sleep_and_bookkeeping
                       website_config (fail_times 1024 RateLimits.init "x.com")
                       "website" "x.com" 100 100
                       ltac:(vm_compute; reflexivity) eq_refl))
      as (H1 & H2 & _ & H4 & H5).
    + rewrite Hn. lia.
    + split; [exact Hn|]. split; [exact H1|]. split; [exact H2|].
      split; [exact H4 | exact H5].
Defined.

(** One second after a request to the domain, with 1 and with 5 recorded
    failures: the wait grows from 5 to 31 seconds. *)
Lemma C7_more_failures_instance :
  let st := limiter (acquire RateLimits.init "website" "x.com" 1000 1000) in
  let a1 := acquire (with_failures st "x.com" 1) "website" "x.com" 1001 1032 in
  let a2 := acquire (with_failures st "x.com" 5) "website" "x.com" 1001 1032 in
  (total_slept a1 == 5)%Q
  /\ (total_slept a2 == 31)%Q
  /\ (total_slept a1 <= total_slept a2)%Q
  /\ (total_slept a2 <= max_delay)%Q.
Proof.
  cbv zeta.
  destruct (C7_wait_monotone_and_capped
              (limiter (acquire RateLimits.init "website" "x.com" 1000 1000))
              "website" "x.com" 1001 1032 1 5)
    as (_ & Hmono & Hcap); [lia | lia |].
  split; [vm_compute; reflexivity|]. split; [vm_compute; reflexivity|].
  split; [exact Hmono|]. apply Hcap. vm_compute. discriminate.
Defined.

(** The wall clock steps back between two requests: the first [acquire]
    returns at 2000, the second one reads 1000. With no failure recorded
    the wait is the 6 second interval plus the 1000 second step, far above
    [max_delay]. *)
Lemma C7_wait_exceeds_max_delay_after_clock_step :
  let st := limiter (acquire RateLimits.init "website" "x.com" 2000 2000) in
  let a := acquire st "website" "x.com" 1000 2006 in
  outcome a = Ok tt
  /\ failure_count st "x.com" = 0
  /\ (total_slept a == 1006)%Q
  /\ (max_delay < total_slept a)%Q.
Proof. vm_compute. repeat split. Qed.


Lemma C9_after_one_add_instance :
  index_consistent (snd (add (snd (add Dedup.init phone_first)) phone_second))
  /\ snd (find_duplicates (snd (add Dedup.init phone_first)) phone_second)
     = snd (add Dedup.init phone_first).
Proof.
  destruct (C9_index_consistency_preserved
              (snd (add Dedup.init phone_first)) phone_second)
    as ((H1 & _) & (_ & H2 & _) & _).
  - apply add_preserves_consistency, index_consistent_init.
  - split; [exact H1 | exact H2].
Defined.

End Instances.

(** ** [utils/hash.py]: phone numbers, digests and punctuation *)

Section HashProperties.
Import PyStr Hash.

Lemma keep_phone_chars_all s : all_chars is_phone_char (keep_phone_chars s) = true.
Proof.
  induction s as [|c r IH]; simpl; [reflexivity|].
  destruct (is_phone_char c) eqn:E; simpl; [now rewrite E|exact IH].
Qed.

Lemma keep_phone_chars_fixed s :
  all_chars is_phone_char s = true -> keep_phone_chars s = s.
Proof.
  induction s as [|c r IH]; simpl; [reflexivity|].
  intros H. apply andb_true_iff in H as [Hc Hr]. now rewrite Hc, IH.
Qed.

Lemma normalize_phone_chars phone :
  all_chars is_phone_char (normalize_phone phone) = true.
Proof.
  unfold normalize_phone. pose proof (keep_phone_chars_all phone) as Hk.
  destruct (starts_with_char "+"%char _); [exact Hk|].
  destruct (Nat.eqb _ 10); [exact Hk|].
  destruct (_ && _); exact Hk.
Qed.

(** Normalizing a phone number twice is the same as normalizing it once,
    and the result holds nothing but digits and plus signs. *)
Theorem normalize_phone_idempotent (phone : string) :
  normalize_phone (normalize_phone phone) = normalize_phone phone
  /\ all_chars is_phone_char (normalize_phone phone) = true.
Proof.
  split; [|apply normalize_phone_chars].
  unfold normalize_phone at 2 3. cbv zeta.
  pose proof (keep_phone_chars_all phone) as Hk.
  set (digits := keep_phone_chars phone) in *.
  assert (Hplus : forall s, all_chars is_phone_char s = true ->
                            starts_with_char "+"%char s = true ->
                            normalize_phone s = s).
  { intros s Hs Hp. unfold normalize_phone.
    now rewrite (keep_phone_chars_fixed s Hs), Hp. }
  destruct (starts_with_char "+"%char digits) eqn:Hp; [now apply Hplus|].
  destruct (Nat.eqb (String.length digits) 10) eqn:H10; [now apply Hplus|].
  destruct (Nat.eqb (String.length digits) 11 && starts_with_char "1"%char digits)
    eqn:H11; [now apply Hplus|].
  unfold normalize_phone.
  rewrite (keep_phone_chars_fixed digits Hk). now rewrite Hp, H10, H11.
Qed.


Lemma hex_digit_is_hex n : 0 <= n < 16 -> is_hex (Sha256.hex_digit n) = true.
Proof.
  intros Hn. replace n with (Z.of_nat (Z.to_nat n)) by lia.
  assert (Hk : (Z.to_nat n < 16)%nat) by lia.
  revert Hk. generalize (Z.to_nat n) as k. intros k Hk.
  do 16 (destruct k as [|k]; [reflexivity|]). lia.
Qed.

Lemma all_chars_app f s1 s2 :
  all_chars f (s1 ++ s2) = all_chars f s1 && all_chars f s2.
Proof.
  induction s1 as [|c s1 IH]; simpl; [reflexivity|].
  now rewrite IH, andb_assoc.
Qed.

Lemma hex_of_is_hex n x : all_chars is_hex (Sha256.hex_of n x) = true.
Proof.
  induction n as [|n IH]; simpl; [reflexivity|].
  rewrite IH, andb_true_r. apply hex_digit_is_hex.
  apply Z.mod_pos_bound. lia.
Qed.

Lemma hexdigest_is_hex msg : all_chars is_hex (Sha256.hexdigest msg) = true.
Proof.
  unfold Sha256.hexdigest.
  induction (Sha256.digest_words msg) as [|w ws IH]; [reflexivity|].
  cbn [List.fold_right]. now rewrite all_chars_app, hex_of_is_hex, IH.
Qed.

Lemma all_chars_take f n s : all_chars f s = true -> all_chars f (take n s) = true.
Proof.
  revert s. induction n as [|n IH]; intros s Hs; [reflexivity|].
  destruct s as [|c r]; [reflexivity|]. simpl in *.
  apply andb_true_iff in Hs as [Hc Hr]. now rewrite Hc, IH.
Qed.

(** Whatever the content, [content_hash] is 16 lowercase hexadecimal
    digits, and so is every provider key. *)
Theorem content_hash_sixteen_hex_digits (content name address city : string) :
  String.length (content_hash content) = 16%nat
  /\ all_chars is_hex (content_hash content) = true
  /\ all_chars is_hex (generate_provider_key name address city) = true.
Proof.
  unfold content_hash, generate_provider_key. split; [|split].
  - apply take_length. rewrite hexdigest_length. lia.
  - apply all_chars_take, hexdigest_is_hex.
  - apply all_chars_take, hexdigest_is_hex.
Qed.

Lemma lower_app s1 s2 : lower (s1 ++ s2) = lower s1 ++ lower s2.
Proof. induction s1 as [|c s1 IH]; simpl; [reflexivity | now rewrite IH]. Qed.

Lemma remove_punct_app s1 s2 :
  remove_punct (s1 ++ s2) = remove_punct s1 ++ remove_punct s2.
Proof.
  induction s1 as [|c s1 IH]; simpl; [reflexivity|].
  destruct (is_word c || is_space c); simpl; now rewrite IH.
Qed.

Lemma punctuation_lower c :
  is_word c = false -> is_space c = false ->
  is_word (lower_char c) = false /\ is_space (lower_char c) = false.
Proof.
  intros Hw Hs. unfold lower_char.
  destruct (is_upper c) eqn:Hu; [|auto].
  unfold is_word in Hw. rewrite Hu in Hw. discriminate.
Qed.

(** In an ASCII name, an ASCII punctuation character anywhere (one that
    is neither a letter, a digit, an underscore nor whitespace) does not
    change the provider key. *)
Theorem provider_key_ignores_punctuation
        (before after address city : string) (c : ascii) :
  all_chars is_ascii before = true ->
  all_chars is_ascii after = true ->
  is_ascii c = true ->
  is_word c = false -> is_space c = false ->
  generate_provider_key (before ++ String c after) address city
  = generate_provider_key (before ++ after) address city.
Proof.
  intros _ _ _ Hw Hs. unfold generate_provider_key, key_string, normalized_name.
  destruct (punctuation_lower c Hw Hs) as [Hw' Hs'].
  rewrite !lower_app, !remove_punct_app. simpl lower. simpl remove_punct.
  now rewrite Hw', Hs'.
Qed.

Lemma lower_char_idempotent c : lower_char (lower_char c) = lower_char c.
Proof. destruct c as [[] [] [] [] [] [] [] []]; reflexivity. Qed.

Lemma lower_idempotent s : lower (lower s) = lower s.
Proof.
  induction s as [|c s IH]; simpl; [reflexivity|].
  now rewrite lower_char_idempotent, IH.
Qed.

Lemma collapse_single_spaces b s :
  single_spaces_from b (collapse_ws_from b s) = true.
Proof.
  revert b. induction s as [|c s IH]; intros b; [reflexivity|].
  cbn [collapse_ws_from]. destruct (is_space c) eqn:Hc.
  - destruct b; [apply IH|].
    cbn [single_spaces_from].
    change (is_space " "%char) with true. cbn [negb andb].
    rewrite Ascii.eqb_refl. apply IH.
  - cbn [single_spaces_from]. rewrite Hc. apply IH.
Qed.

(** A normalized address holds no whitespace but single plain spaces
    (tabs and line breaks become spaces, runs of spaces collapse), and
    the case of the letters of the address does not matter. *)
Theorem normalize_address_spacing_and_case (address : string) :
  single_spaces (normalize_address address) = true
  /\ normalize_address (lower address) = normalize_address address.
Proof.
  split.
  - unfold normalize_address, single_spaces, collapse_ws. cbv zeta.
    apply collapse_single_spaces.
  - unfold normalize_address. now rewrite lower_idempotent.
Qed.

End HashProperties.

(** ** [ProviderNormalizer.merge]: what a merge keeps *)

Section MergeProperties.
Import Schemas Provider.

Lemma truthy_py_or {A} `{Truthy A} (a b : A) :
  truthy (py_or a b) = truthy a || truthy b.
Proof. unfold py_or. destruct (truthy a) eqn:E; [exact E | reflexivity]. Qed.

Lemma nonempty_fields_merge_fields base secondary :
  nonempty_fields (merge_fields base secondary)
  = flags_or (nonempty_fields base) (nonempty_fields secondary).
Proof.
  unfold nonempty_fields, merge_fields. cbn [flags_or name address city state
    zip_code country legal_name website_url latitude longitude phone email
    booking_url services opening_hours google_rating google_review_count
    social_links].
  now rewrite !truthy_py_or.
Qed.

Lemma flags_or_comm a b : flags_or a b = flags_or b a.
Proof.
  revert b. induction a as [|x a IH]; intros [|y b]; simpl; try reflexivity.
  now rewrite IH, orb_comm.
Qed.

(** The two ways a merge can come out. *)
Lemma merge_cases existing new m :
  merge existing new = Ok m ->
  m = merge_fields existing new \/ m = merge_fields new existing.
Proof.
  unfold merge. destruct (py_gt _ _) as [[|]|x]; intros [= <-]; auto.
Qed.

(** [merge] raises exactly when one record has provenance and the other
    has none (the integer default of [max] is then compared with a
    string); the exception is a [TypeError]. *)
Theorem merge_raises_iff_one_side_unsourced (existing new : ScrapedProvider) :
  (merge existing new = Raise TypeError
   <-> ((sources existing = [] /\ sources new <> [])
        \/ (sources existing <> [] /\ sources new = [])))
  /\ (forall x, merge existing new = Raise x -> x = TypeError).
Proof.
  split; [|intros x; apply merge_raises_only_type_error].
  unfold merge, max_source_value.
  destruct (sources existing) as [|se le], (sources new) as [|sn ln]; simpl.
  - split; [discriminate | intros [[_ H] | [H _]]; congruence].
  - split; [intros _; left; split; congruence | reflexivity].
  - split; [intros _; right; split; congruence | reflexivity].
  - destruct (String.ltb _ _); (split; [discriminate|]);
      intros [[H _] | [_ H]]; discriminate.
Qed.

(** A merge never loses provenance or data: the merged provenance is the
    two lists one after the other, a field is non-empty in the result
    exactly when it is non-empty in one of the two records, and the
    confidence is the larger of the two. *)
Theorem merge_loses_nothing (existing new m : ScrapedProvider) :
  merge existing new = Ok m ->
  (sources m = (sources existing ++ sources new)%list
   \/ sources m = (sources new ++ sources existing)%list)
  /\ (forall s, In s (sources m) <-> In s (sources existing) \/ In s (sources new))
  /\ List.length (sources m)
     = (List.length (sources existing) + List.length (sources new))%nat
  /\ nonempty_fields m
     = flags_or (nonempty_fields existing) (nonempty_fields new)
  /\ (confidence m == Qmax (confidence existing) (confidence new))%Q.
Proof.
  intros Hm. destruct (merge_cases _ _ _ Hm) as [-> | ->].
  - split; [left; reflexivity|]. split; [|split; [|split]].
    + intros s. simpl. apply List.in_app_iff.
    + simpl. apply List.length_app.
    + apply nonempty_fields_merge_fields.
    + simpl. apply py_max_Qmax.
  - split; [right; reflexivity|]. split; [|split; [|split]].
    + intros s. simpl. rewrite List.in_app_iff. tauto.
    + simpl. rewrite List.length_app. lia.
    + rewrite nonempty_fields_merge_fields. apply flags_or_comm.
    + simpl. rewrite py_max_Qmax. apply Q.max_comm.
Qed.

Lemma ltb_irrefl s : String.ltb s s = false.
Proof.
  unfold String.ltb. pose proof (String.compare_antisym s s) as H.
  destruct (String.compare s s); simpl in H; congruence.
Qed.

(** Ties keep the existing record as base: when the best source kind of
    the two records is the same, or neither has provenance, every
    non-empty field of the existing record survives the merge, and the
    new record only fills the gaps. *)
Theorem merge_tie_keeps_existing (existing new : ScrapedProvider) :
  max_source_value (sources new) = max_source_value (sources existing) ->
  merge existing new = Ok (merge_fields existing new)
  /\ (truthy (name existing) = true ->
      name (merge_fields existing new) = name existing)
  /\ (truthy (phone existing) = true ->
      phone (merge_fields existing new) = phone existing)
  /\ (truthy (website_url existing) = true ->
      website_url (merge_fields existing new) = website_url existing)
  /\ (truthy (phone existing) = false ->
      phone (merge_fields existing new) = phone new)
  /\ (truthy (website_url existing) = false ->
      website_url (merge_fields existing new) = website_url new).
Proof.
  intros Htie. split.
  - unfold merge. rewrite Htie.
    destruct (max_source_value (sources existing)) as [z|s]; simpl.
    + now rewrite Z.ltb_irrefl.
    + now rewrite ltb_irrefl.
  - simpl. unfold py_or. repeat split; intros ->; reflexivity.
Qed.

End MergeProperties.

(** ** [Deduplicator]: sequences of calls *)

Section DedupSequences.
Import Schemas Dedup.

(** The count after one [add]. *)
Lemma add_count d p :
  match add d p with
  | (Ok (is_new, _), d') => count d' = count d + (if is_new then 1 else 0)
  | (Raise _, d') => d' = d
  end.
Proof.
  destruct (duplicate_key d p) as [k|] eqn:Hk.
  - rewrite (add_duplicate _ _ _ Hk).
    pose proof (add_count_duplicate d k p) as H.
    destruct (merge_at d k p) as [[[is_new r]|x] d']; [|exact H].
    destruct H as (-> & Hc & _). lia.
  - destruct (add_new _ _ Hk) as [Hout ->].
    unfold count. simpl. rewrite dict_set_length_absent by exact Hout. lia.
Qed.

Lemma merged_sources_empty e p m :
  Provider.merge e p = Ok m -> (sources m = [] <-> sources p = []).
Proof.
  intros Hm.
  assert (Hboth : sources e = [] <-> sources p = []).
  { revert Hm. unfold Provider.merge, Provider.max_source_value.
    destruct (sources e) as [|a l], (sources p) as [|b l']; simpl.
    - tauto.
    - discriminate.
    - discriminate.
    - intros _. split; discriminate. }
  assert (Hs : sources m = (sources e ++ sources p)%list
               \/ sources m = (sources p ++ sources e)%list).
  { destruct (merge_cases _ _ _ Hm) as [-> | ->];
      [left | right]; reflexivity. }
  destruct Hs as [Hs | Hs]; rewrite Hs; split; intros H0.
  - now apply List.app_eq_nil in H0 as [_ ?].
  - rewrite H0, (proj2 Hboth H0). reflexivity.
  - now apply List.app_eq_nil in H0 as [? _].
  - rewrite H0, (proj2 Hboth H0). reflexivity.
Qed.

(** Adding the record that was just added never creates a second record:
    the second call is a merge into the record the first call stored,
    and the count stays where it was. *)
Theorem add_twice_is_a_merge (d d1 : Deduplicator) (p : ScrapedProvider)
        (r : bool * ScrapedProvider) :
  add d p = (Ok r, d1) ->
  exists m d2,
    add d1 p = (Ok (false, m), d2)
    /\ Provider.merge (snd r) p = Ok m
    /\ count d2 = count d1.
Proof.
  intros Hadd.
  assert (Hgoal : forall k stored d',
             d1 = d' -> duplicate_key d' p = Some k ->
             dict_get k (_index d') = Some stored ->
             (sources stored = [] <-> sources p = []) ->
             exists m d2, add d' p = (Ok (false, m), d2)
                          /\ Provider.merge stored p = Ok m
                          /\ count d2 = count d').
  { intros k stored d' _ Hk Hget Hsrc.
    destruct (merge_defined stored p Hsrc) as [m Hm].
    exists m. eexists. rewrite (add_duplicate _ _ _ Hk). unfold merge_at.
    rewrite Hget, Hm. split; [reflexivity|]. split; [reflexivity|].
    unfold count. simpl. rewrite dict_set_length_present; [reflexivity|].
    unfold dict_mem. now rewrite Hget. }
  destruct (duplicate_key d p) as [k|] eqn:Hk.
  - (* the first call merged into the record under [k] *)
    rewrite (add_duplicate _ _ _ Hk) in Hadd.
    destruct (merge_at_cases d k p) as [(e & m1 & Hg & Hm1 & Hma) | (x & Hma & _)];
      rewrite Hma in Hadd; [|discriminate].
    injection Hadd as <- <-. cbn [snd].
    eapply (Hgoal k m1); [reflexivity| |apply dict_get_set_eq|].
    + unfold duplicate_key in *. cbn [_index _phone_index _url_index].
      destruct (dict_mem (provider_key p) (_index d)) eqn:Hin.
      * injection Hk as <-. now rewrite dict_mem_set_eq.
      * assert (Hne : k <> provider_key p).
        { intros ->. unfold dict_mem in Hin. rewrite Hg in Hin. discriminate. }
        unfold dict_mem in *. rewrite dict_get_set_ne by exact Hne.
        destruct (dict_get (provider_key p) (_index d)); [discriminate|].
        exact Hk.
    + eapply merged_sources_empty; eauto.
  - (* the first call stored the record as new *)
    destruct (add_new _ _ Hk) as [Hout Hnew]. rewrite Hnew in Hadd.
    injection Hadd as <- <-. cbn [snd].
    eapply (Hgoal (provider_key p) p); [reflexivity| |apply dict_get_set_eq|tauto].
    unfold duplicate_key. cbn [_index]. now rewrite dict_mem_set_eq.
Qed.

(** Over a run of [add] calls that all return, [count()] grows by the
    number of calls that answered [is_new = True]; from a fresh
    deduplicator it is that number, and never more than the number of
    records fed in. *)
Theorem add_all_counts_new_records (ps : list ScrapedProvider) :
  forall (d d' : Deduplicator) (rs : list (bool * ScrapedProvider)),
    add_all d ps = (Ok rs, d') ->
    List.length rs = List.length ps
    /\ count d' = count d + count_new rs
    /\ count d' <= count d + Z.of_nat (List.length ps)
    /\ Z.of_nat (List.length (get_all d')) = count d'.
Proof.
  induction ps as [|p ps IH]; intros d d' rs Hrun.
  - injection Hrun as <- <-. unfold count_new, get_all, count. simpl.
    rewrite List.length_map. repeat split; lia.
  - cbn [add_all] in Hrun. pose proof (add_count d p) as Hc.
    destruct (add d p) as [[[is_new r]|x] d1]; [|discriminate].
    destruct (add_all d1 ps) as [[rs'|x] d2] eqn:Hrest; [|discriminate].
    injection Hrun as <- <-.
    destruct (IH d1 d2 rs' Hrest) as (Hl & Hn & Hle & Hall).
    unfold count_new in *. cbn [List.length List.filter fst].
    destruct is_new; cbn [List.length]; repeat split; try lia.
Qed.

(** A record that was stored under its own key (as new, or merged by
    key) is found again as the single exact match, carrying the record
    that [add] returned. *)
Theorem find_after_add_is_exact (d d1 : Deduplicator) (p r : ScrapedProvider)
        (is_new : bool) :
  add d p = (Ok (is_new, r), d1) ->
  is_new = true \/ dict_mem (provider_key p) (_index d) = true ->
  find_duplicates d1 p = (Ok [exact_match r], d1).
Proof.
  intros Hadd Hkey.
  assert (Hget : dict_get (provider_key p) (_index d1) = Some r).
  { destruct (duplicate_key d p) as [k|] eqn:Hk.
    - rewrite (add_duplicate _ _ _ Hk) in Hadd.
      destruct (merge_at_cases d k p) as [(e & m & Hg & _ & Hma) | (x & Hma & _)];
        rewrite Hma in Hadd; [|discriminate].
      injection Hadd as <- <- <-.
      destruct Hkey as [? | Hin]; [discriminate|].
      unfold duplicate_key in Hk. rewrite Hin in Hk. injection Hk as <-.
      apply dict_get_set_eq.
    - destruct (add_new _ _ Hk) as [_ Hnew]. rewrite Hnew in Hadd.
      injection Hadd as <- <- <-. apply dict_get_set_eq. }
  unfold find_duplicates. now rewrite Hget.
Qed.

Lemma dict_set_keys_present {V} (d : list (string * V)) k v :
  dict_mem k d = true -> List.map fst (dict_set k v d) = List.map fst d.
Proof.
  unfold dict_mem. induction d as [|[k' v'] d IH]; simpl; [discriminate|].
  destruct (String.eqb k k'); simpl; [reflexivity|].
  intros H. now rewrite IH.
Qed.

Lemma dict_set_keys_absent {V} (d : list (string * V)) k v :
  dict_mem k d = false ->
  List.map fst (dict_set k v d) = (List.map fst d ++ [k])%list.
Proof.
  unfold dict_mem. induction d as [|[k' v'] d IH]; simpl; [reflexivity|].
  destruct (String.eqb k k'); simpl; [discriminate|].
  intros H. now rewrite IH.
Qed.

(** One [add] touches one record: the keys of the index keep their
    order, a new record goes to the end and a merge adds no key; the
    record returned is stored under one key, and what every other key
    holds is as it was. *)
Theorem add_touches_one_record (d d' : Deduplicator) (p r : ScrapedProvider)
        (is_new : bool) :
  add d p = (Ok (is_new, r), d') ->
  List.map fst (_index d')
  = (List.map fst (_index d) ++ (if is_new then [provider_key p] else []))%list
  /\ exists key,
       dict_get key (_index d') = Some r
       /\ (is_new = true -> key = provider_key p)
       /\ forall k, key <> k -> dict_get k (_index d') = dict_get k (_index d).
Proof.
  intros Hadd. destruct (duplicate_key d p) as [k|] eqn:Hk.
  - rewrite (add_duplicate _ _ _ Hk) in Hadd.
    destruct (merge_at_cases d k p) as [(e & m & Hg & _ & Hma) | (x & Hma & _)];
      rewrite Hma in Hadd; [|discriminate].
    injection Hadd as <- <- <-. cbn [_index]. split.
    + rewrite dict_set_keys_present, List.app_nil_r; [reflexivity|].
      unfold dict_mem. now rewrite Hg.
    + exists k. split; [apply dict_get_set_eq|]. split; [discriminate|].
      intros k' Hne. now apply dict_get_set_ne.
  - destruct (add_new _ _ Hk) as [Hout Hnew]. rewrite Hnew in Hadd.
    injection Hadd as <- <- <-. cbn [_index]. split.
    + now apply dict_set_keys_absent.
    + exists (provider_key p). split; [apply dict_get_set_eq|].
      split; [reflexivity|]. intros k' Hne. now apply dict_get_set_ne.
Qed.

End DedupSequences.

(** ** [Deduplicator._name_similarity] and [find_duplicates] *)

Section SimilarityProperties.
Import Schemas Dedup.

Lemma mem_str_In x l : mem_str x l = true <-> In x l.
Proof.
  unfold mem_str. rewrite List.existsb_exists. split.
  - intros (y & Hy & He). apply String.eqb_eq in He. now subst.
  - intros Hx. exists x. split; [exact Hx | apply String.eqb_refl].
Qed.

Lemma to_set_In x l : In x (to_set l) <-> In x l.
Proof.
  induction l as [|y l IH]; simpl; [tauto|].
  destruct (mem_str y l) eqn:E.
  - rewrite IH. split; [auto|]. intros [<- | H]; [|exact H].
    now apply mem_str_In.
  - simpl. now rewrite IH.
Qed.

Lemma to_set_NoDup l : List.NoDup (to_set l).
Proof.
  induction l as [|y l IH]; simpl; [constructor|].
  destruct (mem_str y l) eqn:E; [exact IH|].
  constructor; [|exact IH]. rewrite to_set_In. intros Hin.
  apply mem_str_In in Hin. congruence.
Qed.

(** The common tokens, counted from either side. *)
Lemma common_count (a b : list string) :
  List.NoDup a -> List.NoDup b ->
  List.length (List.filter (fun x => mem_str x b) a)
  = List.length (List.filter (fun x => mem_str x a) b).
Proof.
  intros Ha Hb. apply Permutation.Permutation_length.
  apply Permutation.NoDup_Permutation; try now apply List.NoDup_filter.
  intros x. rewrite !List.filter_In, !mem_str_In. tauto.
Qed.

Lemma filter_split {A} (f : A -> bool) (l : list A) :
  List.length l
  = (List.length (List.filter f l)
     + List.length (List.filter (fun x => negb (f x)) l))%nat.
Proof.
  induction l as [|x l IH]; simpl; [reflexivity|].
  destruct (f x); simpl; lia.
Qed.

Lemma filter_shorter {A} (f : A -> bool) (l : list A) :
  (List.length (List.filter f l) <= List.length l)%nat.
Proof.
  induction l as [|x l IH]; simpl; [lia|]. destruct (f x); simpl; lia.
Qed.

Lemma union_count (a b : list string) :
  List.NoDup a -> List.NoDup b ->
  List.length (a ++ List.filter (fun x => negb (mem_str x a)) b)%list
  = List.length (b ++ List.filter (fun x => negb (mem_str x b)) a)%list.
Proof.
  intros Ha Hb. rewrite !List.length_app.
  pose proof (filter_split (fun x => mem_str x a) b) as H1.
  pose proof (filter_split (fun x => mem_str x b) a) as H2.
  pose proof (common_count a b Ha Hb) as H3. lia.
Qed.

Lemma filter_known_empty (l l' : list string) :
  (forall x, In x l -> In x l') ->
  List.filter (fun x => negb (mem_str x l')) l = [].
Proof.
  induction l as [|x l IH]; intros Hsub; [reflexivity|]. simpl.
  assert (Hx : mem_str x l' = true) by (apply mem_str_In, Hsub; now left).
  rewrite Hx. simpl. apply IH. intros y Hy. apply Hsub. now right.
Qed.

Lemma similarity_unfold name1 name2 :
  _name_similarity name1 name2
  = match tokens name1, tokens name2 with
    | [], _ | _, [] => 0%Q
    | _, _ =>
        Qmake (Z.of_nat (List.length
                           (List.filter (fun x => mem_str x (tokens name2))
                                        (tokens name1))))
              (Pos.of_nat (List.length
                             (tokens name1
                              ++ List.filter
                                   (fun x => negb (mem_str x (tokens name1)))
                                   (tokens name2))%list))
    end.
Proof. reflexivity. Qed.

Lemma Zpos_of_nat n : (0 < n)%nat -> Z.pos (Pos.of_nat n) = Z.of_nat n.
Proof.
  intros Hn. destruct n as [|n]; [lia|].
  rewrite <- Pos.of_nat_succ. now rewrite Zpos_P_of_succ_nat, Nat2Z.inj_succ.
Qed.

Lemma similarity_range name1 name2 :
  (0 <= _name_similarity name1 name2 <= 1)%Q.
Proof.
  rewrite similarity_unfold.
  destruct (tokens name1) as [|a1 l1] eqn:E1; [split; discriminate|].
  destruct (tokens name2) as [|a2 l2] eqn:E2; [split; discriminate|].
  assert (Hn1 : (0 < List.length (a1 :: l1))%nat) by (simpl; lia).
  remember (a1 :: l1) as n1 eqn:Rn1. remember (a2 :: l2) as n2 eqn:Rn2.
  clear Rn1 Rn2.
  assert (Hle : (List.length (List.filter (fun x => mem_str x n2) n1)
                 <= List.length
                      (n1 ++ List.filter (fun x => negb (mem_str x n1)) n2)%list)%nat).
  { rewrite List.length_app.
    eapply Nat.le_trans; [apply filter_shorter | apply Nat.le_add_r]. }
  assert (Hpos : (0 < List.length
                        (n1 ++ List.filter (fun x => negb (mem_str x n1)) n2)%list)%nat).
  { rewrite List.length_app. lia. }
  unfold Qle. cbn [Qnum Qden]. rewrite (Zpos_of_nat _ Hpos). split; lia.
Qed.

Lemma similarity_sym name1 name2 :
  _name_similarity name1 name2 = _name_similarity name2 name1.
Proof.
  pose proof (to_set_NoDup (split_ws (PyStr.lower name1))) as N1.
  pose proof (to_set_NoDup (split_ws (PyStr.lower name2))) as N2.
  fold (tokens name1) in N1. fold (tokens name2) in N2.
  rewrite !similarity_unfold.
  destruct (tokens name1) as [|a1 l1] eqn:E1,
           (tokens name2) as [|a2 l2] eqn:E2; try reflexivity.
  rewrite (common_count _ _ N1 N2), (union_count _ _ N1 N2). reflexivity.
Qed.

Lemma similarity_self name1 :
  tokens name1 <> [] -> (_name_similarity name1 name1 == 1)%Q.
Proof.
  intros Hne. rewrite similarity_unfold.
  destruct (tokens name1) as [|a1 l1] eqn:E1; [congruence|].
  assert (Hpos : (0 < List.length (a1 :: l1))%nat) by (simpl; lia).
  remember (a1 :: l1) as n1 eqn:Rn1. clear Rn1.
  assert (Hin : List.filter (fun x => mem_str x n1) n1 = n1).
  { apply List.forallb_filter_id. apply List.forallb_forall.
    intros x Hx. now apply mem_str_In. }
  assert (Hout : List.filter (fun x => negb (mem_str x n1)) n1 = [])
    by (apply filter_known_empty; auto).
  rewrite Hin, Hout, List.app_nil_r.
  unfold Qeq. cbn [Qnum Qden]. rewrite (Zpos_of_nat _ Hpos). lia.
Qed.

(** The similarity of two names is a number between 0 and 1, it does not
    depend on the order of the two names, and a name with at least one
    token is fully similar to itself. *)
Theorem name_similarity_bounds_and_symmetry (name1 name2 : string) :
  (0 <= _name_similarity name1 name2 <= 1)%Q
  /\ _name_similarity name1 name2 = _name_similarity name2 name1
  /\ (tokens name1 <> [] -> (_name_similarity name1 name1 == 1)%Q).
Proof.
  split; [apply similarity_range|]. split; [apply similarity_sym|].
  apply similarity_self.
Qed.

(** *** Dataclass equality is symmetric *)

Lemma opt_eqb_sym {A} (eqb : A -> A -> bool) :
  (forall a b, eqb a b = eqb b a) ->
  forall x y, opt_eqb eqb x y = opt_eqb eqb y x.
Proof. intros Hs [a|] [b|]; simpl; auto. Qed.

Lemma list_eqb_sym {A} (eqb : A -> A -> bool) :
  (forall a b, eqb a b = eqb b a) ->
  forall x y, list_eqb eqb x y = list_eqb eqb y x.
Proof.
  intros Hs x. induction x as [|a x IH]; intros [|b y]; simpl; auto.
  now rewrite Hs, IH.
Qed.

Lemma Qeq_bool_sym a b : Qeq_bool a b = Qeq_bool b a.
Proof.
  destruct (Qeq_bool a b) eqn:E1, (Qeq_bool b a) eqn:E2; try reflexivity.
  - apply Qeq_bool_iff in E1. symmetry in E1. apply Qeq_bool_iff in E1.
    congruence.
  - apply Qeq_bool_iff in E2. symmetry in E2. apply Qeq_bool_iff in E2.
    congruence.
Qed.

Lemma pair_eqb_sym a b : pair_eqb a b = pair_eqb b a.
Proof.
  unfold pair_eqb. now rewrite (String.eqb_sym (fst a)), (String.eqb_sym (snd a)).
Qed.

Lemma source_eqb_sym a b : source_eqb a b = source_eqb b a.
Proof.
  unfold source_eqb, SourceType_eqb.
  now rewrite (String.eqb_sym (SourceType_value (src_type a))),
              (String.eqb_sym (src_url a)), (Z.eqb_sym (src_fetched_at a)),
              (String.eqb_sym (src_raw_data_hash a)).
Qed.

Lemma service_eqb_sym a b : service_eqb a b = service_eqb b a.
Proof.
  unfold service_eqb.
  now rewrite (String.eqb_sym (svc_category a)), (String.eqb_sym (svc_name a)),
              (opt_eqb_sym _ String.eqb_sym (svc_description a)),
              (opt_eqb_sym _ Z.eqb_sym (svc_base_price_cents a)),
              (opt_eqb_sym _ Z.eqb_sym (svc_duration_min a)),
              (list_eqb_sym _ String.eqb_sym (svc_add_ons a)).
Qed.

Lemma provider_eqb_sym a b : provider_eqb a b = provider_eqb b a.
Proof.
  unfold provider_eqb.
  now rewrite (String.eqb_sym (name a)), (String.eqb_sym (address a)),
    (String.eqb_sym (city a)), (String.eqb_sym (state a)),
    (String.eqb_sym (zip_code a)), (String.eqb_sym (country a)),
    (opt_eqb_sym _ String.eqb_sym (legal_name a)),
    (opt_eqb_sym _ String.eqb_sym (website_url a)),
    (opt_eqb_sym _ Qeq_bool_sym (latitude a)),
    (opt_eqb_sym _ Qeq_bool_sym (longitude a)),
    (opt_eqb_sym _ String.eqb_sym (phone a)),
    (opt_eqb_sym _ String.eqb_sym (email a)),
    (opt_eqb_sym _ String.eqb_sym (booking_url a)),
    (list_eqb_sym _ service_eqb_sym (services a)),
    (opt_eqb_sym _ (list_eqb_sym _ pair_eqb_sym) (opening_hours a)),
    (opt_eqb_sym _ Qeq_bool_sym (google_rating a)),
    (opt_eqb_sym _ Z.eqb_sym (google_review_count a)),
    (opt_eqb_sym _ (list_eqb_sym _ pair_eqb_sym) (social_links a)),
    (list_eqb_sym _ source_eqb_sym (sources a)),
    (Qeq_bool_sym (confidence a)).
Qed.

(** *** The stable descending sort *)

Lemma insert_desc_In x m l : In x (insert_desc m l) <-> x = m \/ In x l.
Proof.
  induction l as [|y l IH]; simpl; [intuition|].
  destruct (Qltb _ _); simpl; rewrite ?IH; intuition.
Qed.

Lemma sorted_desc_In x l : In x (sorted_desc l) <-> In x l.
Proof.
  unfold sorted_desc. induction l as [|y l IH]; simpl; [tauto|].
  rewrite insert_desc_In, IH. intuition.
Qed.

Lemma insert_desc_descending m l : descending l -> descending (insert_desc m l).
Proof.
  induction l as [|y l IH]; intros Hd; simpl.
  - split; [constructor | exact I].
  - destruct Hd as [Hy Hl].
    destruct (Qltb (similarity_score m) (similarity_score y)) eqn:E.
    + simpl. split; [|auto]. apply List.Forall_forall. intros b Hb.
      apply insert_desc_In in Hb as [-> | Hb].
      * apply Qlt_le_weak. now apply Qltb_lt.
      * rewrite List.Forall_forall in Hy. auto.
    + apply Qltb_ge in E. simpl. split; [|split; assumption].
      constructor; [exact E|]. rewrite List.Forall_forall in *.
      intros b Hb. eapply Qle_trans; [apply Hy, Hb | exact E].
Qed.

Lemma sorted_desc_descending l : descending (sorted_desc l).
Proof.
  unfold sorted_desc. induction l as [|y l IH]; simpl; [exact I|].
  now apply insert_desc_descending.
Qed.

Lemma insert_desc_listed_once m l :
  listed_once l ->
  (forall b, In b l -> provider_eqb (provider m) (provider b) = false) ->
  listed_once (insert_desc m l).
Proof.
  induction l as [|y l IH]; intros Hl Hm; simpl.
  - split; [constructor | exact I].
  - destruct Hl as [Hy Hl]. destruct (Qltb _ _).
    + simpl. split.
      * apply List.Forall_forall. intros b Hb.
        apply insert_desc_In in Hb as [-> | Hb].
        -- rewrite provider_eqb_sym. apply Hm. now left.
        -- rewrite List.Forall_forall in Hy. auto.
      * apply IH; [exact Hl|]. intros b Hb. apply Hm. now right.
    + simpl. split; [|split; assumption].
      apply List.Forall_forall. exact Hm.
Qed.

Lemma listed_once_snoc l x :
  listed_once l ->
  (forall a, In a l -> provider_eqb (provider a) (provider x) = false) ->
  listed_once (l ++ [x]).
Proof.
  induction l as [|y l IH]; intros Hl Hx; simpl.
  - split; [constructor | exact I].
  - destruct Hl as [Hy Hl]. split.
    + apply List.Forall_app. split; [exact Hy|].
      constructor; [|constructor]. apply Hx. now left.
    + apply IH; [exact Hl|]. intros a Ha. apply Hx. now right.
Qed.

Lemma listed_once_later l a b l1 l2 :
  listed_once l -> l = (l1 ++ a :: l2)%list -> In b l2 ->
  provider_eqb (provider a) (provider b) = false.
Proof.
  revert l. induction l1 as [|y l1 IH]; intros l Hl -> Hb; simpl in Hl.
  - destruct Hl as [Ha _]. rewrite List.Forall_forall in Ha. auto.
  - destruct Hl as [_ Hl]. eapply IH; eauto.
Qed.

Lemma sorted_desc_listed_once l : listed_once l -> listed_once (sorted_desc l).
Proof.
  unfold sorted_desc. induction l as [|y l IH]; intros Hl; simpl; [exact I|].
  destruct Hl as [Hy Hl]. apply insert_desc_listed_once; [apply IH, Hl|].
  intros b Hb. apply (sorted_desc_In b l) in Hb.
  rewrite List.Forall_forall in Hy. auto.
Qed.

Lemma not_listed_yet e matches :
  already_listed e matches = false ->
  forall a, In a matches -> provider_eqb (provider a) e = false.
Proof.
  unfold already_listed. intros Hn a Ha.
  destruct (provider_eqb (provider a) e) eqn:E; [|reflexivity].
  assert (List.existsb (fun m => provider_eqb (provider m) e) matches = true)
    by (apply List.existsb_exists; eauto).
  congruence.
Qed.

Lemma dict_get_stored (ix : list (string * ScrapedProvider)) k e :
  dict_get k ix = Some e -> In e (List.map snd ix).
Proof.
  induction ix as [|[k' v] ix IH]; simpl; [discriminate|].
  destruct (String.eqb k k'); [intros [= ->]; now left | auto].
Qed.

Lemma sound_matches_nil d : sound_matches_of d [].
Proof. split; [intros m []| exact I]. Qed.

Lemma sound_matches_snoc d ms x :
  sound_matches_of d ms ->
  In (provider x) (get_all d) ->
  (8 # 10 < similarity_score x)%Q -> (similarity_score x <= 1)%Q ->
  already_listed (provider x) ms = false ->
  sound_matches_of d (ms ++ [x]).
Proof.
  intros [Hms Hl] Hin Hlo Hhi Hnew. split.
  - intros m Hm. apply List.in_app_or in Hm as [Hm | [<- | []]]; auto.
  - apply listed_once_snoc; [exact Hl|]. now apply not_listed_yet.
Qed.

Lemma fuzzy_pass_sound d p items :
  (forall k e, In (k, e) items -> In e (get_all d)) ->
  forall matches,
    sound_matches_of d matches ->
    sound_matches_of d (fuzzy_pass p items matches).
Proof.
  induction items as [|[k e] items IH]; intros Hitems matches Hs; [exact Hs|].
  cbn [fuzzy_pass]. apply IH; [intros k' e' H'; eapply Hitems; right; eauto|].
  destruct (String.eqb _ _); [|exact Hs].
  destruct (Qltb (8 # 10) (_name_similarity (name p) (name e))) eqn:Hq;
    [|exact Hs].
  destruct (already_listed e matches) eqn:Ha; [exact Hs|].
  cbn [negb]. apply sound_matches_snoc; cbn [provider similarity_score]; auto.
  - eapply Hitems. left. reflexivity.
  - now apply Qltb_lt.
  - apply similarity_range.
Qed.

Lemma index_items_stored (ix : list (string * ScrapedProvider)) k e :
  In (k, e) ix -> In e (List.map snd ix).
Proof. intros H. apply (List.in_map snd) in H. exact H. Qed.

(** [find_duplicates] only reports records held in the index, each with
    a score above 0.8 and at most 1, never the same record twice, in
    descending order of score; and it leaves the deduplicator as it was. *)
Theorem find_duplicates_sound (d d' : Deduplicator) (p : ScrapedProvider)
        (ms : list DuplicateMatch) :
  find_duplicates d p = (Ok ms, d') ->
  d' = d /\ sound_matches_of d ms /\ descending ms.
Proof.
  intros Hf. pose proof (find_duplicates_state d p) as Hst.
  rewrite Hf in Hst. cbn [snd] in Hst. split; [exact Hst|]. clear Hst.
  unfold find_duplicates in Hf.
  destruct (dict_get (provider_key p) (_index d)) as [e|] eqn:Hk.
  - injection Hf as Hms _. subst ms. split.
    + split; [|split; [constructor | exact I]].
      intros m [<- | []]. cbn [provider similarity_score].
      split; [eapply dict_get_stored; eauto|]. split; [reflexivity|discriminate].
    + split; [constructor | exact I].
  - set (after_phone :=
           match index_hit (phone p) (_phone_index d) with
           | Some existing_key =>
               match dict_get existing_key (_index d) with
               | Some e => Ok [{| provider := e; similarity_score := 9 # 10;
                                  match_reasons := ["phone"] |}]
               | None => Raise (KeyError existing_key)
               end
           | None => Ok []
           end) in Hf.
    assert (Hphone : forall ms1, after_phone = Ok ms1 -> sound_matches_of d ms1).
    { intros ms1. unfold after_phone.
      destruct (index_hit (phone p) (_phone_index d)) as [k1|].
      - destruct (dict_get k1 (_index d)) as [e1|] eqn:H1; [|discriminate].
        intros Heq. injection Heq as Heq. subst ms1.
        apply (sound_matches_snoc d [] _ (sound_matches_nil d));
          cbn [provider similarity_score]; try reflexivity.
        + eapply dict_get_stored; eauto.
        + discriminate.
      - intros Heq. injection Heq as Heq. subst ms1. apply sound_matches_nil. }
    destruct after_phone as [ms1|x]; [|discriminate].
    specialize (Hphone ms1 eq_refl).
    set (after_url :=
           match index_hit (website_url p) (_url_index d) with
           | Some existing_key =>
               match dict_get existing_key (_index d) with
               | Some e =>
                   if negb (already_listed e ms1)
                   then Ok (ms1 ++
                              [{| provider := e; similarity_score := 85 # 100;
                                  match_reasons := ["website"] |}])%list
                   else Ok ms1
               | None => Raise (KeyError existing_key)
               end
           | None => Ok ms1
           end) in Hf.
    assert (Hurl : forall ms2, after_url = Ok ms2 -> sound_matches_of d ms2).
    { intros ms2. unfold after_url.
      destruct (index_hit (website_url p) (_url_index d)) as [k2|].
      - destruct (dict_get k2 (_index d)) as [e2|] eqn:H2; [|discriminate].
        destruct (already_listed e2 ms1) eqn:Ha; cbn [negb];
          intros Heq; injection Heq as Heq; subst ms2; [exact Hphone|].
        apply sound_matches_snoc; cbn [provider similarity_score];
          try reflexivity; auto.
        + eapply dict_get_stored; eauto.
        + discriminate.
      - intros Heq. injection Heq as Heq. subst ms2. exact Hphone. }
    destruct after_url as [ms2|x]; [|discriminate].
    specialize (Hurl ms2 eq_refl). injection Hf as Hms. subst ms.
    pose proof (fuzzy_pass_sound d p (_index d)
                  (fun k e => index_items_stored (_index d) k e) ms2 Hurl)
      as [Hall Honce].
    split; [split|].
    + intros m Hm. apply Hall. now apply sorted_desc_In.
    + now apply sorted_desc_listed_once.
    + apply sorted_desc_descending.
Qed.

End SimilarityProperties.

(** ** [RateLimiter]: quota, isolation and feedback *)

Section RateLimiterProperties.
Import RateLimits.

Lemma quota_exceeded_limit source_type st lim :
  daily_limit (rate_limits_get source_type) = Some lim ->
  0 < lim
  /\ quota_exceeded (rate_limits_get source_type) st source_type
     = (lim <=? daily_count st source_type).
Proof.
  intros Hl. unfold quota_exceeded. rewrite Hl.
  destruct (rate_limits_get_cases source_type) as [E | [E | E]];
    rewrite E in Hl; simpl in Hl; try discriminate.
  injection Hl as <-. split; [lia | reflexivity].
Qed.

Lemma acquire_run_quota (source_type domain : string) (lim : Z)
        (times : list (Q * Q)) :
  daily_limit (rate_limits_get source_type) = Some lim ->
  forall st : RateLimiter,
    daily_count st source_type <= lim ->
    failure_count st domain < 1024 ->
    let room := Z.to_nat (lim - daily_count st source_type) in
    let r := acquire_run st source_type domain times in
    fst r = (List.repeat (Ok tt) (Nat.min room (List.length times))
             ++ List.repeat (Raise RateLimitExceeded)
                            (List.length times - room))%list
    /\ daily_count (snd r) source_type
       = Z.min lim (daily_count st source_type + Z.of_nat (List.length times)).
Proof.
  intros Hl. induction times as [|[now after] times IH]; intros st Hc Hfc.
  - cbv zeta. simpl. rewrite Nat.min_0_r. simpl. split; [reflexivity | lia].
  - cbv zeta. cbn [acquire_run fst snd List.length].
    destruct (quota_exceeded_limit source_type st lim Hl) as [Hpos Hq].
    destruct (table_interval_capped source_type 0) as [_ Hr].
    destruct (lim <=? daily_count st source_type) eqn:Hfull.
    + (* the quota is used up: this call and all later ones raise *)
      apply Z.leb_le in Hfull.
      destruct (acquire_with_exceeded _ st source_type domain now after Hq)
        as [Ho _].
      pose proof (acquire_with_exceeded_state _ st source_type domain now after
                    lim Hl Hpos Hq) as Hst.
      fold (acquire st source_type domain now after) in Ho, Hst.
      rewrite Ho, Hst. destruct (IH st Hc Hfc) as [Hos Hcount].
      rewrite Hos, Hcount.
      replace (Z.to_nat (lim - daily_count st source_type)) with 0%nat by lia.
      rewrite !Nat.sub_0_r. cbn [Nat.min List.repeat List.app].
      split; [reflexivity | lia].
    + (* there is room: the call is granted and counted *)
      apply Z.leb_gt in Hfull.
      destruct (acquire_with_granted _ st source_type domain now after
                  Hq Hr Hfc) as (Ho & _ & _ & _ & Hd & Hf).
      fold (acquire st source_type domain now after) in Ho, Hd, Hf.
      rewrite Ho.
      destruct (IH (limiter (acquire st source_type domain now after)))
        as [Hos Hcount]; [lia | lia |].
      rewrite Hos, Hcount, Hd.
      replace (Z.to_nat (lim - daily_count st source_type))
        with (S (Z.to_nat (lim - (daily_count st source_type + 1)))) by lia.
      simpl. split; [reflexivity | lia].
Qed.

(** Between two resets a source kind with a daily limit is granted
    exactly the requests its quota has room for: a run of [acquire]
    calls succeeds until the count reaches the limit and raises the
    quota error from then on, and the count stops at the limit. (The
    domain has fewer than 1024 recorded failures, beyond which the float
    power of the backoff overflows.) *)
Theorem daily_quota_is_enforced (source_type domain : string) (lim : Z)
        (times : list (Q * Q)) (st : RateLimiter) :
  daily_limit (rate_limits_get source_type) = Some lim ->
  daily_count st source_type <= lim ->
  failure_count st domain < 1024 ->
  let room := Z.to_nat (lim - daily_count st source_type) in
  let r := acquire_run st source_type domain times in
  fst r = (List.repeat (Ok tt) (Nat.min room (List.length times))
           ++ List.repeat (Raise RateLimitExceeded)
                          (List.length times - room))%list
  /\ daily_count (snd r) source_type
     = Z.min lim (daily_count st source_type + Z.of_nat (List.length times)).
Proof.
  intros Hl Hc Hfc.
  exact (acquire_run_quota source_type domain lim times Hl st Hc Hfc).
Qed.

(** After [reset_daily_counts] every source kind is granted again, and
    the reset touches neither the backoff state nor the request
    timestamps. (The domain has fewer than 1024 recorded failures.) *)
Theorem reset_reopens_the_quota (st : RateLimiter)
        (source_type domain : string) (now after : Q) :
  failure_count st domain < 1024 ->
  outcome (acquire (reset_daily_counts st) source_type domain now after) = Ok tt
  /\ daily_count (reset_daily_counts st) source_type = 0
  /\ failure_count (reset_daily_counts st) domain = failure_count st domain
  /\ last_request (reset_daily_counts st) domain = last_request st domain.
Proof.
  intros Hfc. split; [|repeat split].
  unfold acquire. destruct (table_interval_capped source_type 0) as [_ Hr].
  apply acquire_with_granted; [|exact Hr|exact Hfc].
  unfold quota_exceeded.
  destruct (daily_limit (rate_limits_get source_type)) as [lim|] eqn:Hl;
    [|reflexivity].
  destruct (quota_exceeded_limit source_type st lim Hl) as [Hpos _].
  apply andb_false_iff. right. apply Z.leb_gt.
  unfold daily_count, reset_daily_counts. simpl. rewrite lookup_empty. simpl.
  lia.
Qed.

Lemma dd_read_snd_other {V} (dflt : V) (m : gmap string V) k k' :
  k <> k' -> snd (dd_read dflt m k) !! k' = m !! k'.
Proof.
  intros Hne. unfold dd_read. destruct (m !! k); simpl; [reflexivity|].
  now rewrite lookup_insert_ne.
Qed.

Lemma daily_check_other config st source_type other :
  source_type <> other ->
  snd (daily_check config st source_type) !! other = _daily_counts st !! other.
Proof.
  intros Hne. unfold daily_check.
  destruct (daily_limit config) as [lim|]; [|reflexivity].
  destruct (truthy lim); [|reflexivity]. cbn [snd].
  now apply dd_read_snd_other.
Qed.

(** One domain's traffic never changes what the limiter holds for
    another domain, and one source kind's requests never count against
    another kind: [acquire], [record_success] and [record_failure] leave
    the other keys as they were. *)
Theorem limiter_keys_are_isolated (st : RateLimiter)
        (source_type domain other_kind other_domain : string) (now after : Q) :
  domain <> other_domain ->
  source_type <> other_kind ->
  let st' := limiter (acquire st source_type domain now after) in
  (_last_request st' !! other_domain = _last_request st !! other_domain
   /\ _request_counts st' !! other_domain = _request_counts st !! other_domain
   /\ _failure_counts st' !! other_domain = _failure_counts st !! other_domain
   /\ _daily_counts st' !! other_kind = _daily_counts st !! other_kind)
  /\ _failure_counts (record_failure st domain) !! other_domain
     = _failure_counts st !! other_domain
  /\ _failure_counts (record_success st domain) !! other_domain
     = _failure_counts st !! other_domain.
Proof.
  intros Hd Hs. cbv zeta. split; [|split].
  - unfold acquire, acquire_with. cbv zeta.
    destruct (fst (daily_check _ st source_type));
      [|destruct (requests_per_minute _ =? 0);
        [|destruct (backoff_overflows _)]];
      cbn [limiter _last_request _request_counts _failure_counts _daily_counts];
      rewrite ?lookup_insert_ne by assumption;
      rewrite ?dd_read_snd_other by assumption;
      rewrite ?daily_check_other by assumption;
      repeat split; reflexivity.
  - unfold record_failure. cbn [_failure_counts].
    rewrite lookup_insert_ne by assumption. now apply dd_read_snd_other.
  - unfold record_success. cbn [_failure_counts].
    now rewrite lookup_insert_ne.
Qed.

(** A granted [acquire] sleeps a non-negative time that brings the gap
    since the domain's previous request up to the minimum interval, and
    that interval is never below the configured delay nor below
    60/requests-per-minute. (Times are exact numbers; the domain has
    fewer than 1024 recorded failures.) *)
Theorem acquire_spaces_requests (st : RateLimiter)
        (source_type domain : string) (now after : Q) :
  failure_count st domain < 1024 ->
  let a := acquire st source_type domain now after in
  let config := rate_limits_get source_type in
  let min_interval := min_interval_of config (failure_count st domain) in
  outcome a = Ok tt ->
  (0 <= total_slept a)%Q
  /\ (min_interval <= (now - last_request st domain) + total_slept a)%Q
  /\ (delay_between_requests config <= min_interval)%Q
  /\ (60 / inject_Z (requests_per_minute config) <= min_interval)%Q.
Proof.
  intros Hfc. cbv zeta. intros Ho. unfold acquire in *.
  set (config := rate_limits_get source_type) in *.
  assert (Hq : quota_exceeded config st source_type = false).
  { destruct (quota_exceeded config st source_type) eqn:E; [|reflexivity].
    destruct (acquire_with_exceeded config st source_type domain now after E)
      as [Hx _]. congruence. }
  destruct (table_interval_capped source_type 0) as [_ Hr]. fold config in Hr.
  assert (Hbase : (delay_between_requests config
                   <= min_interval_of config (failure_count st domain))%Q
                  /\ (60 / inject_Z (requests_per_minute config)
                      <= min_interval_of config (failure_count st domain))%Q).
  { unfold min_interval_of.
    set (base := (60 / inject_Z (requests_per_minute config))%Q).
    set (dl := delay_between_requests config).
    destruct (0 <? failure_count st domain).
    - set (b := backoff_delay (failure_count st domain)).
      destruct (py_max_spec base b) as [[? ->] | [? ->]];
        match goal with
        | |- context [py_max ?u ?v] =>
            destruct (py_max_spec u v) as [[? ->] | [? ->]]
        end; split; lra.
    - destruct (py_max_spec base dl) as [[? ->] | [? ->]]; split; lra. }
  destruct Hbase as [Hb1 Hb2].
  destruct (slept_granted config st source_type domain now after Hq Hr Hfc)
    as [[Hlt Hsl] | [Hge Hsl]]; rewrite Hsl; repeat split; try assumption; lra.
Qed.

Lemma fail_times_reads n st domain :
  failure_count (fail_times n st domain) domain
  = failure_count st domain + Z.of_nat n
  /\ _last_request (fail_times n st domain) = _last_request st
  /\ _request_counts (fail_times n st domain) = _request_counts st
  /\ _daily_counts (fail_times n st domain) = _daily_counts st.
Proof.
  induction n as [|n IH]; [simpl; repeat split; lia|].
  destruct IH as (Hf & Hl & Hr & Hd). cbn [fail_times].
  destruct (record_failure_reads (fail_times n st domain) domain) as [Hf' _].
  rewrite Hf', Hf. unfold record_failure.
  cbn [_last_request _request_counts _daily_counts].
  repeat split; auto; lia.
Qed.

(** Failures add up and one success wipes them out: after [n] calls of
    [record_failure] the domain's failure count has grown by [n], a
    [record_success] then brings it to 0, and neither call touches the
    timestamps or the request and daily counters. *)
Theorem feedback_counts_failures (st : RateLimiter) (domain : string) (n : nat) :
  failure_count (fail_times n st domain) domain
  = failure_count st domain + Z.of_nat n
  /\ failure_count (record_success (fail_times n st domain) domain) domain = 0
  /\ _last_request (record_success (fail_times n st domain) domain)
     = _last_request st
  /\ _request_counts (record_success (fail_times n st domain) domain)
     = _request_counts st
  /\ _daily_counts (record_success (fail_times n st domain) domain)
     = _daily_counts st.
Proof.
  destruct (fail_times_reads n st domain) as (Hf & Hl & Hr & Hd).
  split; [exact Hf|]. unfold record_success, failure_count.
  cbn [_failure_counts _last_request _request_counts _daily_counts].
  rewrite lookup_insert_eq. repeat split; auto.
Qed.

End RateLimiterProperties.

(** ** [HttpClient]: constructor defaults, quota errors and feedback *)

Section HttpProperties.
Import RateLimits Http.
Context {U : UrlParse}.

(** Passing [max_retries=0] does not switch the request off: the
    constructor's [or] replaces 0 by the default, so that a client built
    with 0 still makes three attempts against a network that always
    fails. No constructor argument gives a client with 0 retries. (The
    quota has room for the attempts, and the domain's failure count
    stays within 1024.) *)
Theorem zero_retries_become_three
        (timeout_arg : option Z) (net : Z -> net_outcome)
        (target source_type : string) (w : World) :
  quota_left w source_type 3 ->
  failure_count (rate_limiter w) (urlparse_netloc target) + 3 <= 1024 ->
  (forall i, 0 <= i < 3 -> is_exception (net i) = true) ->
  let c := HttpClient_init timeout_arg (Some 0) in
  max_retries c = 3
  /\ (forall m, max_retries (HttpClient_init timeout_arg m) <> 0)
  /\ fst (get c net target source_type w) = Raise HttpError
  /\ count_events is_request (snd (get c net target source_type w))
     = (count_events is_request w + 3)%nat.
Proof.
  intros Hq Hb Hall. cbv zeta. split; [reflexivity|]. split.
  - intros [m|]; [|vm_compute; discriminate].
    destruct (Z.eq_dec m 0) as [-> | Hne]; [vm_compute; discriminate|].
    unfold HttpClient_init, py_or, truthy, truthy_option, truthy, truthy_Z.
    cbn [max_retries]. rewrite (proj2 (Z.eqb_neq m 0) Hne). exact Hne.
  - unfold get. cbn [HttpClient_init session_open negb max_retries].
    change (Z.to_nat (default http_max_retries
                        (py_or (Some 0) (Some http_max_retries)))) with 3%nat.
    destruct (attempts_all_exceptions
                (HttpClient_init timeout_arg (Some 0)) net target source_type
                (urlparse_netloc target) 3 0 w Hq)
      as (H1 & H2 & _); [right; exact Hb | intros i Hi; apply Hall; lia|].
    split; assumption.
Qed.

Lemma do_acquire_refused w source_type domain :
  quota_exceeded (rate_limits_get source_type) (rate_limiter w) source_type
  = true ->
  fst (do_acquire w source_type domain) = Raise RateLimitExceeded
  /\ rate_limiter (snd (do_acquire w source_type domain)) = rate_limiter w
  /\ (forall f, ignores_waiting f ->
                count_events f (snd (do_acquire w source_type domain))
                = count_events f w).
Proof.
  intros Hq. split; [|split].
  - unfold do_acquire. cbn [fst]. unfold acquire.
    now apply acquire_with_exceeded.
  - unfold do_acquire. cbn [snd rate_limiter]. unfold acquire.
    destruct (daily_limit (rate_limits_get source_type)) as [lim|] eqn:Hl.
    + destruct (quota_exceeded_limit source_type (rate_limiter w) lim Hl)
        as [Hpos _].
      eapply acquire_with_exceeded_state; eauto.
    + unfold quota_exceeded in Hq. rewrite Hl in Hq. discriminate.
  - intros f Hf. now apply do_acquire_count.
Qed.

(** When the day's quota of the source kind is used up, [get] makes no
    request at all: the quota error of [acquire] leaves [get] uncaught,
    no feedback is recorded and the limiter is as it was. *)
Theorem exhausted_quota_stops_get
        (c : HttpClient) (net : Z -> net_outcome)
        (target source_type : string) (w : World) :
  session_open c = true ->
  0 < max_retries c ->
  quota_exceeded (rate_limits_get source_type) (rate_limiter w) source_type
  = true ->
  let r := get c net target source_type w in
  fst r = Raise RateLimitExceeded
  /\ rate_limiter (snd r) = rate_limiter w
  /\ count_events is_request (snd r) = count_events is_request w
  /\ count_events is_record_failure (snd r) = count_events is_record_failure w
  /\ count_events is_record_success (snd r) = count_events is_record_success w.
Proof.
  intros Hs Hm Hq. cbv zeta. unfold get. rewrite Hs. cbn [negb].
  destruct (Z.to_nat (max_retries c)) as [|n] eqn:Hn; [lia|].
  cbn [attempts].
  destruct (do_acquire_refused w source_type (urlparse_netloc target) Hq)
    as (Ho & Hst & Hc).
  destruct (do_acquire w source_type (urlparse_netloc target)) as [o w1].
  cbn [fst snd] in *. subst o. cbn [fst snd].
  repeat split; auto using ignores_waiting_request, ignores_waiting_failure,
                           ignores_waiting_success.
Qed.

(** [get] drives the limiter's backoff: a call that runs out of retries
    leaves the domain's failure count higher by the number of attempts;
    a call that ends with a 2xx response leaves it at 0, whatever it was
    and however many attempts failed before; a call that ends with
    another status leaves it higher by the failed attempts plus one.
    (The quota has room for the attempts, and the domain's failure count
    stays within 1024.) *)
Theorem get_feeds_the_backoff
        (c : HttpClient) (net : Z -> net_outcome)
        (target source_type : string) (w : World) :
  session_open c = true ->
  quota_left w source_type (Z.to_nat (max_retries c)) ->
  failure_count (rate_limiter w) (urlparse_netloc target) + max_retries c
  <= 1024 ->
  let domain := urlparse_netloc target in
  let after := rate_limiter (snd (get c net target source_type w)) in
  ((forall i, 0 <= i < max_retries c -> is_exception (net i) = true) ->
   failure_count after domain
   = failure_count (rate_limiter w) domain + Z.of_nat (Z.to_nat (max_retries c)))
  /\ (forall (k : nat) u s t h d,
         Z.of_nat k < max_retries c ->
         (forall i, 0 <= i < Z.of_nat k -> is_exception (net i) = true) ->
         net (Z.of_nat k) = NetResponse u s t h d ->
         failure_count after domain
         = if (200 <=? s) && (s <? 300) then 0
           else failure_count (rate_limiter w) domain + Z.of_nat k + 1).
Proof.
  intros Hs Hq Hb. cbv zeta. unfold get. rewrite Hs. cbn [negb]. split.
  - intros Hall.
    destruct (attempts_all_exceptions c net target source_type
                (urlparse_netloc target) (Z.to_nat (max_retries c)) 0 w Hq)
      as (_ & _ & _ & _ & Hf).
    + destruct (Z.to_nat (max_retries c)) eqn:E; [now left | right; lia].
    + intros i Hi. apply Hall. lia.
    + exact Hf.
  - intros k u s t h d Hk Hall Hn.
    destruct (attempts_response_after c net target source_type
                (urlparse_netloc target) u s t h d k
                (Z.to_nat (max_retries c)) 0 w)
      as (resp & _ & _ & _ & _ & _ & _ & _ & Hf); auto; lia.
Qed.

(** [get_json] never hands over the body of a failed request: if the
    response [get] returns is not 2xx it raises [HttpError]; if it is, the
    result is what [json.loads] makes of the body. (The quota has room,
    and the domain has fewer than 1024 recorded failures.) *)
Theorem get_json_checks_the_status
        {A : Type} {J : JsonParser A}
        (c : HttpClient) (net : Z -> net_outcome)
        (target source_type : string) (w : World) (u t : string) (s : Z)
        (h : list (string * string)) (d : Q) :
  session_open c = true ->
  quota_left w source_type (Z.to_nat (max_retries c)) ->
  failure_count (rate_limiter w) (urlparse_netloc target) < 1024 ->
  0 < max_retries c ->
  net 0 = NetResponse u s t h d ->
  fst (get_json c net target source_type w)
  = if (200 <=? s) && (s <? 300)
    then match json_loads t with
         | Some v => JsonValue v
         | None => JsonDecodeError
         end
    else JsonRaise HttpError.
Proof.
  intros Hs Hq Hb Hm Hn. unfold get_json.
  assert (Hget : exists resp,
             fst (get c net target source_type w) = Ok resp
             /\ content resp = t /\ ok resp = (200 <=? s) && (s <? 300)).
  { unfold get. rewrite Hs. cbn [negb].
    destruct (attempts_response_after c net target source_type
                (urlparse_netloc target) u s t h d 0
                (Z.to_nat (max_retries c)) 0 w)
      as (resp & H1 & _ & H3 & H4 & _); auto; try lia.
    eauto. }
  destruct Hget as (resp & Hr & Hc & Hok).
  destruct (get c net target source_type w) as [o w']. cbn [fst] in Hr.
  subst o. rewrite Hok, Hc.
  destruct ((200 <=? s) && (s <? 300)); cbn [negb fst]; [|reflexivity].
  destruct (json_loads t); reflexivity.
Qed.

Lemma attempts_counts c net target source_type domain remaining :
  forall attempt w,
    let w' := snd (attempts c net target source_type domain remaining attempt w) in
    (count_events is_request w' <= count_events is_request w + remaining)%nat
    /\ (count_events is_request w' + count_events is_record_failure w
        + count_events is_record_success w
        = count_events is_request w + count_events is_record_failure w'
          + count_events is_record_success w')%nat.
Proof.
  induction remaining as [|n IH]; intros attempt w; cbv zeta.
  - simpl. lia.
  - cbn [attempts].
    pose proof (do_acquire_count is_request w source_type domain
                  ignores_waiting_request) as Hr.
    pose proof (do_acquire_count is_record_failure w source_type domain
                  ignores_waiting_failure) as Hf.
    pose proof (do_acquire_count is_record_success w source_type domain
                  ignores_waiting_success) as Hs.
    destruct (do_acquire w source_type domain) as [[[]|e] w1]; cbn [snd] in *;
      [|lia].
    assert (Hexc : forall took,
               let w2 := do_record (advance w1 took target) false domain in
               let w3 := if attempt <? max_retries c - 1
                         then sleep w2 (2 ^ attempt)%Q else w2 in
               let w' := snd (attempts c net target source_type domain n
                                       (attempt + 1) w3) in
               (count_events is_request w' <= count_events is_request w + S n)%nat
               /\ (count_events is_request w' + count_events is_record_failure w
                   + count_events is_record_success w
                   = count_events is_request w + count_events is_record_failure w'
                     + count_events is_record_success w')%nat).
    { intros took w2 w3.
      assert (H3 : forall f, ignores_waiting f ->
                             count_events f w3 = count_events f w2).
      { intros f Hf'. unfold w3. destruct (attempt <? max_retries c - 1);
          [now apply sleep_count | reflexivity]. }
      destruct (IH (attempt + 1) w3) as [IH1 IH2].
      rewrite (H3 _ ignores_waiting_request) in IH1, IH2.
      rewrite (H3 _ ignores_waiting_failure), (H3 _ ignores_waiting_success)
        in IH2.
      unfold w2 in IH1, IH2.
      repeat (rewrite do_record_count in IH1 || rewrite advance_count in IH1).
      repeat (rewrite do_record_count in IH2 || rewrite advance_count in IH2).
      cbn [is_request is_record_failure is_record_success] in IH1, IH2.
      cbv zeta. split; lia. }
    destruct (net attempt) as [u s t h d | took | took];
      [|apply Hexc | apply Hexc].
    cbn [snd]. repeat (rewrite do_record_count || rewrite advance_count).
    cbn [is_request is_record_failure is_record_success].
    match goal with |- context [ok ?r] => destruct (ok r) end;
      cbn [is_request is_record_failure is_record_success]; split; lia.
Qed.

(** Whatever the limiter does, and whether the network answers or
    raises one of the two exceptions [get] catches, one [get] makes at
    most [max_retries] requests, and every request it makes is reported
    to the limiter exactly once, as a success or as a failure. *)
Theorem get_stays_within_its_retries
        (c : HttpClient) (net : Z -> net_outcome)
        (target source_type : string) (w : World) :
  let w' := snd (get c net target source_type w) in
  (count_events is_request w'
   <= count_events is_request w + Z.to_nat (max_retries c))%nat
  /\ (count_events is_request w' + count_events is_record_failure w
      + count_events is_record_success w
      = count_events is_request w + count_events is_record_failure w'
        + count_events is_record_success w')%nat.
Proof.
  cbv zeta. unfold get. destruct (negb (session_open c)); [simpl; lia|].
  apply attempts_counts.
Qed.

End HttpProperties.

(** ** [RobotsChecker]: misses, the disk cache and crawl delays *)

Section RobotsProperties.
Import Robots.
Context {U : UrlParse} {R : RobotParser}.

Lemma get_entry_on_miss c target net t :
  cache_miss c target t ->
  _get_entry c target net t
  = (let r := _fetch_robots c target net t in
     match fst r with
     | Some entry =>
         (entry,
          with_cache (snd r) (<[_get_domain target := entry]> (_cache (snd r))),
          [_get_robots_url target])
     | None =>
         (allow_all_entry (at_fetched t),
          with_cache (snd r)
            (<[_get_domain target := allow_all_entry (at_fetched t)]>
               (_cache (snd r))),
          [_get_robots_url target])
     end).
Proof.
  intros [Hmem Hdisk]. unfold _get_entry.
  assert (Hm : match _cache c !! _get_domain target with
               | Some entry =>
                   if at_memory_check t - fetched_at entry <? cache_ttl c
                   then Some entry else None
               | None => None
               end = None).
  { destruct (_cache c !! _get_domain target) as [e|] eqn:He; [|reflexivity].
    specialize (Hmem e eq_refl).
    destruct (Z.ltb_spec (at_memory_check t - fetched_at e) (cache_ttl c));
      [lia | reflexivity]. }
  rewrite Hm.
  assert (Hd : _load_from_disk c (_get_domain target) (at_disk_check t) = None).
  { unfold _load_from_disk.
    destruct (_cache_dir c !! _get_cache_path (_get_domain target)) as [f|] eqn:Hf;
      [|reflexivity].
    specialize (Hdisk f eq_refl). apply Z.ltb_lt in Hdisk. now rewrite Hdisk. }
  rewrite Hd. cbv zeta.
  destruct (_fetch_robots c target net t) as [[e|] c']; reflexivity.
Qed.

(** When neither the memory nor the disk holds a valid entry, a call
    fetches robots.txt exactly once, and the entry it leaves in memory
    is stamped with the time of that fetch, so that it is fresh again. *)
Theorem stale_entry_is_refetched_once
        (c : RobotsChecker) (target : string) (net : robots_response)
        (t : readings) :
  cache_miss c target t ->
  let r := _get_entry c target net t in
  snd r = [_get_robots_url target]
  /\ fetched_at (fst (fst r)) = at_fetched t
  /\ _cache (snd (fst r)) !! _get_domain target = Some (fst (fst r)).
Proof.
  intros Hmiss. cbv zeta. rewrite (get_entry_on_miss c target net t Hmiss).
  unfold _fetch_robots. destruct net; cbn [fst snd with_cache _cache];
    rewrite lookup_insert_eq; repeat split.
Qed.

(** The checker fails open: on a miss, if robots.txt cannot be fetched or
    comes back with a status other than 200, every URL may be fetched by
    every agent and no crawl delay is asked for. *)
Theorem broken_robots_allows_everything
        (c : RobotsChecker) (target : string) (agent : option string)
        (net : robots_response) (t : readings) :
  cache_miss c target t ->
  (forall text, net <> Status200 text) ->
  fst (fst (can_fetch c target agent net t)) = true
  /\ fst (fst (get_crawl_delay c target net t)) = None.
Proof.
  intros Hmiss Hnet. unfold can_fetch, get_crawl_delay.
  rewrite (get_entry_on_miss c target net t Hmiss).
  unfold _fetch_robots.
  destruct net as [text| |]; [exfalso; eapply Hnet; reflexivity| |];
    cbn [fst snd]; destruct (respect_robots_txt c); split; reflexivity.
Qed.



Lemma replace_char_safe a s :
  Ascii.eqb "_"%char a = false ->
  PyStr.all_chars (fun c => negb (Ascii.eqb c a)) (replace_char a "_"%char s)
  = true.
Proof.
  intros Ha. induction s as [|c s IH]; [reflexivity|].
  cbn [replace_char PyStr.all_chars].
  destruct (Ascii.eqb c a) eqn:E; [rewrite Ha | rewrite E]; exact IH.
Qed.

Lemma replace_char_keeps_safe a b s :
  Ascii.eqb "_"%char b = false ->
  PyStr.all_chars (fun c => negb (Ascii.eqb c b)) s = true ->
  PyStr.all_chars (fun c => negb (Ascii.eqb c b)) (replace_char a "_"%char s)
  = true.
Proof.
  intros Hb. induction s as [|c s IH]; simpl; [reflexivity|].
  intros H. apply andb_true_iff in H as [Hc Hs]. rewrite IH by exact Hs.
  destruct (Ascii.eqb c a); [now rewrite Hb | now rewrite Hc].
Qed.

(** The name of a cache file never holds a colon or a slash, whatever
    the domain (a port or a stray path cannot leave the cache
    directory). *)
Theorem cache_path_has_no_separator (domain : string) :
  PyStr.all_chars is_path_safe (_get_cache_path domain) = true.
Proof.
  unfold _get_cache_path.
  assert (Hall : forall s t,
             PyStr.all_chars is_path_safe (s ++ t)
             = PyStr.all_chars is_path_safe s && PyStr.all_chars is_path_safe t).
  { intros s t. induction s as [|c s IH]; simpl; [reflexivity|].
    now rewrite IH, andb_assoc. }
  rewrite Hall. apply andb_true_iff. split; [|reflexivity].
  set (inner := replace_char ":"%char "_"%char domain).
  assert (Hcolon : PyStr.all_chars (fun c => negb (Ascii.eqb c ":"%char)) inner
                   = true).
  { unfold inner. now apply replace_char_safe. }
  assert (Hcolon' : PyStr.all_chars (fun c => negb (Ascii.eqb c ":"%char))
                      (replace_char "/"%char "_"%char inner) = true).
  { apply replace_char_keeps_safe; [reflexivity | exact Hcolon]. }
  assert (Hslash : PyStr.all_chars (fun c => negb (Ascii.eqb c "/"%char))
                     (replace_char "/"%char "_"%char inner) = true).
  { now apply replace_char_safe. }
  revert Hcolon' Hslash.
  generalize (replace_char "/"%char "_"%char inner). intros s.
  induction s as [|c s IH]; simpl; [reflexivity|].
  intros H1 H2. apply andb_true_iff in H1 as [Ha Hb].
  apply andb_true_iff in H2 as [Hc Hd].
  unfold is_path_safe at 1. rewrite Ha, Hc. simpl. now apply IH.
Qed.

Lemma extract_crawl_delay_fold lines acc :
  List.fold_left
    (fun acc line =>
       match PyStr.strip_prefix "crawl-delay:" (PyStr.lower line) with
       | Some _ =>
           match parse_float (PyStr.strip (after_colon line)) with
           | Some q => Some q
           | None => acc
           end
       | None => acc
       end) lines acc
  = List.fold_left
      (fun acc line => match delay_of_line line with
                       | Some q => Some q
                       | None => acc
                       end) lines acc.
Proof.
  revert acc. induction lines as [|l lines IH]; intros acc; [reflexivity|].
  cbn [List.fold_left]. rewrite IH. f_equal. unfold delay_of_line.
  destruct (PyStr.strip_prefix _ _); reflexivity.
Qed.

Lemma fold_no_delay lines acc :
  (forall l, In l lines -> delay_of_line l = None) ->
  List.fold_left
    (fun acc line => match delay_of_line line with
                     | Some q => Some q
                     | None => acc
                     end) lines acc = acc.
Proof.
  revert acc. induction lines as [|l lines IH]; intros acc Hn; [reflexivity|].
  cbn [List.fold_left]. rewrite (Hn l (or_introl eq_refl)). apply IH.
  intros l' Hl'. apply Hn. now right.
Qed.

(** The crawl delay is the value of the last crawl-delay line that
    parses as a number; lines that do not parse are passed over, and a
    file without such a line gives no delay. *)
Theorem last_crawl_delay_line_wins (before after : list string) (line : string)
        (q : Q) :
  delay_of_line line = Some q ->
  (forall l, In l after -> delay_of_line l = None) ->
  extract_crawl_delay (before ++ line :: after) = Some q
  /\ extract_crawl_delay after = None.
Proof.
  intros Hq Hafter. unfold extract_crawl_delay.
  rewrite !extract_crawl_delay_fold. split.
  - rewrite List.fold_left_app. cbn [List.fold_left]. rewrite Hq.
    now apply fold_no_delay.
  - now apply fold_no_delay.
Qed.

End RobotsProperties.

(** ** The properties above on concrete inputs *)

Section PropertyInstances.
Import PyStr Hash Schemas Provider Dedup RateLimits Http Robots.


Lemma provider_key_ignores_punctuation_instance :
  generate_provider_key "Joe's Spa" "123 Main St" "Miami"
  = generate_provider_key "Joes Spa" "123 Main St" "Miami".
Proof.
  exact (provider_key_ignores_punctuation "Joe" "s Spa" "123 Main St" "Miami"
           "'"%char eq_refl eq_refl eq_refl eq_refl eq_refl).
Defined.

Lemma merge_loses_nothing_instance :
  List.length (sources (merge_fields website_sighting maps_sighting)) = 2%nat.
Proof.
  assert (H : merge website_sighting maps_sighting
              = Ok (merge_fields website_sighting maps_sighting))
    by (vm_compute; reflexivity).
  exact (proj1 (proj2 (proj2 (merge_loses_nothing _ _ _ H)))).
Defined.

Lemma merge_tie_keeps_existing_instance :
  merge phone_first phone_second = Ok (merge_fields phone_first phone_second).
Proof.
  exact (proj1 (merge_tie_keeps_existing phone_first phone_second eq_refl)).
Defined.

Lemma add_twice_is_a_merge_instance :
  exists m d2,
    add (snd (add Dedup.init phone_first)) phone_first = (Ok (false, m), d2)
    /\ merge phone_first phone_first = Ok m
    /\ count d2 = count (snd (add Dedup.init phone_first)).
Proof.
  apply (add_twice_is_a_merge Dedup.init (snd (add Dedup.init phone_first))
           phone_first (true, phone_first)).
  vm_compute. reflexivity.
Defined.

Lemma add_all_counts_new_records_instance :
  count (snd (add_all Dedup.init [phone_first; phone_second])) = 1.
Proof.
  assert (H : add_all Dedup.init [phone_first; phone_second]
              = (Ok [(true, phone_first);
                     (false, merge_fields phone_first phone_second)],
                 snd (add_all Dedup.init [phone_first; phone_second])))
    by (vm_compute; reflexivity).
  exact (proj1 (proj2 (add_all_counts_new_records _ _ _ _ H))).
Defined.

Lemma find_after_add_is_exact_instance :
  find_duplicates (snd (add Dedup.init phone_first)) phone_first
  = (Ok [exact_match phone_first], snd (add Dedup.init phone_first)).
Proof.
  apply (find_after_add_is_exact Dedup.init _ phone_first phone_first true).
  - vm_compute. reflexivity.
  - left. reflexivity.
Defined.

Lemma name_similarity_bounds_and_symmetry_instance :
  (_name_similarity "Test Spa" "Test Spa" == 1)%Q.
Proof.
  apply (proj2 (proj2 (name_similarity_bounds_and_symmetry "Test Spa" "Test Spa"))).
  vm_compute. discriminate.
Defined.

Lemma find_duplicates_sound_instance :
  sound_matches_of (snd (add Dedup.init single_spaced))
    [{| provider := single_spaced; similarity_score := 2 # 2;
        match_reasons := ["fuzzy_name"] |}]
  /\ descending [{| provider := single_spaced; similarity_score := 2 # 2;
                    match_reasons := ["fuzzy_name"] |}].
Proof.
  assert (H : find_duplicates (snd (add Dedup.init single_spaced)) double_spaced
              = (Ok [{| provider := single_spaced; similarity_score := 2 # 2;
                        match_reasons := ["fuzzy_name"] |}],
                 snd (add Dedup.init single_spaced)))
    by (vm_compute; reflexivity).
  exact (proj2 (find_duplicates_sound _ _ _ _ H)).
Defined.

Lemma daily_quota_is_enforced_instance :
  fst (acquire_run (with_daily_count RateLimits.init "google_places" 4999)
                   "google_places" "maps.example.com"
                   [(0, 0); (2, 2); (4, 4)]%Q)
  = [Ok tt; Raise RateLimitExceeded; Raise RateLimitExceeded].
Proof.
  assert (Hc : daily_count (with_daily_count RateLimits.init "google_places" 4999)
                           "google_places" <= 5000)
    by (vm_compute; discriminate).
  assert (Hf : failure_count (with_daily_count RateLimits.init "google_places" 4999)
                             "maps.example.com" < 1024)
    by (vm_compute; reflexivity).
  exact (proj1 (daily_quota_is_enforced "google_places" "maps.example.com" 5000
                  [(0, 0); (2, 2); (4, 4)]%Q
                  (with_daily_count RateLimits.init "google_places" 4999)
                  eq_refl Hc Hf)).
Defined.

Lemma reset_reopens_the_quota_instance :
  outcome (acquire (reset_daily_counts
                      (with_daily_count RateLimits.init "google_places" 5000))
                   "google_places" "maps.example.com" 0 0) = Ok tt.
Proof.
  assert (Hf : failure_count (with_daily_count RateLimits.init "google_places" 5000)
                             "maps.example.com" < 1024)
    by (vm_compute; reflexivity).
  exact (proj1 (reset_reopens_the_quota _ "google_places" "maps.example.com"
                  0 0 Hf)).
Defined.

Lemma limiter_keys_are_isolated_instance :
  _failure_counts (record_failure RateLimits.init "a.com") !! "b.com"
  = _failure_counts RateLimits.init !! "b.com".
Proof.
  assert (Hd : "a.com" <> "b.com") by discriminate.
  assert (Hk : "website" <> "directory") by discriminate.
  exact (proj1 (proj2 (limiter_keys_are_isolated RateLimits.init "website" "a.com"
                         "directory" "b.com" 0 0 Hd Hk))).
Defined.

(** One second after a request to the domain: the interval is 6 seconds
    and [acquire] sleeps the 5 that are missing. *)
Lemma acquire_spaces_requests_instance :
  let st := limiter (acquire RateLimits.init "website" "x.com" 100 100) in
  let a := acquire st "website" "x.com" 101 106 in
  let config := rate_limits_get "website" in
  let min_interval := min_interval_of config (failure_count st "x.com") in
  ((min_interval == 6)%Q /\ (total_slept a == 5)%Q)
  /\ (0 <= total_slept a)%Q
  /\ (min_interval <= (101 - last_request st "x.com") + total_slept a)%Q
  /\ (delay_between_requests config <= min_interval)%Q
  /\ (60 / inject_Z (requests_per_minute config) <= min_interval)%Q.
Proof.
  cbv zeta.
  assert (Hf : failure_count
                 (limiter (acquire RateLimits.init "website" "x.com" 100 100))
                 "x.com" < 1024)
    by (vm_compute; reflexivity).
  assert (Ho : outcome
                 (acquire
                    (limiter (acquire RateLimits.init "website" "x.com" 100 100))
                    "website" "x.com" 101 106) = Ok tt)
    by (vm_compute; reflexivity).
  split; [split; vm_compute; reflexivity|].
  exact (acquire_spaces_requests
           (limiter (acquire RateLimits.init "website" "x.com" 100 100))
           "website" "x.com" 101 106 Hf Ho).
Defined.

Lemma zero_retries_become_three_instance :
  fst (get (U := plain_urlparse) (HttpClient_init None (Some 0)) always_timeout
           "https://x.com/a" "website" fresh_world) = Raise HttpError.
Proof.
  assert (Hf : failure_count (rate_limiter fresh_world)
                 (urlparse_netloc (UrlParse := plain_urlparse) "https://x.com/a")
               + 3 <= 1024)
    by (vm_compute; discriminate).
  exact (proj1 (proj2 (proj2
           (zero_retries_become_three (U := plain_urlparse) None always_timeout
              "https://x.com/a" "website" fresh_world I Hf
              (fun i _ => eq_refl))))).
Defined.

Lemma exhausted_quota_stops_get_instance :
  fst (get (U := plain_urlparse) (HttpClient_init None None) always_timeout
           "https://maps.example.com/api" "google_places"
           {| rate_limiter := with_daily_count RateLimits.init "google_places" 5000;
              clock := 0; trace := [] |}) = Raise RateLimitExceeded.
Proof.
  assert (Hpos : 0 < max_retries (HttpClient_init None None))
    by (vm_compute; reflexivity).
  exact (proj1 (exhausted_quota_stops_get (U := plain_urlparse)
                  (HttpClient_init None None) always_timeout
                  "https://maps.example.com/api" "google_places"
                  {| rate_limiter :=
                       with_daily_count RateLimits.init "google_places" 5000;
                     clock := 0; trace := [] |}
                  eq_refl Hpos eq_refl)).
Defined.

Lemma get_feeds_the_backoff_instance :
  failure_count
    (rate_limiter (snd (get (U := plain_urlparse) (HttpClient_init None None)
                            always_timeout "https://x.com/a" "website"
                            fresh_world)))
    "x.com" = 3.
Proof.
  assert (Hf : failure_count (rate_limiter fresh_world)
                 (urlparse_netloc (UrlParse := plain_urlparse) "https://x.com/a")
               + max_retries (HttpClient_init None None) <= 1024)
    by (vm_compute; discriminate).
  exact (proj1 (get_feeds_the_backoff (U := plain_urlparse)
                  (HttpClient_init None None) always_timeout
                  "https://x.com/a" "website" fresh_world eq_refl I Hf)
               (fun i _ => eq_refl)).
Defined.

Lemma get_json_checks_the_status_instance :
  fst (get_json (U := plain_urlparse) (J := boolean_json)
                (HttpClient_init None None)
                (fun _ => NetResponse "https://x.com/a" 200 "true" [] 0)
                "https://x.com/a" "website" fresh_world)
  = JsonValue true.
Proof.
  assert (Hf : failure_count (rate_limiter fresh_world)
                 (urlparse_netloc (UrlParse := plain_urlparse) "https://x.com/a")
               < 1024)
    by (vm_compute; reflexivity).
  assert (Hpos : 0 < max_retries (HttpClient_init None None))
    by (vm_compute; reflexivity).
  exact (get_json_checks_the_status (U := plain_urlparse) (J := boolean_json)
           (HttpClient_init None None)
           (fun _ => NetResponse "https://x.com/a" 200 "true" [] 0)
           "https://x.com/a" "website" fresh_world
           "https://x.com/a" "true" 200 [] 0 eq_refl I Hf Hpos eq_refl).
Defined.

Lemma stale_entry_is_refetched_once_instance :
  snd (_get_entry (U := plain_urlparse) (R := permissive_parser)
                  (Robots.init true "OpenSlots-Scraper/0.1" 24 ∅)
                  "https://x.com/page" (Status200 "User-agent: *")
                  {| at_memory_check := 0; at_disk_check := 1;
                     at_file_write := 2; at_fetched := 3 |})
  = ["https://x.com/robots.txt"].
Proof.
  assert (Hmiss : cache_miss (U := plain_urlparse)
                    (Robots.init true "OpenSlots-Scraper/0.1" 24 ∅)
                    "https://x.com/page"
                    {| at_memory_check := 0; at_disk_check := 1;
                       at_file_write := 2; at_fetched := 3 |}).
  { split; intros e He; vm_compute in He; discriminate. }
  exact (proj1 (stale_entry_is_refetched_once (U := plain_urlparse)
                  (R := permissive_parser) _ _ (Status200 "User-agent: *") _
                  Hmiss)).
Defined.

Lemma broken_robots_allows_everything_instance :
  fst (fst (can_fetch (U := plain_urlparse) (R := permissive_parser)
                      (Robots.init true "OpenSlots-Scraper/0.1" 24 ∅)
                      "https://x.com/page" None FetchFailed
                      {| at_memory_check := 0; at_disk_check := 1;
                         at_file_write := 2; at_fetched := 3 |})) = true.
Proof.
  assert (Hmiss : cache_miss (U := plain_urlparse)
                    (Robots.init true "OpenSlots-Scraper/0.1" 24 ∅)
                    "https://x.com/page"
                    {| at_memory_check := 0; at_disk_check := 1;
                       at_file_write := 2; at_fetched := 3 |}).
  { split; intros e He; vm_compute in He; discriminate. }
  assert (Hnet : forall text, FetchFailed <> Status200 text) by discriminate.
  exact (proj1 (broken_robots_allows_everything (U := plain_urlparse)
                  (R := permissive_parser) _ _ None FetchFailed _ Hmiss Hnet)).
Defined.


Lemma last_crawl_delay_line_wins_instance :
  extract_crawl_delay (R := whole_number_parser)
    ["User-agent: *"; "Crawl-delay: 5"; "crawl-delay: 10"; "Crawl-delay: soon";
     "Disallow: /x"] = Some (inject_Z 10).
Proof.
  assert (Hafter : forall l, In l ["Crawl-delay: soon"; "Disallow: /x"] ->
                             delay_of_line (R := whole_number_parser) l = None).
  { intros l [<- | [<- | []]]; reflexivity. }
  exact (proj1 (last_crawl_delay_line_wins (R := whole_number_parser)
                  ["User-agent: *"; "Crawl-delay: 5"]
                  ["Crawl-delay: soon"; "Disallow: /x"] "crawl-delay: 10"
                  (inject_Z 10) eq_refl Hafter)).
Defined.

Lemma add_touches_one_record_instance :
  List.map fst (_index (snd (add Dedup.init phone_first)))
  = [provider_key phone_first].
Proof.
  assert (H : add Dedup.init phone_first
              = (Ok (true, phone_first), snd (add Dedup.init phone_first)))
    by (vm_compute; reflexivity).
  exact (proj1 (add_touches_one_record _ _ _ _ _ H)).
Defined.

End PropertyInstances.
